(** * Omni treadmill driver: signal processing, injection policy, pose synthesis

    A shallow embedding of the three integrations of the repository:

    - [TreadmillWrapper] : src/TreadmillOpenVRWrapper (treadmill_input.{h,cpp},
      openvr_wrapper.{h,cpp});
    - [TreadmillLayer]   : src/TreadmillOpenXRLayer (treadmill_input.{h,cpp},
      openxr_interceptor.cpp);
    - [Driver]           : src/driver_treadmill.cpp;
    - [GetModuleDirectory], which dllmain.cpp and layer_main.cpp both have,
      stands before the modules.

    Conventions.  A C++ [float] or [double] is read as a real number: the
    arithmetic is the exact one, rounding is not part of the model.  A
    fixed-width integer is a [Z] with its wrap-around written out.  A
    [std::string] is a list of characters.  Global variables become explicit
    arguments and results; a wall-clock read becomes one more argument; log
    lines are returned as values where a property speaks about them.  What
    the operating system, the runtime and OmniBridge.dll answer is an
    argument as well, and so are [std::stof] and [std::stoi], with [None]
    when they throw.  The
    one block whose purpose is rounding itself, the renormalisation of the
    pose quaternion, is given a second time in binary64 arithmetic
    ([DriverBinary64]), and the smoothing expressions a second time in
    binary32 ([Binary32]).  A property that needs more than the reading as
    real numbers says so: it asks for finite numbers ([finite32]) where the
    code would meet an infinity or a NaN, and it says "in exact arithmetic"
    where rounding would show. *)

From Stdlib Require Import Reals Lra Lia ZArith List Ascii String Bool.
From Stdlib Require Floats.
Import ListNotations.

Local Open Scope R_scope.

(** ** Shared numeric helpers *)

(** [std::clamp(v, lo, hi)] : [(v < lo) ? lo : (hi < v) ? hi : v]. *)
Definition clamp (v lo hi : R) : R :=
  if Rlt_dec v lo then lo else if Rlt_dec hi v then hi else v.

(** [a > b] on floats, as a boolean. *)
Definition Rgtb (a b : R) : bool := if Rgt_dec a b then true else false.

(** Wrap-around of [uint64_t] and of the cast [static_cast<int>] from
    [uint32_t]. *)
Definition wrap_u64 (n : Z) : Z := (n mod 2 ^ 64)%Z.

Definition cast_u32_to_int (n : Z) : Z :=
  let m := (n mod 2 ^ 32)%Z in
  if (m <? 2 ^ 31)%Z then m else (m - 2 ^ 32)%Z.

(** ** std::string *)

Definition cstring := list ascii.

Definition str (s : string) : cstring := list_ascii_of_string s.

(** [::tolower] in the C locale. *)
Definition tolower (c : ascii) : ascii :=
  let n := nat_of_ascii c in
  if andb (Nat.leb 65 n) (Nat.leb n 90) then ascii_of_nat (n + 32) else c.

(** [std::transform(s.begin(), s.end(), s.begin(), ::tolower)]. *)
Definition to_lower (s : cstring) : cstring := map tolower s.

Definition cstring_eqb (a b : cstring) : bool :=
  if list_eq_dec ascii_dec a b then true else false.

(** [s.substr(pos)] and [s.substr(pos, n)], for [pos <= s.size()]. *)
Definition substr_from (s : cstring) (pos : nat) : cstring := skipn pos s.

Definition substr (s : cstring) (pos n : nat) : cstring := firstn n (skipn pos s).

(** Does [s] begin with [needle]?  The comparison [find] makes at one
    position. *)
Fixpoint starts_with (needle s : cstring) : bool :=
  match needle, s with
  | [], _ => true
  | _ :: _, [] => false
  | a :: needle', b :: s' =>
      if ascii_dec a b then starts_with needle' s' else false
  end.

(** [s.find(needle)] : the first position where [needle] occurs, [None] for
    [std::string::npos]. *)
Fixpoint find (s needle : cstring) : option nat :=
  if starts_with needle s then Some 0%nat
  else match s with
       | [] => None
       | _ :: s' => option_map S (find s' needle)
       end.

(** [s.back()], on a non-empty string. *)
Definition back (s : cstring) : ascii := last s "000"%char.

Definition is_star (c : ascii) : bool :=
  if ascii_dec c "*"%char then true else false.

(** Is [c] one of the characters of [set]? *)
Fixpoint char_in (c : ascii) (set : cstring) : bool :=
  match set with
  | [] => false
  | a :: rest => if ascii_dec c a then true else char_in c rest
  end.

(** [s.find_first_not_of(set)] and [s.find_last_not_of(set)]: the position
    of the first (last) character of [s] that is not in [set], [None] for
    [npos]. *)
Fixpoint find_first_not_of (s set : cstring) : option nat :=
  match s with
  | [] => None
  | c :: rest =>
      if char_in c set then option_map S (find_first_not_of rest set)
      else Some 0%nat
  end.

Fixpoint find_last_not_of (s set : cstring) : option nat :=
  match s with
  | [] => None
  | c :: rest =>
      match find_last_not_of rest set with
      | Some i => Some (S i)
      | None => if char_in c set then None else Some 0%nat
      end
  end.

(** [s.find_first_of(set)] and [s.find_last_of(set)]. *)
Fixpoint find_first_of (s set : cstring) : option nat :=
  match s with
  | [] => None
  | c :: rest =>
      if char_in c set then Some 0%nat
      else option_map S (find_first_of rest set)
  end.

Fixpoint find_last_of (s set : cstring) : option nat :=
  match s with
  | [] => None
  | c :: rest =>
      match find_last_of rest set with
      | Some i => Some (S i)
      | None => if char_in c set then Some 0%nat else None
      end
  end.

(** [std::isspace] in the C locale: space, and the characters 9 to 13. *)
Definition isspace (c : ascii) : bool :=
  char_in c [" "; "009"; "010"; "011"; "012"; "013"]%char.

(** [stream >> word] on a string stream: skip the white space, then read up
    to the next white space.  The result is the word (empty when the
    extraction fails) and what is left of the stream. *)
Fixpoint skip_space (s : cstring) : cstring :=
  match s with
  | [] => []
  | c :: rest => if isspace c then skip_space rest else s
  end.

Fixpoint read_word (s : cstring) : cstring * cstring :=
  match s with
  | [] => ([], [])
  | c :: rest =>
      if isspace c then ([], s)
      else let (w, left) := read_word rest in (c :: w, left)
  end.

Definition extract_word (s : cstring) : cstring * cstring :=
  read_word (skip_space s).

(** ** std::wstring

    A wide string is the list of its code units. *)
Definition wstring := list N.

Definition wstr (s : string) : wstring :=
  map N_of_ascii (list_ascii_of_string s).

Fixpoint wchar_in (c : N) (set : wstring) : bool :=
  match set with
  | [] => false
  | a :: rest => if (c =? a)%N then true else wchar_in c rest
  end.

(** [s.find_last_of(set)] on wide strings. *)
Fixpoint wfind_last_of (s set : wstring) : option nat :=
  match s with
  | [] => None
  | c :: rest =>
      match wfind_last_of rest set with
      | Some i => Some (S i)
      | None => if wchar_in c set then Some 0%nat else None
      end
  end.

(** dllmain.cpp and layer_main.cpp, [GetModuleDirectory] (the same text in
    both files); [fullPath] is what [GetModuleFileNameW] wrote.  The set
    is a backslash and a slash. *)
Definition GetModuleDirectory (fullPath : wstring) : wstring :=
  match wfind_last_of fullPath (wstr "\/") with
  | Some lastSlash => firstn lastSlash fullPath
  | None => wstr "."
  end.

(** ** TreadmillOpenVRWrapper *)

Module TreadmillWrapper.

(** treadmill_input.h, [struct TreadmillState]. *)
Record TreadmillState : Type := mkTreadmillState {
  x : R;
  y : R;
  yaw : R;
  active : bool;
  lastUpdateTime : Z;
  updateCount : Z
}.

Definition g_treadmillState_init : TreadmillState :=
  mkTreadmillState 0 0 0 false 0 0.

Inductive InputMode : Type := Override | Additive | Smart.

(** treadmill_input.h, [struct Config] (the fields the engine reads). *)
Record Config : Type := mkConfig {
  enabled : bool;
  speedMultiplier : R;
  deadzone : R;
  smoothing : R;
  targetControllerIndex : Z;
  inputMode : InputMode;
  actionPatterns : list cstring
}.

Definition default_actionPatterns : list cstring :=
  [str "*move*"; str "*locomotion*"; str "*walk*"; str "*thumbstick*"].

Definition default_Config : Config :=
  mkConfig true (15 / 10) (1 / 10) (3 / 10) (-1) Smart default_actionPatterns.

(** treadmill_input.cpp, [ApplyDeadzone]. *)
Definition ApplyDeadzone (value deadzone : R) : R :=
  if Rlt_dec (Rabs value) deadzone then 0
  else
    let sign := if Rgt_dec value 0 then 1 else -1 in
    sign * (Rabs value - deadzone) / (1 - deadzone).

(** treadmill_input.cpp, [ApplySmoothing]. *)
Definition ApplySmoothing (current target factor : R) : R :=
  current + (target - current) * factor.

(** treadmill_input.cpp, [MatchesPattern]. *)
Definition MatchesPattern (text pattern : cstring) : bool :=
  let lowerText := to_lower text in
  let lowerPattern := to_lower pattern in
  match lowerPattern with
  | [] => false
  | c0 :: _ =>
      let startWild := is_star c0 in
      let endWild := is_star (back lowerPattern) in
      let searchStr := lowerPattern in
      let searchStr := if startWild then substr_from searchStr 1 else searchStr in
      let searchStr :=
        if andb endWild (negb (Nat.eqb (List.length searchStr) 0))
        then substr searchStr 0 (List.length searchStr - 1) else searchStr in
      if andb startWild endWild then
        match find lowerText searchStr with Some _ => true | None => false end
      else if startWild then
        andb (Nat.leb (List.length searchStr) (List.length lowerText))
             (cstring_eqb
                (substr_from lowerText (List.length lowerText - List.length searchStr))
                searchStr)
      else if endWild then
        cstring_eqb (substr lowerText 0 (List.length searchStr)) searchStr
      else
        cstring_eqb lowerText searchStr
  end.

(** The loop of [Wrapped_GetActionHandle] over [g_config.actionPatterns]:
    stop at the first pattern that matches. *)
Fixpoint isMovementAction (patterns : list cstring) (name : cstring) : bool :=
  match patterns with
  | [] => false
  | pattern :: rest =>
      if MatchesPattern name pattern then true else isMovementAction rest name
  end.

(** treadmill_input.cpp, [OmniBridge::OnOmniData]; [timestamp] is the
    steady clock in milliseconds. *)
Definition OnOmniData (g_config : Config) (timestamp : Z)
    (ringAngle : R) (gamePadX gamePadY : Z) (st : TreadmillState)
    : TreadmillState :=
  let x0 := (IZR gamePadX - 127) / 127 in
  let y0 := (- (IZR gamePadY - 127)) / 127 in
  let x1 := ApplyDeadzone x0 (deadzone g_config) in
  let y1 := ApplyDeadzone y0 (deadzone g_config) in
  let x2 := x1 * speedMultiplier g_config in
  let y2 := y1 * speedMultiplier g_config in
  let x3 := clamp x2 (-1) 1 in
  let y3 := clamp y2 (-1) 1 in
  let prevX := x st in
  let prevY := y st in
  let smoothedX := ApplySmoothing prevX x3 (smoothing g_config) in
  let smoothedY := ApplySmoothing prevY y3 (smoothing g_config) in
  mkTreadmillState smoothedX smoothedY ringAngle true
                   (wrap_u64 timestamp) (wrap_u64 (updateCount st + 1)).

(** *** OmniBridge: the static members and the connection life cycle *)

(** [nullptr] is 0 for [s_library] and [s_reader]. *)
Record OmniBridge : Type := mkOmniBridge {
  s_library : Z;
  s_reader : Z;
  s_connected : bool
}.

Definition OmniBridge_init : OmniBridge := mkOmniBridge 0 0 false.

(** What the operating system and OmniBridge.dll answer during
    [OmniBridge::Initialize]: the two [LoadLibraryW] results, whether the
    three entry points resolve, the reader that [OmniReader_Create]
    returns and whether [OmniReader_Initialize] succeeds. *)
Record InitEnv : Type := mkInitEnv {
  loadPath : Z;
  loadDefault : Z;
  entryPoints : bool;
  created : Z;
  initOk : bool
}.

(** treadmill_input.cpp, [OmniBridge::Initialize]. *)
Definition Initialize (env : InitEnv) (b : OmniBridge) : OmniBridge * bool :=
  let lib := loadPath env in
  let lib := if (lib =? 0)%Z then loadDefault env else lib in
  if (lib =? 0)%Z then (mkOmniBridge lib (s_reader b) (s_connected b), false)
  else if negb (entryPoints env)
  then (mkOmniBridge 0 (s_reader b) (s_connected b), false)
  else
    let reader := created env in
    if (reader =? 0)%Z then (mkOmniBridge 0 reader (s_connected b), false)
    else if negb (initOk env) then (mkOmniBridge 0 0 (s_connected b), false)
    else (mkOmniBridge lib reader true, true).

(** treadmill_input.cpp, [OmniBridge::Shutdown]. *)
Definition Shutdown (b : OmniBridge) : OmniBridge :=
  mkOmniBridge 0 0 false.

Definition IsConnected (b : OmniBridge) : bool := s_connected b.

(** *** IVRInput wrapper (openvr_wrapper.cpp) *)

(** openvr_wrapper.h, [struct InputAnalogActionData_t]; the axis fields
    carry the prefix [a_]. *)
Record InputAnalogActionData_t : Type := mkAnalog {
  bActive : bool;
  activeOrigin : Z;
  a_x : R;
  a_y : R;
  a_z : R;
  deltaX : R;
  deltaY : R;
  deltaZ : R;
  fUpdateTime : R
}.

Definition set_xy (d : InputAnalogActionData_t) (vx vy : R)
    : InputAnalogActionData_t :=
  mkAnalog (bActive d) (activeOrigin d) vx vy (a_z d)
           (deltaX d) (deltaY d) (deltaZ d) (fUpdateTime d).

Definition set_bActive (d : InputAnalogActionData_t) (b : bool)
    : InputAnalogActionData_t :=
  mkAnalog b (activeOrigin d) (a_x d) (a_y d) (a_z d)
           (deltaX d) (deltaY d) (deltaZ d) (fUpdateTime d).

Definition VRInputError_None : Z := 0.

(** [std::unordered_map<VRActionHandle_t, bool> g_isMovementAction]; the
    newest binding of a handle is the first one. *)
Definition ActionMap := list (Z * bool).

Fixpoint map_find (m : ActionMap) (k : Z) : option bool :=
  match m with
  | [] => None
  | (k', v) :: rest => if (k' =? k)%Z then Some v else map_find rest k
  end.

Definition map_set (m : ActionMap) (k : Z) (v : bool) : ActionMap :=
  (k, v) :: m.

(** [Wrapped_GetActionHandle]: after the real call, record whether the
    action is a movement action.  [pHandle] and [pchActionName] are [None]
    for null pointers. *)
Definition Wrapped_GetActionHandle (g_config : Config)
    (g_isMovementAction : ActionMap)
    (result : Z) (pchActionName : option cstring) (pHandle : option Z)
    : ActionMap * Z :=
  match pHandle, pchActionName with
  | Some h, Some name =>
      if (result =? VRInputError_None)%Z
      then (map_set g_isMovementAction h
                    (isMovementAction (actionPatterns g_config) name), result)
      else (g_isMovementAction, result)
  | _, _ => (g_isMovementAction, result)
  end.

(** [std::abs(treadmillX) > 0.05f || std::abs(treadmillY) > 0.05f]. *)
Definition treadmillActive2 (treadmillX treadmillY : R) : bool :=
  orb (Rgtb (Rabs treadmillX) (5 / 100)) (Rgtb (Rabs treadmillY) (5 / 100)).

(** The [switch (g_config.inputMode)] of [Wrapped_GetAnalogActionData]. *)
Definition analog_switch (mode : InputMode) (treadmillX treadmillY : R)
    (treadmillActive : bool) (d : InputAnalogActionData_t)
    : InputAnalogActionData_t :=
  match mode with
  | Override =>
      if treadmillActive
      then set_bActive (set_xy d treadmillX treadmillY) true
      else d
  | Additive =>
      let d1 := set_xy d (clamp (a_x d + treadmillX) (-1) 1) (a_y d) in
      let d2 := set_xy d1 (a_x d1) (clamp (a_y d1 + treadmillY) (-1) 1) in
      if treadmillActive then set_bActive d2 true else d2
  | Smart =>
      if treadmillActive
      then set_bActive (set_xy d treadmillX treadmillY) true
      else d
  end.

(** [Wrapped_GetAnalogActionData]: [result] and [pActionData] are what the
    real function returned and wrote ([None] for a null [pActionData]);
    [ulRestrictToDevice] is only forwarded to the real function. *)
Definition Wrapped_GetAnalogActionData (g_config : Config)
    (bridge : OmniBridge) (g_treadmillState : TreadmillState)
    (g_isMovementAction : ActionMap)
    (action : Z) (result : Z) (pActionData : option InputAnalogActionData_t)
    (ulRestrictToDevice : Z)
    : Z * option InputAnalogActionData_t :=
  match pActionData with
  | Some d =>
      if (result =? VRInputError_None)%Z then
        let isMovement :=
          match map_find g_isMovementAction action with
          | Some b => b
          | None => false
          end in
        if andb isMovement (IsConnected bridge) then
          let treadmillX := x g_treadmillState in
          let treadmillY := y g_treadmillState in
          let treadmillActive := treadmillActive2 treadmillX treadmillY in
          (result,
           Some (analog_switch (inputMode g_config) treadmillX treadmillY
                               treadmillActive d))
        else (result, Some d)
      else (result, Some d)
  | None => (result, None)
  end.

(** *** IVRSystem wrapper, legacy input (openvr_wrapper.cpp) *)

Record Axis : Type := mkAxis { ax_x : R; ax_y : R }.

(** openvr_wrapper.h, [struct VRControllerState001_t]; [rAxis] has
    [k_unControllerStateAxisCount = 5] entries. *)
Record VRControllerState_t : Type := mkControllerState {
  unPacketNum : Z;
  ulButtonPressed : Z;
  ulButtonTouched : Z;
  rAxis : list Axis
}.

Definition k_EControllerAxis_Joystick : nat := 0.

Definition axis_at (c : VRControllerState_t) (i : nat) : Axis :=
  nth i (rAxis c) (mkAxis 0 0).

Fixpoint upd_nth (i : nat) (a : Axis) (l : list Axis) : list Axis :=
  match l, i with
  | [], _ => []
  | _ :: rest, O => a :: rest
  | b :: rest, S j => b :: upd_nth j a rest
  end.

Definition set_axis (c : VRControllerState_t) (i : nat) (a : Axis)
    : VRControllerState_t :=
  mkControllerState (unPacketNum c) (ulButtonPressed c) (ulButtonTouched c)
                    (upd_nth i a (rAxis c)).

(** The [switch (g_config.inputMode)] of the two legacy wrappers, entered
    only when the treadmill is active. *)
Definition legacy_switch (mode : InputMode) (treadmillX treadmillY : R)
    (c : VRControllerState_t) : VRControllerState_t :=
  let j := k_EControllerAxis_Joystick in
  match mode with
  | Override =>
      let c1 := set_axis c j (mkAxis treadmillX (ax_y (axis_at c j))) in
      set_axis c1 j (mkAxis (ax_x (axis_at c1 j)) treadmillY)
  | Additive =>
      let c1 :=
        set_axis c j (mkAxis (clamp (ax_x (axis_at c j) + treadmillX) (-1) 1)
                             (ax_y (axis_at c j))) in
      set_axis c1 j (mkAxis (ax_x (axis_at c1 j))
                            (clamp (ax_y (axis_at c1 j) + treadmillY) (-1) 1))
  | Smart =>
      let c1 := set_axis c j (mkAxis treadmillX (ax_y (axis_at c j))) in
      set_axis c1 j (mkAxis (ax_x (axis_at c1 j)) treadmillY)
  end.

(** [Wrapped_GetControllerState]: [result] and [pControllerState] are what
    the real function returned and wrote; [unControllerDeviceIndex] is a
    [uint32_t]. *)
Definition Wrapped_GetControllerState (g_config : Config)
    (bridge : OmniBridge) (g_treadmillState : TreadmillState)
    (unControllerDeviceIndex : Z)
    (result : bool) (pControllerState : option VRControllerState_t)
    : bool * option VRControllerState_t :=
  match pControllerState with
  | Some c =>
      if andb result (IsConnected bridge) then
        if andb (0 <=? targetControllerIndex g_config)%Z
                (negb (cast_u32_to_int unControllerDeviceIndex
                       =? targetControllerIndex g_config)%Z)
        then (result, Some c)
        else
          let treadmillX := x g_treadmillState in
          let treadmillY := y g_treadmillState in
          let treadmillActive := treadmillActive2 treadmillX treadmillY in
          if treadmillActive
          then (result,
                Some (legacy_switch (inputMode g_config) treadmillX treadmillY c))
          else (result, Some c)
      else (result, Some c)
  | None => (result, None)
  end.

(** [Wrapped_GetControllerStateWithPose]: the same body after a different
    real call; [eOrigin] and the pose pointer are only forwarded. *)
Definition Wrapped_GetControllerStateWithPose (g_config : Config)
    (bridge : OmniBridge) (g_treadmillState : TreadmillState)
    (eOrigin : Z) (unControllerDeviceIndex : Z)
    (result : bool) (pControllerState : option VRControllerState_t)
    : bool * option VRControllerState_t :=
  match pControllerState with
  | Some c =>
      if andb result (IsConnected bridge) then
        if andb (0 <=? targetControllerIndex g_config)%Z
                (negb (cast_u32_to_int unControllerDeviceIndex
                       =? targetControllerIndex g_config)%Z)
        then (result, Some c)
        else
          let treadmillX := x g_treadmillState in
          let treadmillY := y g_treadmillState in
          let treadmillActive := treadmillActive2 treadmillX treadmillY in
          if treadmillActive
          then (result,
                Some (legacy_switch (inputMode g_config) treadmillX treadmillY c))
          else (result, Some c)
      else (result, Some c)
  | None => (result, None)
  end.

(** *** Config::Load (treadmill_input.cpp) *)

(** The fields of [struct Config] that only [Config::Load] and the
    start-up code touch, beside the ones above. *)
Record ConfigFile : Type := mkConfigFile {
  cf_config : Config;
  comPort : cstring;
  baudRate : Z;
  debugLog : bool
}.

Definition default_ConfigFile : ConfigFile :=
  mkConfigFile default_Config (str "COM3") 115200 true.

(** The two sets of the lambda [trim]: blank, tab, carriage return, line
    feed and the double quote; at the end also the comma. *)
Definition load_front : cstring := [" "; "009"; "013"; "010"; "034"]%char.

Definition load_back : cstring :=
  [" "; "009"; "013"; "010"; "034"; ","]%char.

(** The lambda [trim] of [Config::Load]: [s.erase(0, first)], where
    [first = npos] erases everything, then [s.erase(last + 1)], where
    [last = npos] makes the position 0. *)
Definition load_trim (s : cstring) : cstring :=
  let s1 :=
    match find_first_not_of s load_front with
    | Some first => skipn first s
    | None => []
    end in
  match find_last_not_of s1 load_back with
  | Some last => firstn (last + 1) s1
  | None => []
  end.

(** The body of the loop up to the two calls of [trim]: the key and the
    value of a line, [None] for a line without a colon. *)
Definition split_line (line : cstring) : option (cstring * cstring) :=
  let line :=
    match find line (str "//") with
    | Some commentPos => substr line 0 commentPos
    | None => line
    end in
  match find line (str ":") with
  | Some colonPos =>
      Some (load_trim (substr line 0 colonPos),
            load_trim (substr_from line (colonPos + 1)))
  | None => None
  end.

Definition with_config (c : ConfigFile) (g : Config) : ConfigFile :=
  mkConfigFile g (comPort c) (baudRate c) (debugLog c).

(** The chain of comparisons on [key].  [stoi] and [stof] are
    [std::stoi] and [std::stof], [None] when they throw; nothing catches
    what they throw, so the whole load is [None] then. *)
Definition assign (stoi : cstring -> option Z) (stof : cstring -> option R)
    (key value : cstring) (config : ConfigFile) : option ConfigFile :=
  let g := cf_config config in
  if cstring_eqb key (str "enabled") then
    Some (with_config config
            (mkConfig (cstring_eqb value (str "true")) (speedMultiplier g)
                      (deadzone g) (smoothing g) (targetControllerIndex g)
                      (inputMode g) (actionPatterns g)))
  else if cstring_eqb key (str "comPort") then
    Some (mkConfigFile g value (baudRate config) (debugLog config))
  else if cstring_eqb key (str "baudRate") then
    match stoi value with
    | Some n => Some (mkConfigFile g (comPort config) n (debugLog config))
    | None => None
    end
  else if cstring_eqb key (str "speedMultiplier") then
    match stof value with
    | Some v =>
        Some (with_config config
                (mkConfig (enabled g) v (deadzone g) (smoothing g)
                          (targetControllerIndex g) (inputMode g)
                          (actionPatterns g)))
    | None => None
    end
  else if cstring_eqb key (str "deadzone") then
    match stof value with
    | Some v =>
        Some (with_config config
                (mkConfig (enabled g) (speedMultiplier g) v (smoothing g)
                          (targetControllerIndex g) (inputMode g)
                          (actionPatterns g)))
    | None => None
    end
  else if cstring_eqb key (str "smoothing") then
    match stof value with
    | Some v =>
        Some (with_config config
                (mkConfig (enabled g) (speedMultiplier g) (deadzone g) v
                          (targetControllerIndex g) (inputMode g)
                          (actionPatterns g)))
    | None => None
    end
  else if cstring_eqb key (str "targetControllerIndex") then
    match stoi value with
    | Some n =>
        Some (with_config config
                (mkConfig (enabled g) (speedMultiplier g) (deadzone g)
                          (smoothing g) n (inputMode g) (actionPatterns g)))
    | None => None
    end
  else if cstring_eqb key (str "inputMode") then
    let mode :=
      if cstring_eqb value (str "override") then Override
      else if cstring_eqb value (str "additive") then Additive
      else Smart in
    Some (with_config config
            (mkConfig (enabled g) (speedMultiplier g) (deadzone g)
                      (smoothing g) (targetControllerIndex g) mode
                      (actionPatterns g)))
  else if cstring_eqb key (str "debugLog") then
    Some (mkConfigFile g (comPort config) (baudRate config)
                       (cstring_eqb value (str "true")))
  else Some config.

(** One turn of the loop of [Config::Load]. *)
Definition load_line (stoi : cstring -> option Z) (stof : cstring -> option R)
    (config : ConfigFile) (line : cstring) : option ConfigFile :=
  match split_line line with
  | Some (key, value) => assign stoi stof key value config
  | None => Some config
  end.

(** [Config::Load]: [file] is [None] when the file does not open, and
    else its lines as [std::getline] delivers them. *)
Definition Load (stoi : cstring -> option Z) (stof : cstring -> option R)
    (file : option (list cstring)) : option ConfigFile :=
  match file with
  | None => Some default_ConfigFile
  | Some lines =>
      fold_left
        (fun acc line =>
           match acc with
           | Some config => load_line stoi stof config line
           | None => None
           end)
        lines (Some default_ConfigFile)
  end.

(** *** The process as a whole

    The globals of the wrapper and the operations that can run on them, in
    any order and any number of times. *)
Record World : Type := mkWorld {
  g_treadmillState : TreadmillState;
  bridge : OmniBridge;
  g_isMovementAction : ActionMap
}.

Definition World_init : World :=
  mkWorld g_treadmillState_init OmniBridge_init [].

Inductive Op : Type :=
| OpInitialize (env : InitEnv)
| OpOnOmniData (timestamp : Z) (ringAngle : R) (gamePadX gamePadY : Z)
| OpShutdown
| OpIsConnected
| OpGetActionHandle (result : Z) (name : option cstring) (h : option Z)
| OpGetAnalogActionData (action result : Z)
    (data : option InputAnalogActionData_t) (ulRestrictToDevice : Z)
| OpGetControllerState (index : Z) (result : bool)
    (state : option VRControllerState_t)
| OpGetControllerStateWithPose (eOrigin index : Z) (result : bool)
    (state : option VRControllerState_t).

(** The effect of one operation on the globals.  The intercepted reads
    load from the globals and write only through the pointers of their
    caller, so they leave the globals as they are. *)
Definition step (g_config : Config) (w : World) (op : Op) : World :=
  match op with
  | OpInitialize env =>
      mkWorld (g_treadmillState w) (fst (Initialize env (bridge w)))
              (g_isMovementAction w)
  | OpOnOmniData timestamp ringAngle gamePadX gamePadY =>
      mkWorld (OnOmniData g_config timestamp ringAngle gamePadX gamePadY
                          (g_treadmillState w))
              (bridge w) (g_isMovementAction w)
  | OpShutdown =>
      mkWorld (g_treadmillState w) (Shutdown (bridge w)) (g_isMovementAction w)
  | OpIsConnected => w
  | OpGetActionHandle result name h =>
      mkWorld (g_treadmillState w) (bridge w)
              (fst (Wrapped_GetActionHandle g_config (g_isMovementAction w)
                                            result name h))
  | OpGetAnalogActionData action result data ulRestrictToDevice =>
      let returned :=
        Wrapped_GetAnalogActionData g_config (bridge w) (g_treadmillState w)
          (g_isMovementAction w) action result data ulRestrictToDevice in
      w
  | OpGetControllerState index result state =>
      let returned :=
        Wrapped_GetControllerState g_config (bridge w) (g_treadmillState w)
          index result state in
      w
  | OpGetControllerStateWithPose eOrigin index result state =>
      let returned :=
        Wrapped_GetControllerStateWithPose g_config (bridge w)
          (g_treadmillState w) eOrigin index result state in
      w
  end.

Definition run (g_config : Config) (w : World) (ops : list Op) : World :=
  fold_left (step g_config) ops w.

End TreadmillWrapper.

(** ** TreadmillOpenXRLayer *)

Module TreadmillLayer.

(** treadmill_input.h, [struct TreadmillState]. *)
Record TreadmillState : Type := mkTreadmillState {
  x : R;
  y : R;
  yaw : R;
  active : bool;
  lastUpdateTime : Z;
  updateCount : Z
}.

Definition g_treadmillState_init : TreadmillState :=
  mkTreadmillState 0 0 0 false 0 0.

Inductive InputMode : Type := Override | Additive | Smart.

(** treadmill_input.h, [struct Config]: no [targetControllerIndex] here,
    and [targetPaths] is read by no function. *)
Record Config : Type := mkConfig {
  enabled : bool;
  speedMultiplier : R;
  deadzone : R;
  smoothing : R;
  inputMode : InputMode;
  actionPatterns : list cstring;
  targetPaths : list cstring
}.

(** treadmill_input.cpp, [ApplyDeadzone]. *)
Definition ApplyDeadzone (value deadzone : R) : R :=
  if Rlt_dec (Rabs value) deadzone then 0
  else
    let sign := if Rgt_dec value 0 then 1 else -1 in
    sign * (Rabs value - deadzone) / (1 - deadzone).

(** treadmill_input.cpp, [ApplySmoothing]. *)
Definition ApplySmoothing (current target factor : R) : R :=
  current + (target - current) * factor.

(** treadmill_input.cpp, [OmniBridge::OnOmniData]. *)
Definition OnOmniData (g_config : Config) (timestamp : Z)
    (ringAngle : R) (gamePadX gamePadY : Z) (st : TreadmillState)
    : TreadmillState :=
  let x0 := (IZR gamePadX - 127) / 127 in
  let y0 := (- (IZR gamePadY - 127)) / 127 in
  let x1 := ApplyDeadzone x0 (deadzone g_config) in
  let y1 := ApplyDeadzone y0 (deadzone g_config) in
  let x2 := x1 * speedMultiplier g_config in
  let y2 := y1 * speedMultiplier g_config in
  let x3 := clamp x2 (-1) 1 in
  let y3 := clamp y2 (-1) 1 in
  let prevX := x st in
  let prevY := y st in
  mkTreadmillState (ApplySmoothing prevX x3 (smoothing g_config))
                   (ApplySmoothing prevY y3 (smoothing g_config))
                   ringAngle true
                   (wrap_u64 timestamp) (wrap_u64 (updateCount st + 1)).

Record OmniBridge : Type := mkOmniBridge {
  s_library : Z;
  s_reader : Z;
  s_connected : bool
}.

(** treadmill_input.cpp, [OmniBridge::Shutdown]. *)
Definition Shutdown (b : OmniBridge) : OmniBridge :=
  mkOmniBridge 0 0 false.

Definition IsConnected (b : OmniBridge) : bool := s_connected b.

(** openxr_layer.h, [struct XrActionStateVector2f]; [XrBool32] is a
    [uint32_t], and storing [true] stores 1. *)
Record XrActionStateVector2f : Type := mkVector2f {
  v_type : Z;
  v_next : Z;
  v_x : R;
  v_y : R;
  v_changedSinceLastSync : Z;
  v_lastChangeTime : Z;
  v_isActive : Z
}.

Definition set_xy (s : XrActionStateVector2f) (vx vy : R)
    : XrActionStateVector2f :=
  mkVector2f (v_type s) (v_next s) vx vy (v_changedSinceLastSync s)
             (v_lastChangeTime s) (v_isActive s).

Definition set_isActive (s : XrActionStateVector2f) (b : Z)
    : XrActionStateVector2f :=
  mkVector2f (v_type s) (v_next s) (v_x s) (v_y s) (v_changedSinceLastSync s)
             (v_lastChangeTime s) b.

Definition XR_ERROR_VALIDATION_FAILURE : Z := -1.

Definition XR_SUCCEEDED (result : Z) : bool := (0 <=? result)%Z.

Definition ActionMap := list (Z * bool).

Fixpoint map_find (m : ActionMap) (k : Z) : option bool :=
  match m with
  | [] => None
  | (k', v) :: rest => if (k' =? k)%Z then Some v else map_find rest k
  end.

Definition treadmillActive2 (treadmillX treadmillY : R) : bool :=
  orb (Rgtb (Rabs treadmillX) (5 / 100)) (Rgtb (Rabs treadmillY) (5 / 100)).

(** The guarded [switch] of [TreadmillLayer_xrGetActionStateVector2f]. *)
Definition vector2f_switch (mode : InputMode) (treadmillX treadmillY : R)
    (treadmillActive : bool) (s : XrActionStateVector2f)
    : XrActionStateVector2f :=
  let isAdditive := match mode with Additive => true | _ => false end in
  if orb treadmillActive isAdditive then
    match mode with
    | Override => set_isActive (set_xy s treadmillX treadmillY) 1
    | Additive =>
        let s1 := set_xy s (clamp (v_x s + treadmillX) (-1) 1) (v_y s) in
        let s2 := set_xy s1 (v_x s1) (clamp (v_y s1 + treadmillY) (-1) 1) in
        if treadmillActive then set_isActive s2 1 else s2
    | Smart =>
        if treadmillActive
        then set_isActive (set_xy s treadmillX treadmillY) 1
        else s
    end
  else s.

(** openxr_interceptor.cpp, [TreadmillLayer_xrGetActionStateVector2f]:
    [haveReal] says that [Real_xrGetActionStateVector2f] is not null,
    [getInfo] is the action of [*getInfo] and [state] the contents of
    [*state] after the real call ([None] for null pointers). *)
Definition TreadmillLayer_xrGetActionStateVector2f (g_config : Config)
    (bridge : OmniBridge) (g_treadmillState : TreadmillState)
    (g_isMovementAction : ActionMap)
    (haveReal : bool) (getInfo : option Z) (result : Z)
    (state : option XrActionStateVector2f)
    : Z * option XrActionStateVector2f :=
  match haveReal, getInfo, state with
  | true, Some action, Some s =>
      if andb (XR_SUCCEEDED result) (IsConnected bridge) then
        let isMovement :=
          match map_find g_isMovementAction action with
          | Some b => b
          | None => false
          end in
        if isMovement then
          let treadmillX := x g_treadmillState in
          let treadmillY := y g_treadmillState in
          let treadmillActive := treadmillActive2 treadmillX treadmillY in
          (result,
           Some (vector2f_switch (inputMode g_config) treadmillX treadmillY
                                 treadmillActive s))
        else (result, Some s)
      else (result, Some s)
  | _, _, _ => (XR_ERROR_VALIDATION_FAILURE, state)
  end.

(** The [switch] of [TreadmillLayer_xrGetActionStateFloat] on one scalar
    [currentState] and its [isActive], entered only when the treadmill
    value exceeds the threshold. *)
Definition float_switch (mode : InputMode) (treadmillValue : R)
    (currentState : R) (isActive : Z) : R * Z :=
  if Rgtb (Rabs treadmillValue) (5 / 100) then
    match mode with
    | Override => (treadmillValue, 1%Z)
    | Additive => (clamp (currentState + treadmillValue) (-1) 1, 1%Z)
    | Smart => (treadmillValue, 1%Z)
    end
  else (currentState, isActive).

(** *** Action tracking (openxr_interceptor.cpp) *)

Definition XR_ERROR_FUNCTION_UNSUPPORTED : Z := -6.

Definition XR_ERROR_HANDLE_INVALID : Z := -12.

(** treadmill_input.cpp, [MatchesPattern]: statement for statement the
    function of the same name of the wrapper. *)
Definition MatchesPattern (text pattern : cstring) : bool :=
  TreadmillWrapper.MatchesPattern text pattern.

(** The loop of [TreadmillLayer_xrCreateAction] over
    [g_config.actionPatterns]. *)
Fixpoint isMovementAction (patterns : list cstring) (actionName : cstring)
    : bool :=
  match patterns with
  | [] => false
  | pattern :: rest =>
      if MatchesPattern actionName pattern then true
      else isMovementAction rest actionName
  end.

(** [std::unordered_map<XrAction, std::string> g_actionNames]; the newest
    binding of a handle is the first one. *)
Definition NameMap := list (Z * cstring).

Fixpoint names_find (m : NameMap) (k : Z) : option cstring :=
  match m with
  | [] => None
  | (k', v) :: rest => if (k' =? k)%Z then Some v else names_find rest k
  end.

(** The two maps [g_actionNames] and [g_isMovementAction]. *)
Record Tracking : Type := mkTracking {
  g_actionNames : NameMap;
  g_isMovementAction : ActionMap
}.

Definition Tracking_init : Tracking := mkTracking [] [].

(** [TreadmillLayer_xrDestroyInstance]: [haveReal] says that
    [Real_xrDestroyInstance] is not null, [result] is what it returns. *)
Definition TreadmillLayer_xrDestroyInstance (haveReal : bool) (result : Z)
    (t : Tracking) : Tracking * Z :=
  (mkTracking [] [], if haveReal then result else XR_ERROR_HANDLE_INVALID).

(** [TreadmillLayer_xrCreateAction]: [createInfo] is the action name of
    [*createInfo] and [action] the handle in [*action] after the real call
    ([None] for null pointers). *)
Definition TreadmillLayer_xrCreateAction (g_config : Config)
    (haveReal : bool) (result : Z)
    (createInfo : option cstring) (action : option Z)
    (t : Tracking) : Tracking * Z :=
  if negb haveReal then (t, XR_ERROR_FUNCTION_UNSUPPORTED)
  else
    match createInfo, action with
    | Some actionName, Some a =>
        if XR_SUCCEEDED result then
          (mkTracking
             ((a, actionName) :: g_actionNames t)
             ((a, isMovementAction (actionPatterns g_config) actionName)
              :: g_isMovementAction t),
           result)
        else (t, result)
    | _, _ => (t, result)
    end.

(** openxr_layer.h, [struct XrActionStateFloat]. *)
Record XrActionStateFloat : Type := mkFloat {
  f_type : Z;
  f_next : Z;
  f_currentState : R;
  f_changedSinceLastSync : Z;
  f_lastChangeTime : Z;
  f_isActive : Z
}.

Definition contains (name needle : cstring) : bool :=
  match find name needle with Some _ => true | None => false end.

(** The treadmill value [TreadmillLayer_xrGetActionStateFloat] picks for an
    action, from the name the action was created with. *)
Definition treadmillValue_for (g_treadmillState : TreadmillState)
    (g_actionNames : NameMap) (action : Z) : R :=
  match names_find g_actionNames action with
  | Some name =>
      if orb (contains name (str "forward"))
             (orb (contains name (str "vertical")) (contains name (str "y")))
      then y g_treadmillState
      else x g_treadmillState
  | None => 0
  end.

(** openxr_interceptor.cpp, [TreadmillLayer_xrGetActionStateFloat], with the
    conventions of [TreadmillLayer_xrGetActionStateVector2f]. *)
Definition TreadmillLayer_xrGetActionStateFloat (g_config : Config)
    (bridge : OmniBridge) (g_treadmillState : TreadmillState)
    (t : Tracking)
    (haveReal : bool) (getInfo : option Z) (result : Z)
    (state : option XrActionStateFloat)
    : Z * option XrActionStateFloat :=
  match haveReal, getInfo, state with
  | true, Some action, Some s =>
      if andb (XR_SUCCEEDED result) (IsConnected bridge) then
        let isMovement :=
          match map_find (g_isMovementAction t) action with
          | Some b => b
          | None => false
          end in
        if isMovement then
          let treadmillValue :=
            treadmillValue_for g_treadmillState (g_actionNames t) action in
          let (cs, ia) :=
            float_switch (inputMode g_config) treadmillValue
                         (f_currentState s) (f_isActive s) in
          (result,
           Some (mkFloat (f_type s) (f_next s) cs (f_changedSinceLastSync s)
                         (f_lastChangeTime s) ia))
        else (result, Some s)
      else (result, Some s)
  | _, _, _ => (XR_ERROR_VALIDATION_FAILURE, state)
  end.

(** The calls that reach the tracking maps, in any order and any number
    of times. *)
Inductive TrackOp : Type :=
| OpCreateAction (haveReal : bool) (result : Z)
                 (createInfo : option cstring) (action : option Z)
| OpDestroyInstance (haveReal : bool) (result : Z).

Definition track (g_config : Config) (t : Tracking) (op : TrackOp)
    : Tracking :=
  match op with
  | OpCreateAction haveReal result createInfo action =>
      fst (TreadmillLayer_xrCreateAction g_config haveReal result
                                         createInfo action t)
  | OpDestroyInstance haveReal result =>
      fst (TreadmillLayer_xrDestroyInstance haveReal result t)
  end.

Definition track_all (g_config : Config) (ops : list TrackOp) : Tracking :=
  fold_left (track g_config) ops Tracking_init.

End TreadmillLayer.

(** ** The SteamVR driver (driver_treadmill.cpp) *)

Module Driver.

(** [struct XYState], without its mutex. *)
Record XYState : Type := mkXYState {
  x : R;
  y : R;
  yaw : R;
  x_smoothed : R;
  y_smoothed : R;
  yaw_smoothed : R;
  dataId : Z;
  logCounter : Z;
  lastHmdX : R;
  lastHmdZ : R;
  hmdInitialized : bool
}.

Definition g_state_init : XYState :=
  mkXYState 0 0 0 0 0 0 0 0 0 0 false.

(** The two [if]s that bring [yaw_diff] back after the subtraction. *)
Definition normalize_diff (yaw_diff : R) : R :=
  let d := if Rgt_dec yaw_diff 180 then yaw_diff - 360 else yaw_diff in
  if Rlt_dec d (-180) then d + 360 else d.

(** The two [if]s that bring [yaw_smoothed] back after the update. *)
Definition normalize_yaw (v : R) : R :=
  let v1 := if Rlt_dec v 0 then v + 360 else v in
  if Rge_dec v1 360 then v1 - 360 else v1.

(** [OnOmniData]; [alpha] is [g_smoothingFactor.load()], [timestamp] the
    system clock in milliseconds. *)
Definition OnOmniData (alpha : R) (timestamp : Z)
    (ringAngle : R) (gamePadX gamePadY : Z) (g_state : XYState) : XYState :=
  let raw_x := clamp ((IZR gamePadX - 127) / 127) (-1) 1 in
  let raw_y := clamp ((- (IZR gamePadY - 127)) / 127) (-1) 1 in
  let xs := alpha * raw_x + (1 - alpha) * x_smoothed g_state in
  let ys := alpha * raw_y + (1 - alpha) * y_smoothed g_state in
  let yaw_diff := normalize_diff (ringAngle - yaw_smoothed g_state) in
  let yaws := normalize_yaw (yaw_smoothed g_state + alpha * yaw_diff) in
  mkXYState raw_x raw_y ringAngle xs ys yaws
            (wrap_u64 timestamp) (wrap_u64 (logCounter g_state + 1))
            (lastHmdX g_state) (lastHmdZ g_state) (hmdInitialized g_state).

(** [vr::HmdQuaternion_t]. *)
Record Quat : Type := mkQuat { qw : R; qx : R; qy : R; qz : R }.

(** The fields of [vr::DriverPose_t] that the two [GetPose] write. *)
Record DriverPose_t : Type := mkPose {
  poseIsValid : bool;
  deviceIsConnected : bool;
  vecPosition : R * R * R;
  qRotation : Quat
}.

Definition DEG2RAD : R := PI / 180.

(** The quaternion both [GetPose] build from the smoothed yaw. *)
Definition yaw_quat (rawYaw : R) : Quat :=
  let theta := rawYaw * DEG2RAD in
  let half := theta * (5 / 10) in
  let c := cos half in
  let s := sin half in
  mkQuat c 0 (- s) 0.

(** [TreadmillDevice::GetPose]. *)
Definition TreadmillDevice_GetPose (g_state : XYState) : DriverPose_t :=
  let rawYaw := yaw_smoothed g_state in
  mkPose true true (0, 0, 0) (yaw_quat rawYaw).

Definition qLength (q : Quat) : R :=
  sqrt (qw q * qw q + qx q * qx q + qy q * qy q + qz q * qz q).

(** The "Normalize quaternion" block of [TreadmillVisualTracker::GetPose]. *)
Definition normalize_quat (q : Quat) : Quat :=
  let l := qLength q in
  if Rgt_dec l (1 / 10000)
  then mkQuat (qw q / l) (qx q / l) (qy q / l) (qz q / l)
  else q.

(** [vr::TrackedDevicePose_t]: validity and the 3x4 matrix
    [mDeviceToAbsoluteTracking.m]. *)
Record TrackedDevicePose_t : Type := mkHmdPose {
  bPoseIsValid : bool;
  m : nat -> nat -> R
}.

(** The two [Log] calls of the movement analysis, with their arguments. *)
Inductive Verdict : Type :=
| DirectionMismatch (angleDiff actualDirX actualDirZ
                     expectedWorldX expectedWorldZ
                     rawYaw joystickX joystickY : R)
| DirectionOK (angleDiff actualDirX actualDirZ
               expectedWorldX expectedWorldZ : R).

(** The block "MOVEMENT ANALYSIS" of [TreadmillVisualTracker::GetPose],
    inside its guard: [None] when no [Log] call is made. *)
Definition analyse (g_state : XYState) (currentHmdX currentHmdZ : R)
    (rawYaw joystickX joystickY : R) : option Verdict :=
  let actualDeltaX := currentHmdX - lastHmdX g_state in
  let actualDeltaZ := currentHmdZ - lastHmdZ g_state in
  let actualDistance :=
    sqrt (actualDeltaX * actualDeltaX + actualDeltaZ * actualDeltaZ) in
  if Rgt_dec actualDistance (5 / 100) then
    let actualDirX := actualDeltaX / actualDistance in
    let actualDirZ := actualDeltaZ / actualDistance in
    let yawRad := rawYaw * DEG2RAD in
    let sinYaw := sin yawRad in
    let cosYaw := cos yawRad in
    let expectedWorldX := joystickX * cosYaw - joystickY * sinYaw in
    let expectedWorldZ := joystickX * sinYaw + joystickY * cosYaw in
    let expectedLength :=
      sqrt (expectedWorldX * expectedWorldX + expectedWorldZ * expectedWorldZ) in
    if Rgt_dec expectedLength (1 / 100) then
      let expectedWorldX := expectedWorldX / expectedLength in
      let expectedWorldZ := expectedWorldZ / expectedLength in
      let dotProduct :=
        actualDirX * expectedWorldX + actualDirZ * expectedWorldZ in
      let dotProduct := clamp dotProduct (-1) 1 in
      let angleDiff := acos dotProduct * 180 / PI in
      if Rgt_dec angleDiff 5
      then Some (DirectionMismatch angleDiff actualDirX actualDirZ
                   expectedWorldX expectedWorldZ rawYaw joystickX joystickY)
      else Some (DirectionOK angleDiff actualDirX actualDirZ
                   expectedWorldX expectedWorldZ)
    else None
  else None.

(** [TreadmillVisualTracker::GetPose]: [hmdPose] is what
    [GetRawTrackedDevicePoses] wrote.  The result is the pose, the new
    [g_state] and the verdict logged by the movement analysis, if any. *)
Definition TreadmillVisualTracker_GetPose (g_state : XYState)
    (hmdPose : TrackedDevicePose_t)
    : DriverPose_t * XYState * option Verdict :=
  let rawYaw := yaw_smoothed g_state in
  let logCounter := logCounter g_state in
  let joystickX := x_smoothed g_state in
  let joystickY := y_smoothed g_state in
  let hmdValid := bPoseIsValid hmdPose in
  let currentHmdX := if hmdValid then m hmdPose 0%nat 3%nat else 0 in
  let currentHmdZ := if hmdValid then m hmdPose 2%nat 3%nat else 0 in
  let position :=
    if hmdValid
    then (currentHmdX, m hmdPose 1%nat 3%nat - 3 / 10, currentHmdZ - 5 / 10)
    else (0, 12 / 10, - (5 / 10)) in
  let verdict :=
    if andb (andb hmdValid (hmdInitialized g_state))
            (logCounter mod 50 =? 0)%Z
    then analyse g_state currentHmdX currentHmdZ rawYaw joystickX joystickY
    else None in
  let g_state' :=
    if hmdValid
    then mkXYState (x g_state) (y g_state) (yaw g_state)
                   (x_smoothed g_state) (y_smoothed g_state)
                   (yaw_smoothed g_state) (dataId g_state)
                   (Driver.logCounter g_state)
                   currentHmdX currentHmdZ true
    else g_state in
  (mkPose true true position (normalize_quat (yaw_quat rawYaw)),
   g_state', verdict).

(** *** Settings, debug requests and input updates *)

(** The characters [trim] removes: [" \t\r\n"]. *)
Definition trim_set : cstring := [" "; "009"; "013"; "010"]%char.

(** [trim].  When [find_first_not_of] finds a position, so does
    [find_last_not_of]; the last case of the match stands for
    [end = npos], where the count [end - start + 1] wraps around to at
    least what is left of the string. *)
Definition trim (s : cstring) : cstring :=
  match find_first_not_of s trim_set, find_last_not_of s trim_set with
  | None, _ => []
  | Some start, Some e => substr s start (e - start + 1)
  | Some start, None => substr_from s start
  end.

(** The three atomics [g_debug], [g_speedFactor], [g_smoothingFactor]. *)
Record Settings : Type := mkSettings {
  g_debug : bool;
  g_speedFactor : R;
  g_smoothingFactor : R
}.

Definition Settings_init : Settings := mkSettings true 1 (3 / 10).

(** [SetDebugFromString]; [None] is the null pointer. *)
Definition SetDebugFromString (s : option cstring) (g : Settings) : Settings :=
  match s with
  | None => g
  | Some s0 =>
      let ss := to_lower (trim s0) in
      if orb (cstring_eqb ss (str "true"))
             (orb (cstring_eqb ss (str "1")) (cstring_eqb ss (str "on")))
      then mkSettings true (g_speedFactor g) (g_smoothingFactor g)
      else mkSettings false (g_speedFactor g) (g_smoothingFactor g)
  end.

(** The settings block of the constructor [TreadmillDevice::TreadmillDevice]:
    [haveSettings] tells that [vr::VRSettings()] is not null; each
    [GetFloat] answers a value and whether its error code is
    [vr::VRSettingsError_None]. *)
Definition load_factors (haveSettings : bool)
    (speedOk : bool) (vSpeed : R) (smoothingOk : bool) (vSmoothing : R)
    (g : Settings) : Settings :=
  if haveSettings then
    let g1 :=
      if andb speedOk (Rgtb vSpeed 0)
      then mkSettings (g_debug g) vSpeed (g_smoothingFactor g)
      else g in
    if andb smoothingOk
            (andb (if Rge_dec vSmoothing 0 then true else false)
                  (if Rle_dec vSmoothing 1 then true else false))
    then mkSettings (g_debug g1) (g_speedFactor g1) vSmoothing
    else g1
  else g.

(** What [DebugRequest] copies into the response buffer. *)
Inductive Response : Type :=
| NoRequest
| DebugIs (b : bool)
| SpeedIs (v : R)
| InvalidSpeed
| SmoothingIs (v : R)
| InvalidSmoothing
| UnknownCommand.

(** [TreadmillDevice::DebugRequest].  [stof] is [std::stof], with [None]
    when it throws; [pchRequest] is [None] for a null pointer; [hasBuffer]
    says that the response buffer is not null and not of size 0. *)
Definition DebugRequest (stof : cstring -> option R)
    (pchRequest : option cstring) (hasBuffer : bool) (g : Settings)
    : Settings * option Response :=
  let respond := fun r : Response => if hasBuffer then Some r else None in
  let req := match pchRequest with Some r => r | None => [] end in
  let req := trim req in
  match req with
  | [] => (g, respond NoRequest)
  | _ :: _ =>
      let (cmd, left) := extract_word req in
      let (arg, _) := extract_word left in
      let cmd := to_lower cmd in
      if cstring_eqb cmd (str "debug") then
        let g' := SetDebugFromString (Some arg) g in
        (g', respond (DebugIs (g_debug g')))
      else if cstring_eqb cmd (str "speed") then
        match stof arg with
        | Some v =>
            if Rgt_dec v 0
            then (mkSettings (g_debug g) v (g_smoothingFactor g),
                  respond (SpeedIs v))
            else (g, respond InvalidSpeed)
        | None => (g, respond InvalidSpeed)
        end
      else if cstring_eqb cmd (str "smoothing") then
        match stof arg with
        | Some v =>
            if Rge_dec v 0 then
              if Rle_dec v 1
              then (mkSettings (g_debug g) (g_speedFactor g) v,
                    respond (SmoothingIs v))
              else (g, respond InvalidSmoothing)
            else (g, respond InvalidSmoothing)
        | None => (g, respond InvalidSmoothing)
        end
      else (g, respond UnknownCommand)
  end.

(** [TreadmillDevice::UpdateInputs]: the calls it makes to
    [UpdateScalarComponent], each with its handle and value.  [invalid] is
    [vr::k_ulInvalidInputComponentHandle]. *)
Definition UpdateInputs (invalid : Z) (is_active_ : bool)
    (handle_x handle_y : Z) (g : Settings) (g_state : XYState)
    : list (Z * R) :=
  if negb is_active_ then []
  else
    let x := x_smoothed g_state in
    let y := y_smoothed g_state in
    let factor := g_speedFactor g in
    let sx := clamp (x * factor) (-1) 1 in
    let sy := clamp (y * factor) (-1) 1 in
    (if (handle_x =? invalid)%Z then [] else [(handle_x, sx)])
    ++ (if (handle_y =? invalid)%Z then [] else [(handle_y, sy)]).

End Driver.

(** ** The pose quaternion in binary64 *)

Module DriverBinary64.

Import PrimFloat.
Local Open Scope float_scope.
Local Set Warnings "-inexact-float".

(** [vr::HmdQuaternion_t], four [double]s. *)
Record Quat : Type := mkQuat { qw : float; qx : float; qy : float; qz : float }.

Definition DEG2RAD : float := 3.14159265358979323846 / 180.0.

(** [half] of both [GetPose], from the stored yaw widened to [double]. *)
Definition half_angle (rawYaw : float) : float :=
  let theta := rawYaw * DEG2RAD in
  theta * 0.5.

(** The four assignments to [m_pose.qRotation]; [c] and [s] are what
    [std::cos(half)] and [std::sin(half)] returned. *)
Definition construct (c s : float) : Quat := mkQuat c 0.0 (- s) 0.0.

Definition qLength (q : Quat) : float :=
  sqrt (qw q * qw q + qx q * qx q + qy q * qy q + qz q * qz q).

(** The "Normalize quaternion" block. *)
Definition normalize_quat (q : Quat) : Quat :=
  let l := qLength q in
  if 0.0001 <? l
  then mkQuat (qw q / l) (qx q / l) (qy q / l) (qz q / l)
  else q.

(** The rotation [TreadmillDevice::GetPose] returns. *)
Definition TreadmillDevice_rotation (c s : float) : Quat := construct c s.

(** The rotation [TreadmillVisualTracker::GetPose] returns. *)
Definition TreadmillVisualTracker_rotation (c s : float) : Quat :=
  normalize_quat (construct c s).

(** Cosine and sine of [half_angle 1.5], rounded to the nearest
    [double]. *)
Definition cos_half_1_5 : float := 0x1.fff4c54f76e1cp-1.

Definition sin_half_1_5 : float := 0x1.aceb7c72ca0a9p-7.

End DriverBinary64.

(** ** The smoothing steps in binary32

    The three smoothing expressions a second time, in the arithmetic the
    code runs them in: [float] is IEEE 754 binary32 (24 bits of precision,
    exponents up to 128), every operation rounds to nearest, ties to
    even. *)

Module Binary32.

Import SpecFloat.

Definition prec : Z := 24.

Definition emax : Z := 128.

Definition float : Type := spec_float.

(** The [float] of an integer and of a decimal literal [n / d] such as
    [0.3f]: the quotient of two exact integers, rounded once. *)
Definition of_Z (n : Z) : float := binary_normalize prec emax n 0 false.

Definition add (a b : float) : float := SFadd prec emax a b.

Definition sub (a b : float) : float := SFsub prec emax a b.

Definition mul (a b : float) : float := SFmul prec emax a b.

Definition div (a b : float) : float := SFdiv prec emax a b.

Definition lit (n d : Z) : float := div (of_Z n) (of_Z d).

Definition lt (a b : float) : bool := SFltb a b.

Definition gt (a b : float) : bool := SFltb b a.

Definition ge (a b : float) : bool := SFleb b a.

(** treadmill_input.cpp, [ApplySmoothing]. *)
Definition ApplySmoothing (current target factor : float) : float :=
  add current (mul (sub target current) factor).

(** driver_treadmill.cpp, [OnOmniData]: the right-hand side of the two
    assignments to [g_state.x_smoothed] and [g_state.y_smoothed]. *)
Definition smooth_pad (alpha raw smoothed : float) : float :=
  add (mul alpha raw) (mul (sub (of_Z 1) alpha) smoothed).

(** driver_treadmill.cpp, [OnOmniData]: the yaw block, from
    [float yaw_diff = ringAngle - g_state.yaw_smoothed] to the second [if]
    on [g_state.yaw_smoothed]; the result is the new [yaw_smoothed]. *)
Definition smooth_yaw (alpha ringAngle yaw_smoothed : float) : float :=
  let yaw_diff := sub ringAngle yaw_smoothed in
  let yaw_diff :=
    if gt yaw_diff (of_Z 180) then sub yaw_diff (of_Z 360) else yaw_diff in
  let yaw_diff :=
    if lt yaw_diff (of_Z (-180)) then add yaw_diff (of_Z 360)
    else yaw_diff in
  let yaw_smoothed := add yaw_smoothed (mul alpha yaw_diff) in
  let yaw_smoothed :=
    if lt yaw_smoothed (of_Z 0) then add yaw_smoothed (of_Z 360)
    else yaw_smoothed in
  if ge yaw_smoothed (of_Z 360) then sub yaw_smoothed (of_Z 360)
  else yaw_smoothed.

End Binary32.

(** * Properties *)

(** ** Definitions used to state the properties *)

(** The sign of a real number: 1, -1, or 0 at 0. *)
Definition sgn (v : R) : R :=
  if Rlt_dec 0 v then 1 else if Rlt_dec v 0 then -1 else 0.

(** The deadzone curve as the specification writes it. *)
Definition deadzone_curve (v d : R) : R :=
  if Rlt_dec (Rabs v) d then 0 else sgn v * (Rabs v - d) / (1 - d).

(** [n] ingests with the same pad position, with whatever clock values and
    ring angles, in each integration. *)
Fixpoint wrapper_ingests (g_config : TreadmillWrapper.Config)
    (clock : nat -> Z) (ring : nat -> R) (gamePadX gamePadY : Z) (n : nat)
    (st : TreadmillWrapper.TreadmillState) : TreadmillWrapper.TreadmillState :=
  match n with
  | O => st
  | S k =>
      TreadmillWrapper.OnOmniData g_config (clock k) (ring k) gamePadX gamePadY
        (wrapper_ingests g_config clock ring gamePadX gamePadY k st)
  end.

Fixpoint driver_ingests (alpha : R)
    (clock : nat -> Z) (ring : nat -> R) (gamePadX gamePadY : Z) (n : nat)
    (st : Driver.XYState) : Driver.XYState :=
  match n with
  | O => st
  | S k =>
      Driver.OnOmniData alpha (clock k) (ring k) gamePadX gamePadY
        (driver_ingests alpha clock ring gamePadX gamePadY k st)
  end.

(** The processed pad sample of the wrapper: normalised, deadzoned, scaled
    and clamped, before smoothing. *)
Definition wrapper_processed (g_config : TreadmillWrapper.Config) (v : R) : R :=
  clamp (TreadmillWrapper.ApplyDeadzone v (TreadmillWrapper.deadzone g_config)
         * TreadmillWrapper.speedMultiplier g_config) (-1) 1.

(** [w] is [v] wrapped into [(-180, 180]] (resp. [[0, 360)]): in the
    interval, and a whole number of turns away from [v]. *)
Definition is_wrap180 (v w : R) : Prop :=
  -180 < w <= 180 /\ exists k : Z, w = v + 360 * IZR k.

Definition is_wrap360 (v w : R) : Prop :=
  0 <= w < 360 /\ exists k : Z, w = v + 360 * IZR k.

(** A configuration with another input mode, the rest unchanged. *)
Definition wrapper_with_mode (g_config : TreadmillWrapper.Config)
    (mode : TreadmillWrapper.InputMode) : TreadmillWrapper.Config :=
  TreadmillWrapper.mkConfig
    (TreadmillWrapper.enabled g_config)
    (TreadmillWrapper.speedMultiplier g_config)
    (TreadmillWrapper.deadzone g_config)
    (TreadmillWrapper.smoothing g_config)
    (TreadmillWrapper.targetControllerIndex g_config)
    mode
    (TreadmillWrapper.actionPatterns g_config).

Definition layer_with_mode (g_config : TreadmillLayer.Config)
    (mode : TreadmillLayer.InputMode) : TreadmillLayer.Config :=
  TreadmillLayer.mkConfig
    (TreadmillLayer.enabled g_config)
    (TreadmillLayer.speedMultiplier g_config)
    (TreadmillLayer.deadzone g_config)
    (TreadmillLayer.smoothing g_config)
    mode
    (TreadmillLayer.actionPatterns g_config)
    (TreadmillLayer.targetPaths g_config).

(** The joystick axis of a legacy controller state. *)
Definition joystick (c : TreadmillWrapper.VRControllerState_t)
    : TreadmillWrapper.Axis :=
  TreadmillWrapper.axis_at c TreadmillWrapper.k_EControllerAxis_Joystick.

(** Concrete inputs used in examples: a connected bridge, a treadmill state
    with pad value [(tx, ty)], and a controller state whose joystick axis is
    [(jx, jy)]. *)
Definition connected_bridge : TreadmillWrapper.OmniBridge :=
  TreadmillWrapper.mkOmniBridge 1 1 true.

Definition treadmill_at (tx ty : R) : TreadmillWrapper.TreadmillState :=
  TreadmillWrapper.mkTreadmillState tx ty 0 true 0 1.

Definition controller_at (jx jy : R) : TreadmillWrapper.VRControllerState_t :=
  TreadmillWrapper.mkControllerState 0 0 0
    [TreadmillWrapper.mkAxis jx jy; TreadmillWrapper.mkAxis 0 0;
     TreadmillWrapper.mkAxis 0 0; TreadmillWrapper.mkAxis 0 0;
     TreadmillWrapper.mkAxis 0 0].

Definition analog_at (vx vy : R) : TreadmillWrapper.InputAnalogActionData_t :=
  TreadmillWrapper.mkAnalog false 0 vx vy 0 0 0 0 0.

(** The pattern grammar, in the words of the specification.  A pattern
    [leads] when it begins with a star and [trails] when it ends with one;
    its [core] is what is left without those stars. *)
Definition leads (p : cstring) : Prop := exists rest, p = "*"%char :: rest.

Definition trails (p : cstring) : Prop := exists init, p = init ++ ["*"%char].

Definition strip_leading (p : cstring) : cstring :=
  match p with
  | c :: rest => if is_star c then rest else p
  | [] => []
  end.

Definition strip_trailing (p : cstring) : cstring :=
  match p with
  | [] => []
  | _ :: _ => if is_star (last p "000"%char) then removelast p else p
  end.

Definition core (p : cstring) : cstring := strip_trailing (strip_leading p).

Definition is_substring (c t : cstring) : Prop :=
  exists pre post, t = pre ++ c ++ post.

Definition ends_with (t c : cstring) : Prop := exists pre, t = pre ++ c.

Definition begins_with (t c : cstring) : Prop := exists post, t = c ++ post.

(** A name matches a pattern, both case-folded: substring, suffix, prefix or
    exact match according to the stars of the pattern. *)
Definition matches_spec (text pattern : cstring) : Prop :=
  let ft := to_lower text in
  let fp := to_lower pattern in
  (leads fp /\ trails fp /\ is_substring (core fp) ft) \/
  (leads fp /\ ~ trails fp /\ ends_with ft (core fp)) \/
  (~ leads fp /\ trails fp /\ begins_with ft (core fp)) \/
  (~ leads fp /\ ~ trails fp /\ ft = fp).

(** Plane vectors, for the direction validator. *)
Definition norm2 (v : R * R) : R := sqrt (fst v * fst v + snd v * snd v).

Definition normalize2 (v : R * R) : R * R :=
  (fst v / norm2 v, snd v / norm2 v).

Definition rotate2 (v : R * R) (theta : R) : R * R :=
  (fst v * cos theta - snd v * sin theta,
   fst v * sin theta + snd v * cos theta).

Definition dot2 (u v : R * R) : R := fst u * fst v + snd u * snd v.

(** The angle, in degrees, between the realised displacement and the
    joystick vector rotated by the yaw (given in degrees). *)
Definition angleDeviation (actualDelta joystick : R * R) (yawDeg : R) : R :=
  acos (clamp (dot2 (normalize2 actualDelta)
                    (normalize2 (rotate2 joystick (yawDeg * PI / 180))))
              (-1) 1)
  * 180 / PI.

Definition is_mismatch (v : Driver.Verdict) : bool :=
  match v with
  | Driver.DirectionMismatch _ _ _ _ _ _ _ _ => true
  | Driver.DirectionOK _ _ _ _ _ => false
  end.

Definition verdict_angle (v : Driver.Verdict) : R :=
  match v with
  | Driver.DirectionMismatch a _ _ _ _ _ _ _ => a
  | Driver.DirectionOK a _ _ _ _ => a
  end.

(** A headset pose at position [(px, py, pz)]. *)
Definition hmd_at (px py pz : R) : Driver.TrackedDevicePose_t :=
  Driver.mkHmdPose true
    (fun i j =>
       match i, j with
       | 0%nat, 3%nat => px
       | 1%nat, 3%nat => py
       | 2%nat, 3%nat => pz
       | _, _ => 0
       end).

(** Is the operation an ingest? *)
Definition is_ingest (op : TreadmillWrapper.Op) : bool :=
  match op with
  | TreadmillWrapper.OpOnOmniData _ _ _ _ => true
  | _ => false
  end.

(** Driver states used in examples: a previous headset sample at the
    origin, the log counter at 0, yaw 0 and the given smoothed joystick. *)
Definition tracked_state (jx jy : R) : Driver.XYState :=
  Driver.mkXYState 0 0 0 jx jy 0 0 0 0 0 true.

(** The injection policy of [Override], in the words of the specification:
    the treadmill value and a set flag when the treadmill is active, the
    host's value and flag otherwise. *)
Definition policy_Override (current : R * R) (currentActive : bool)
    (treadmillValue : R * R) (isActive : bool) : (R * R) * bool :=
  if isActive then (treadmillValue, true) else (current, currentActive).

(** The value and the flag of an analog action, as the policy sees them. *)
Definition analog_value (d : TreadmillWrapper.InputAnalogActionData_t)
    : (R * R) * bool :=
  ((TreadmillWrapper.a_x d, TreadmillWrapper.a_y d), TreadmillWrapper.bActive d).


(** ** Definitions used to state further properties *)

(** One sample as the hardware reader delivers it, with the clock value the
    handler reads: time stamp, ring angle, pad x, pad y. *)
Record Sample : Type := mkSample {
  s_clock : Z;
  s_ring : R;
  s_padX : Z;
  s_padY : Z
}.

(** The handlers applied to a sequence of samples, oldest first. *)
Definition wrapper_feed (g_config : TreadmillWrapper.Config)
    (samples : list Sample) (st : TreadmillWrapper.TreadmillState)
    : TreadmillWrapper.TreadmillState :=
  fold_left
    (fun s smp =>
       TreadmillWrapper.OnOmniData g_config (s_clock smp) (s_ring smp)
                                   (s_padX smp) (s_padY smp) s)
    samples st.

Definition layer_feed (g_config : TreadmillLayer.Config)
    (samples : list Sample) (st : TreadmillLayer.TreadmillState)
    : TreadmillLayer.TreadmillState :=
  fold_left
    (fun s smp =>
       TreadmillLayer.OnOmniData g_config (s_clock smp) (s_ring smp)
                                 (s_padX smp) (s_padY smp) s)
    samples st.

Definition driver_feed (alpha : R) (samples : list Sample)
    (st : Driver.XYState) : Driver.XYState :=
  fold_left
    (fun s smp =>
       Driver.OnOmniData alpha (s_clock smp) (s_ring smp)
                         (s_padX smp) (s_padY smp) s)
    samples st.

(** The smoothed pad values of a state lie in [[-1, 1]]. *)
Definition wrapper_bounded (st : TreadmillWrapper.TreadmillState) : Prop :=
  -1 <= TreadmillWrapper.x st <= 1 /\ -1 <= TreadmillWrapper.y st <= 1.

Definition layer_bounded (st : TreadmillLayer.TreadmillState) : Prop :=
  -1 <= TreadmillLayer.x st <= 1 /\ -1 <= TreadmillLayer.y st <= 1.

(** The driver's state is in range: raw and smoothed pad values in
    [[-1, 1]], smoothed yaw in [[0, 360)]. *)
Definition driver_in_range (st : Driver.XYState) : Prop :=
  -1 <= Driver.x st <= 1 /\ -1 <= Driver.y st <= 1 /\
  -1 <= Driver.x_smoothed st <= 1 /\ -1 <= Driver.y_smoothed st <= 1 /\
  0 <= Driver.yaw_smoothed st < 360.

(** Every character of [s] is in [set]. *)
Definition all_in (set s : cstring) : Prop :=
  Forall (fun c => char_in c set = true) s.

(** A string that is empty or neither begins nor ends with one of the
    characters [trim] removes. *)
Definition trimmed (s : cstring) : Prop :=
  match s with
  | [] => True
  | c :: _ =>
      char_in c Driver.trim_set = false /\
      char_in (last s " "%char) Driver.trim_set = false
  end.

(** The two factors are in the ranges their setters enforce. *)
Definition settings_ok (g : Driver.Settings) : Prop :=
  0 < Driver.g_speedFactor g /\ 0 <= Driver.g_smoothingFactor g <= 1.

(** Every character of [s] is white space for [std::isspace]. *)
Definition all_space (s : cstring) : Prop :=
  Forall (fun c => isspace c = true) s.

(** A word as [stream >> word] reads it: not empty, no white space. *)
Definition is_word (w : cstring) : Prop :=
  w <> [] /\ Forall (fun c => isspace c = false) w.

(** What happens to the driver between two frames: the constructor of the
    device reads the settings, a debug request arrives, or the reader
    delivers a sample. *)
Inductive DriverEvent : Type :=
| EvLoad (haveSettings speedOk : bool) (vSpeed : R)
         (smoothingOk : bool) (vSmoothing : R)
| EvRequest (pchRequest : option cstring) (hasBuffer : bool)
| EvSample (smp : Sample).

Definition driver_step (stof : cstring -> option R)
    (s : Driver.Settings * Driver.XYState) (ev : DriverEvent)
    : Driver.Settings * Driver.XYState :=
  let (g, st) := s in
  match ev with
  | EvLoad hs sok vs mok vm => (Driver.load_factors hs sok vs mok vm g, st)
  | EvRequest req hb => (fst (Driver.DebugRequest stof req hb g), st)
  | EvSample smp =>
      (g, Driver.OnOmniData (Driver.g_smoothingFactor g) (s_clock smp)
                            (s_ring smp) (s_padX smp) (s_padY smp) st)
  end.

Definition driver_run (stof : cstring -> option R)
    (events : list DriverEvent) : Driver.Settings * Driver.XYState :=
  fold_left (driver_step stof) events
            (Driver.Settings_init, Driver.g_state_init).

(** The pad values of the driver's state, raw and smoothed, lie in
    [[-1, 1]]. *)
Definition driver_pads_bounded (st : Driver.XYState) : Prop :=
  -1 <= Driver.x st <= 1 /\ -1 <= Driver.y st <= 1 /\
  -1 <= Driver.x_smoothed st <= 1 /\ -1 <= Driver.y_smoothed st <= 1.

(** The three spellings, in lower case, that switch the debug flag on. *)
Definition means_on (s : cstring) : bool :=
  orb (cstring_eqb s (str "true"))
      (orb (cstring_eqb s (str "1")) (cstring_eqb s (str "on"))).

(** What a response of [DebugRequest] says about the settings before and
    after the request. *)
Definition response_holds (g g' : Driver.Settings) (r : Driver.Response)
    : Prop :=
  match r with
  | Driver.DebugIs b =>
      Driver.g_debug g' = b /\
      Driver.g_speedFactor g' = Driver.g_speedFactor g /\
      Driver.g_smoothingFactor g' = Driver.g_smoothingFactor g
  | Driver.SpeedIs v =>
      0 < v /\ g' = Driver.mkSettings (Driver.g_debug g) v
                                      (Driver.g_smoothingFactor g)
  | Driver.SmoothingIs v =>
      0 <= v <= 1 /\
      g' = Driver.mkSettings (Driver.g_debug g) (Driver.g_speedFactor g) v
  | Driver.NoRequest | Driver.InvalidSpeed | Driver.InvalidSmoothing
  | Driver.UnknownCommand => g' = g
  end.

(** A pair of stick values in [[-1, 1]]. *)
Definition in_unit_square (vx vy : R) : Prop :=
  -1 <= vx <= 1 /\ -1 <= vy <= 1.

(** The name under which a handle was last registered with success by
    [GetActionHandle] in a sequence of operations, if any. *)
Definition note_registration (h : Z) (acc : option cstring)
    (op : TreadmillWrapper.Op) : option cstring :=
  match op with
  | TreadmillWrapper.OpGetActionHandle result (Some name) (Some h') =>
      if andb (result =? TreadmillWrapper.VRInputError_None)%Z (h' =? h)%Z
      then Some name else acc
  | _ => acc
  end.

Definition registered_name (ops : list TreadmillWrapper.Op) (h : Z)
    : option cstring :=
  fold_left (note_registration h) ops None.

(** A key or value as [Config::Load] leaves it after trimming: empty, or
    beginning with a character the lambda [trim] does not strip at the front
    and ending with one it does not strip at the back. *)
Definition load_clean (s : cstring) : Prop :=
  match s with
  | [] => True
  | c :: _ =>
      char_in c TreadmillWrapper.load_front = false /\
      char_in (last s " "%char) TreadmillWrapper.load_back = false
  end.

(** The character [c] does not occur in [s]. *)
Definition free_of (c : ascii) (s : cstring) : Prop :=
  Forall (fun a => a <> c) s.

(** A configuration line: key and value with what the parser strips
    around them. *)
Definition config_line (pre key mid1 mid2 value post : cstring) : cstring :=
  pre ++ key ++ mid1 ++ str ":" ++ mid2 ++ value ++ post.

(** A line that carries no key: no colon before the comment, if any. *)
Definition keyless_line (l : cstring) : Prop :=
  exists body comment,
    free_of ":" body /\ (l = body \/ l = body ++ str "//" ++ comment).

(** The two path separators [GetModuleDirectory] looks for. *)
Definition is_separator (c : N) : bool := wchar_in c (wstr "\/").

(** The largest finite [float], and the real numbers that a finite
    [float] can hold by magnitude: no infinity, no NaN. *)
Definition FLT_MAX : R := (2 - / 2 ^ 23) * 2 ^ 127.

Definition finite32 (v : R) : Prop := Rabs v <= FLT_MAX.

(** Pad values as the hardware sends them: one byte. *)
Definition is_byte (p : Z) : Prop := (0 <= p <= 255)%Z.

(** The legacy controller state with the treadmill value written to the
    joystick axis, in the words of the specification: axis 0 carries the
    treadmill value, everything else is the host's. *)
Definition joystick_written (c : TreadmillWrapper.VRControllerState_t)
    (tx ty : R) : TreadmillWrapper.VRControllerState_t :=
  TreadmillWrapper.mkControllerState
    (TreadmillWrapper.unPacketNum c)
    (TreadmillWrapper.ulButtonPressed c)
    (TreadmillWrapper.ulButtonTouched c)
    match TreadmillWrapper.rAxis c with
    | [] => []
    | _ :: rest => TreadmillWrapper.mkAxis tx ty :: rest
    end.

(** Does a legacy read pass the target filter?  No target is configured,
    or the device index, read as an [int], is the target. *)
Definition passes_filter (g_config : TreadmillWrapper.Config) (index : Z)
    : bool :=
  orb (TreadmillWrapper.targetControllerIndex g_config <? 0)%Z
      (cast_u32_to_int index
       =? TreadmillWrapper.targetControllerIndex g_config)%Z.

(** The speed factor an event reads from the settings store is a finite
    number. *)
Definition finite_event (ev : DriverEvent) : Prop :=
  match ev with
  | EvLoad _ _ vSpeed _ _ => finite32 vSpeed
  | _ => True
  end.

(** ** Deadzone *)

Section Deadzone.

Variable d : R.
Hypothesis d_range : 0 <= d < 1.

Lemma ApplyDeadzone_curve (v : R) :
  TreadmillWrapper.ApplyDeadzone v d = deadzone_curve v d.
Proof using d_range.
  unfold TreadmillWrapper.ApplyDeadzone, deadzone_curve, sgn.
  destruct (Rlt_dec (Rabs v) d) as [Hlt | Hge]; [reflexivity |].
  destruct (Rgt_dec v 0) as [Hpos | Hnpos].
  - destruct (Rlt_dec 0 v); [reflexivity | lra].
  - destruct (Rlt_dec 0 v) as [H0 | _]; [lra |].
    destruct (Rlt_dec v 0) as [_ | Hz]; [reflexivity |].
    assert (v = 0) by lra. subst v.
    rewrite Rabs_R0 in *. assert (d = 0) by lra. subst d.
    unfold Rdiv. rewrite Rminus_0_r. ring.
Qed.

Lemma deadzone_curve_boundary (v : R) :
  Rabs v = d -> deadzone_curve v d = 0 /\ sgn v * (Rabs v - d) / (1 - d) = 0.
Proof using d_range.
  intros Hb. unfold deadzone_curve.
  assert (E : sgn v * (Rabs v - d) / (1 - d) = 0).
  { rewrite Hb. unfold Rdiv. ring. }
  destruct (Rlt_dec (Rabs v) d); auto.
Qed.

Lemma deadzone_curve_full (v : R) :
  Rabs v = 1 -> Rabs (deadzone_curve v d) = 1.
Proof using d_range.
  intros H1. unfold deadzone_curve.
  destruct (Rlt_dec (Rabs v) d) as [Hlt | _]; [lra |].
  rewrite H1. unfold sgn.
  destruct (Rlt_dec 0 v) as [Hp | Hnp].
  - replace (1 * (1 - d) / (1 - d)) with 1 by (field; lra).
    apply Rabs_R1.
  - destruct (Rlt_dec v 0) as [Hn | Hnn].
    + replace (-1 * (1 - d) / (1 - d)) with (-1) by (field; lra).
      unfold Rabs. destruct (Rcase_abs (-1)); lra.
    + assert (v = 0) by lra. subst v. rewrite Rabs_R0 in H1. lra.
Qed.

(** The curve has slope at most [1 / (1 - d)] everywhere, so it has no
    jump, at the edge of the deadzone or elsewhere. *)
Lemma deadzone_curve_lipschitz (v w : R) :
  Rabs (deadzone_curve v d - deadzone_curve w d) <= Rabs (v - w) / (1 - d).
Proof using d_range.
  assert (Hden : 0 < 1 - d) by lra.
  assert (Hscale : forall n, Rabs (n / (1 - d)) = Rabs n / (1 - d)).
  { intros n. unfold Rdiv. rewrite Rabs_mult.
    rewrite (Rabs_pos_eq (/ (1 - d))); [reflexivity |].
    left. now apply Rinv_0_lt_compat. }
  assert (Hmono : forall a b, a <= b -> a / (1 - d) <= b / (1 - d)).
  { intros a b Hab. unfold Rdiv. apply Rmult_le_compat_r; [| exact Hab].
    left. now apply Rinv_0_lt_compat. }
  unfold deadzone_curve, sgn.
  destruct (Rlt_dec (Rabs v) d) as [Hv | Hv];
    destruct (Rlt_dec (Rabs w) d) as [Hw | Hw];
    repeat match goal with
           | |- context [Rlt_dec ?a ?b] => destruct (Rlt_dec a b)
           end;
    match goal with
    | |- Rabs (?a * ?n / ?k - ?b * ?p / ?k) <= _ =>
        replace (a * n / k - b * p / k) with ((a * n - b * p) / k)
          by (unfold Rdiv; ring)
    | |- Rabs (0 - ?b * ?p / ?k) <= _ =>
        replace (0 - b * p / k) with ((- (b * p)) / k) by (unfold Rdiv; ring)
    | |- Rabs (?a * ?n / ?k - 0) <= _ =>
        replace (a * n / k - 0) with ((a * n) / k) by (unfold Rdiv; ring)
    | |- Rabs (0 - 0) <= _ =>
        replace (0 - 0) with (0 / (1 - d)) by (unfold Rdiv; ring)
    end;
    rewrite Hscale; apply Hmono;
    revert Hv Hw; unfold Rabs;
    repeat match goal with
           | |- context [Rcase_abs ?a] => destruct (Rcase_abs a)
           end; intros; lra.
Qed.

End Deadzone.

Lemma Layer_ApplyDeadzone_same (v d : R) :
  TreadmillLayer.ApplyDeadzone v d = TreadmillWrapper.ApplyDeadzone v d.
Proof. reflexivity. Qed.

Lemma deadzone_curve_continuous (d : R) :
  0 <= d < 1 -> continuity (fun v => deadzone_curve v d).
Proof.
  intros Hd v. unfold continuity_pt, continue_in, limit1_in, limit_in.
  intros eps Heps. simpl. unfold Rdist.
  exists (eps * (1 - d)). split.
  - apply Rmult_gt_0_compat; lra.
  - intros u [_ Hu].
    eapply Rle_lt_trans; [apply deadzone_curve_lipschitz; exact Hd |].
    apply Rmult_lt_reg_r with (r := 1 - d); [lra |].
    unfold Rdiv. rewrite Rmult_assoc, Rinv_l by lra. lra.
Qed.

(** C4.  For a deadzone [d] in [[0,1)], [ApplyDeadzone] (both copies) is 0
    when [|v| < d] and [sign(v) * (|v| - d) / (1 - d)] otherwise; on the
    boundary [|v| = d] both cases give 0 and the function is continuous
    there (as everywhere); and [|v| = 1] gives an output of magnitude 1. *)
Theorem ApplyDeadzone_spec (v d : R) (Hd : 0 <= d < 1) :
  TreadmillLayer.ApplyDeadzone v d = TreadmillWrapper.ApplyDeadzone v d /\
  (Rabs v < d -> TreadmillWrapper.ApplyDeadzone v d = 0) /\
  (~ Rabs v < d ->
   TreadmillWrapper.ApplyDeadzone v d = sgn v * (Rabs v - d) / (1 - d)) /\
  (Rabs v = d ->
   TreadmillWrapper.ApplyDeadzone v d = 0 /\
   sgn v * (Rabs v - d) / (1 - d) = 0) /\
  continuity_pt (fun u => TreadmillWrapper.ApplyDeadzone u d) v /\
  (Rabs v = 1 -> Rabs (TreadmillWrapper.ApplyDeadzone v d) = 1).
Proof.
  split; [reflexivity |].
  rewrite (ApplyDeadzone_curve d Hd v).
  repeat split.
  - intros Hlt. unfold deadzone_curve.
    destruct (Rlt_dec (Rabs v) d); [reflexivity | contradiction].
  - intros Hge. unfold deadzone_curve.
    destruct (Rlt_dec (Rabs v) d); [contradiction | reflexivity].
  - apply (deadzone_curve_boundary d Hd v); assumption.
  - apply (deadzone_curve_boundary d Hd v); assumption.
  - unfold continuity_pt, continue_in, limit1_in, limit_in.
    intros eps Heps.
    destruct (deadzone_curve_continuous d Hd v eps Heps) as [alp [Halp Hlim]].
    exists alp. split; [exact Halp |].
    intros u Hu. rewrite !(ApplyDeadzone_curve d Hd). apply Hlim; exact Hu.
  - apply deadzone_curve_full; exact Hd.
Qed.

Lemma ApplyDeadzone_spec_witness :
  0 <= 1 / 10 < 1 /\ TreadmillWrapper.ApplyDeadzone (1 / 2) (1 / 10) = 4 / 9.
Proof.
  assert (H : 0 <= 1 / 10 < 1) by lra.
  assert (A : Rabs (1 / 2) = 1 / 2).
  { unfold Rabs. destruct (Rcase_abs (1 / 2)); lra. }
  split; [exact H |].
  destruct (ApplyDeadzone_spec (1 / 2) (1 / 10) H) as (_ & _ & Hout & _).
  rewrite Hout by (rewrite A; lra).
  rewrite A. unfold sgn. destruct (Rlt_dec 0 (1 / 2)); lra.
Defined.

(** ** Linear smoothing converges *)

Section Geometric.

Variable alpha r : R.
Hypothesis alpha_range : 0 < alpha < 1.

(** A sequence whose distance to [r] shrinks by [1 - alpha] at every
    step. *)
Variable u : nat -> R.
Hypothesis u_step : forall n, u (S n) - r = (1 - alpha) * (u n - r).

Lemma geometric_error (n : nat) :
  Rabs (u n - r) = (1 - alpha) ^ n * Rabs (u 0%nat - r).
Proof using alpha_range u_step.
  induction n as [| n IH]; simpl.
  - ring.
  - rewrite u_step, Rabs_mult, IH.
    rewrite (Rabs_pos_eq (1 - alpha)) by lra. ring.
Qed.

Lemma geometric_limit : Un_cv u r.
Proof using alpha_range u_step.
  intros eps Heps.
  destruct (Req_dec (u 0%nat) r) as [E0 | N0].
  - exists 0%nat. intros n _. unfold Rdist.
    rewrite geometric_error, E0.
    replace (r - r) with 0 by ring. rewrite Rabs_R0, Rmult_0_r. lra.
  - assert (Hpos : 0 < Rabs (u 0%nat - r)).
    { apply Rabs_pos_lt. lra. }
    assert (Hsmall : Rabs (1 - alpha) < 1).
    { rewrite Rabs_pos_eq; lra. }
    destruct (pow_lt_1_zero (1 - alpha) Hsmall
                (eps / Rabs (u 0%nat - r))) as [N HN].
    { apply Rdiv_lt_0_compat; lra. }
    exists N. intros n Hn. unfold Rdist.
    rewrite geometric_error.
    specialize (HN n Hn).
    rewrite Rabs_pos_eq in HN by (apply pow_le; lra).
    apply Rmult_lt_compat_r with (r := Rabs (u 0%nat - r)) in HN; [| exact Hpos].
    unfold Rdiv in HN. rewrite Rmult_assoc, Rinv_l in HN by lra. lra.
Qed.

End Geometric.

Lemma ApplySmoothing_error (s r alpha : R) :
  TreadmillWrapper.ApplySmoothing s r alpha - r = (1 - alpha) * (s - r).
Proof. unfold TreadmillWrapper.ApplySmoothing. ring. Qed.

Lemma wrapper_ingests_x_step g_config clock ring gamePadX gamePadY n st :
  TreadmillWrapper.x
    (wrapper_ingests g_config clock ring gamePadX gamePadY (S n) st)
  = TreadmillWrapper.ApplySmoothing
      (TreadmillWrapper.x
         (wrapper_ingests g_config clock ring gamePadX gamePadY n st))
      (wrapper_processed g_config ((IZR gamePadX - 127) / 127))
      (TreadmillWrapper.smoothing g_config).
Proof. reflexivity. Qed.

Lemma wrapper_ingests_y_step g_config clock ring gamePadX gamePadY n st :
  TreadmillWrapper.y
    (wrapper_ingests g_config clock ring gamePadX gamePadY (S n) st)
  = TreadmillWrapper.ApplySmoothing
      (TreadmillWrapper.y
         (wrapper_ingests g_config clock ring gamePadX gamePadY n st))
      (wrapper_processed g_config ((- (IZR gamePadY - 127)) / 127))
      (TreadmillWrapper.smoothing g_config).
Proof. reflexivity. Qed.

Lemma driver_ingests_x_step alpha clock ring gamePadX gamePadY n st :
  Driver.x_smoothed (driver_ingests alpha clock ring gamePadX gamePadY (S n) st)
  - clamp ((IZR gamePadX - 127) / 127) (-1) 1
  = (1 - alpha)
    * (Driver.x_smoothed (driver_ingests alpha clock ring gamePadX gamePadY n st)
       - clamp ((IZR gamePadX - 127) / 127) (-1) 1).
Proof. simpl. ring. Qed.

Lemma driver_ingests_y_step alpha clock ring gamePadX gamePadY n st :
  Driver.y_smoothed (driver_ingests alpha clock ring gamePadX gamePadY (S n) st)
  - clamp ((- (IZR gamePadY - 127)) / 127) (-1) 1
  = (1 - alpha)
    * (Driver.y_smoothed (driver_ingests alpha clock ring gamePadX gamePadY n st)
       - clamp ((- (IZR gamePadY - 127)) / 127) (-1) 1).
Proof. simpl. ring. Qed.

(** C9 (amended).  In exact arithmetic, that is with the [float]s of the
    code read as real numbers: for [0 < alpha < 1], one smoothing step
    towards a constant sample [r] multiplies the error by [1 - alpha], so
    the error strictly decreases while it is not zero, the smoothed value
    stays on its side of [r], and under repeated ingestion of one pad
    position the smoothed x and y of the wrapper and of the driver converge
    to the processed sample.  The binary32 code follows this up to rounding
    only ([smoothing_stalls_in_binary32]). *)
Theorem smoothing_converges (alpha : R) (Halpha : 0 < alpha < 1) :
  (forall s r,
     Rabs (TreadmillWrapper.ApplySmoothing s r alpha - r)
     = (1 - alpha) * Rabs (s - r)) /\
  (forall s r, s <> r ->
     Rabs (TreadmillWrapper.ApplySmoothing s r alpha - r) < Rabs (s - r)) /\
  (forall s r,
     (s <= r -> s <= TreadmillWrapper.ApplySmoothing s r alpha <= r) /\
     (r <= s -> r <= TreadmillWrapper.ApplySmoothing s r alpha <= s)) /\
  (forall s r, TreadmillLayer.ApplySmoothing s r alpha
               = TreadmillWrapper.ApplySmoothing s r alpha) /\
  (forall g_config clock ring gamePadX gamePadY st,
     TreadmillWrapper.smoothing g_config = alpha ->
     let sx := fun n => TreadmillWrapper.x
                 (wrapper_ingests g_config clock ring gamePadX gamePadY n st) in
     let sy := fun n => TreadmillWrapper.y
                 (wrapper_ingests g_config clock ring gamePadX gamePadY n st) in
     let rx := wrapper_processed g_config ((IZR gamePadX - 127) / 127) in
     let ry := wrapper_processed g_config ((- (IZR gamePadY - 127)) / 127) in
     (forall n, Rabs (sx n - rx) = (1 - alpha) ^ n * Rabs (sx 0%nat - rx)) /\
     (forall n, Rabs (sy n - ry) = (1 - alpha) ^ n * Rabs (sy 0%nat - ry)) /\
     Un_cv sx rx /\ Un_cv sy ry) /\
  (forall clock ring gamePadX gamePadY st,
     let sx := fun n => Driver.x_smoothed
                 (driver_ingests alpha clock ring gamePadX gamePadY n st) in
     let sy := fun n => Driver.y_smoothed
                 (driver_ingests alpha clock ring gamePadX gamePadY n st) in
     let rx := clamp ((IZR gamePadX - 127) / 127) (-1) 1 in
     let ry := clamp ((- (IZR gamePadY - 127)) / 127) (-1) 1 in
     (forall n, Rabs (sx n - rx) = (1 - alpha) ^ n * Rabs (sx 0%nat - rx)) /\
     (forall n, Rabs (sy n - ry) = (1 - alpha) ^ n * Rabs (sy 0%nat - ry)) /\
     Un_cv sx rx /\ Un_cv sy ry).
Proof.
  assert (Hstep : forall s r,
             Rabs (TreadmillWrapper.ApplySmoothing s r alpha - r)
             = (1 - alpha) * Rabs (s - r)).
  { intros s r. rewrite ApplySmoothing_error, Rabs_mult.
    rewrite (Rabs_pos_eq (1 - alpha)) by lra. reflexivity. }
  split; [exact Hstep |].
  split.
  { intros s r Hne. rewrite Hstep.
    assert (0 < Rabs (s - r)) by (apply Rabs_pos_lt; lra). nra. }
  split.
  { intros s r. unfold TreadmillWrapper.ApplySmoothing. split; intros; nra. }
  split; [reflexivity |].
  split.
  - intros g_config clock ring gamePadX gamePadY st Hcfg sx sy rx ry.
    assert (Hx : forall n, sx (S n) - rx = (1 - alpha) * (sx n - rx)).
    { intros n. unfold sx, rx. rewrite wrapper_ingests_x_step, Hcfg.
      apply ApplySmoothing_error. }
    assert (Hy : forall n, sy (S n) - ry = (1 - alpha) * (sy n - ry)).
    { intros n. unfold sy, ry. rewrite wrapper_ingests_y_step, Hcfg.
      apply ApplySmoothing_error. }
    repeat split.
    + intros n. apply (geometric_error alpha rx Halpha sx Hx).
    + intros n. apply (geometric_error alpha ry Halpha sy Hy).
    + apply (geometric_limit alpha rx Halpha sx Hx).
    + apply (geometric_limit alpha ry Halpha sy Hy).
  - intros clock ring gamePadX gamePadY st sx sy rx ry.
    assert (Hx : forall n, sx (S n) - rx = (1 - alpha) * (sx n - rx)).
    { intros n. apply driver_ingests_x_step. }
    assert (Hy : forall n, sy (S n) - ry = (1 - alpha) * (sy n - ry)).
    { intros n. apply driver_ingests_y_step. }
    repeat split.
    + intros n. apply (geometric_error alpha rx Halpha sx Hx).
    + intros n. apply (geometric_error alpha ry Halpha sy Hy).
    + apply (geometric_limit alpha rx Halpha sx Hx).
    + apply (geometric_limit alpha ry Halpha sy Hy).
Qed.

Lemma smoothing_converges_witness :
  0 < 3 / 10 < 1 /\
  Rabs (TreadmillWrapper.ApplySmoothing 0 1 (3 / 10) - 1) < Rabs (0 - 1).
Proof.
  assert (H : 0 < 3 / 10 < 1) by lra.
  split; [exact H |].
  apply (proj1 (proj2 (smoothing_converges (3 / 10) H))). lra.
Defined.

(** C9 as stated fails of the code, which computes in binary32.  With the
    default smoothing [0.3f] and the target 1, the wrapper's
    [ApplySmoothing] maps [0x1.fffffep-1], the [float] just below 1, to
    itself: the error is not zero and does not decrease, and repeated
    ingestion stays there instead of converging to 1.  In the driver, with
    the pad at 180, a smoothed value equal to the sample is moved off it. *)
Section SmoothingBinary32.

Import SpecFloat.

Lemma smoothing_stalls_in_binary32 :
  let alpha := Binary32.lit 3 10 in
  let r := Binary32.of_Z 1 in
  let s := S754_finite false 16777215 (-24) in
  let raw := Binary32.lit (180 - 127) 127 in
  Binary32.lt (Binary32.of_Z 0) alpha = true /\
  Binary32.lt alpha (Binary32.of_Z 1) = true /\
  SFeqb s r = false /\
  Binary32.ApplySmoothing s r alpha = s /\
  Nat.iter 46 (fun c => Binary32.ApplySmoothing c r alpha) (Binary32.of_Z 0)
  = s /\
  SFeqb (Binary32.smooth_pad alpha raw raw) raw = false.
Proof. vm_compute. repeat split. Qed.

End SmoothingBinary32.

(** ** Yaw: circular smoothing in the driver, raw storage in the shims *)

Lemma normalize_diff_cases (ring ys : R) :
  0 <= ring < 360 -> 0 <= ys < 360 ->
  let d := Driver.normalize_diff (ring - ys) in
  -180 <= d <= 180 /\
  (d = ring - ys \/
   (d = ring - ys - 360 /\ 180 < ring - ys) \/
   (d = ring - ys + 360 /\ ring - ys < -180)).
Proof.
  intros Hr Hy. unfold Driver.normalize_diff.
  destruct (Rgt_dec (ring - ys) 180) as [Hgt | Hle].
  - destruct (Rlt_dec (ring - ys - 360) (-180)); split; lra.
  - destruct (Rlt_dec (ring - ys) (-180)); split; lra.
Qed.

Lemma normalize_yaw_cases (v : R) :
  -360 <= v < 720 ->
  let w := Driver.normalize_yaw v in
  0 <= w < 360 /\ (w = v \/ w = v + 360 \/ w = v - 360).
Proof.
  intros Hv. unfold Driver.normalize_yaw.
  destruct (Rlt_dec v 0) as [Hneg | Hpos].
  - destruct (Rge_dec (v + 360) 360); split; lra.
  - destruct (Rge_dec v 360); split; lra.
Qed.

Lemma turns_of_cases (v w : R) :
  w = v \/ w = v + 360 \/ w = v - 360 -> exists k : Z, w = v + 360 * IZR k.
Proof.
  intros [E | [E | E]].
  - exists 0%Z. simpl. lra.
  - exists 1%Z. simpl. lra.
  - exists (-1)%Z. simpl. lra.
Qed.

Lemma smoothed_sum_range (alpha ys d : R) :
  0 <= alpha <= 1 -> 0 <= ys < 360 -> -180 <= d <= 180 ->
  -360 <= ys + alpha * d < 720.
Proof. intros Ha Hy Hd. split; nra. Qed.

(** The lower end of the difference is kept: the two [if]s of the driver
    leave -180 where a wrap into [(-180, 180]] gives 180, and the smoothed
    yaw then turns the other way. *)
Lemma normalize_diff_lower_end :
  Driver.normalize_diff (0 - 180) = -180 /\
  ~ is_wrap180 (0 - 180) (Driver.normalize_diff (0 - 180)) /\
  Driver.yaw_smoothed
    (Driver.OnOmniData (1 / 2) 0 0 127 127
       (Driver.mkXYState 0 0 180 0 0 180 0 0 0 0 false)) = 90.
Proof.
  assert (E : Driver.normalize_diff (0 - 180) = -180).
  { unfold Driver.normalize_diff.
    destruct (Rgt_dec (0 - 180) 180); [lra |].
    destruct (Rlt_dec (0 - 180) (-180)); lra. }
  split; [exact E |]. split.
  - rewrite E. intros [[Hlo _] _]. lra.
  - simpl. rewrite E. unfold Driver.normalize_yaw.
    destruct (Rlt_dec (180 + 1 / 2 * -180) 0); [lra |].
    destruct (Rge_dec (180 + 1 / 2 * -180) 360); lra.
Qed.

(** C1 (amended).  In the driver, with the ring angle and the stored yaw in
    [[0, 360)] and [0 <= alpha <= 1], the handler wraps the difference by
    whole turns into [[-180, 180]] (into [(-180, 180]] unless it is exactly
    -180) and stores [yaw_smoothed + alpha * diff] wrapped into [[0, 360)].
    The handlers of the OpenVR wrapper and of the OpenXR layer have no
    smoothed yaw: they store the ring angle. *)
Theorem OnOmniData_yaw (alpha : R) (timestamp : Z) (ringAngle : R)
    (gamePadX gamePadY : Z) (g_state : Driver.XYState)
    (Halpha : 0 <= alpha <= 1)
    (Hring : 0 <= ringAngle < 360)
    (Hyaw : 0 <= Driver.yaw_smoothed g_state < 360) :
  let ys := Driver.yaw_smoothed g_state in
  let diff := Driver.normalize_diff (ringAngle - ys) in
  let ys' := Driver.yaw_smoothed
               (Driver.OnOmniData alpha timestamp ringAngle gamePadX gamePadY
                                  g_state) in
  -180 <= diff <= 180 /\
  (exists k : Z, diff = ringAngle - ys + 360 * IZR k) /\
  (ringAngle - ys <> -180 -> is_wrap180 (ringAngle - ys) diff) /\
  ys' = Driver.normalize_yaw (ys + alpha * diff) /\
  is_wrap360 (ys + alpha * diff) ys' /\
  (forall g_config st,
     TreadmillWrapper.yaw
       (TreadmillWrapper.OnOmniData g_config timestamp ringAngle
                                    gamePadX gamePadY st) = ringAngle) /\
  (forall g_config st,
     TreadmillLayer.yaw
       (TreadmillLayer.OnOmniData g_config timestamp ringAngle
                                  gamePadX gamePadY st) = ringAngle).
Proof.
  intros ys diff ys'.
  change (0 <= ys < 360) in Hyaw.
  destruct (normalize_diff_cases ringAngle ys Hring Hyaw) as [Hd Hdc].
  fold diff in Hd, Hdc.
  assert (Hsum := smoothed_sum_range alpha ys diff Halpha Hyaw Hd).
  destruct (normalize_yaw_cases (ys + alpha * diff) Hsum) as [Hw Hwc].
  assert (Ey : ys' = Driver.normalize_yaw (ys + alpha * diff)) by reflexivity.
  rewrite <- Ey in Hw, Hwc.
  split; [exact Hd |].
  assert (Hturns : exists k : Z, diff = ringAngle - ys + 360 * IZR k).
  { apply turns_of_cases.
    destruct Hdc as [E | [[E ?] | [E ?]]]; [left | right; right | right; left];
      exact E. }
  split; [exact Hturns |].
  split.
  { intros Hne. split; [| exact Hturns].
    split; [| lra].
    destruct Hd as [[Hlt | Heq] _]; [exact Hlt |].
    exfalso. destruct Hdc as [E | [[E ?] | [E ?]]]; [apply Hne |..]; lra. }
  split; [exact Ey |].
  split; [split; [exact Hw | apply turns_of_cases; exact Hwc] |].
  split; reflexivity.
Qed.

Lemma OnOmniData_yaw_witness :
  0 <= 3 / 10 <= 1 /\ 0 <= 90 < 360 /\
  0 <= Driver.yaw_smoothed Driver.g_state_init < 360 /\
  Driver.yaw_smoothed
    (Driver.OnOmniData (3 / 10) 0 90 127 127 Driver.g_state_init) = 27.
Proof.
  assert (Ha : 0 <= 3 / 10 <= 1) by lra.
  assert (Hr : 0 <= 90 < 360) by lra.
  assert (Hy : 0 <= Driver.yaw_smoothed Driver.g_state_init < 360)
    by (simpl; lra).
  repeat split; try (simpl; lra).
  destruct (OnOmniData_yaw (3 / 10) 0 90 127 127 Driver.g_state_init Ha Hr Hy)
    as (_ & _ & _ & Eq & _).
  rewrite Eq. simpl. unfold Driver.normalize_diff, Driver.normalize_yaw.
  repeat match goal with
         | |- context [Rgt_dec ?a ?b] => destruct (Rgt_dec a b); try lra
         | |- context [Rlt_dec ?a ?b] => destruct (Rlt_dec a b); try lra
         | |- context [Rge_dec ?a ?b] => destruct (Rge_dec a b); try lra
         end.
Defined.

(** C1 as stated fails on the wrapper's handler: with the default smoothing
    0.3, a stored yaw of 0 and a ring angle of 90, circular smoothing gives
    [0 + 0.3 * 90 = 27], and the handler stores the ring angle 90. *)
Lemma OnOmniData_wrapper_stores_ring_angle :
  let st := TreadmillWrapper.g_treadmillState_init in
  let st' := TreadmillWrapper.OnOmniData TreadmillWrapper.default_Config
                                         0 90 127 127 st in
  0 < TreadmillWrapper.smoothing TreadmillWrapper.default_Config < 1 /\
  90 <> TreadmillWrapper.yaw st /\
  is_wrap180 (90 - TreadmillWrapper.yaw st) 90 /\
  is_wrap360 (TreadmillWrapper.yaw st
              + TreadmillWrapper.smoothing TreadmillWrapper.default_Config * 90)
             27 /\
  TreadmillWrapper.yaw st' = 90 /\
  TreadmillWrapper.yaw st' <> 27.
Proof.
  simpl. repeat split; try lra.
  - exists 0%Z. simpl. lra.
  - exists 0%Z. simpl. lra.
Qed.

(** The stored yaw can coincide with the ring angle although it is
    smoothed: in binary32, with [alpha = 0.7f] and the ring held at 90, the
    fifteenth ingest from yaw 0 turns the stored 89.99999237 into 90. *)
Section YawBinary32.

Import SpecFloat.

Lemma smooth_yaw_reaches_ring_in_binary32 :
  let alpha := Binary32.lit 7 10 in
  let ring := Binary32.of_Z 90 in
  let ys := S754_finite false 11796479 (-17) in
  Binary32.lt (Binary32.of_Z 0) alpha = true /\
  Binary32.lt alpha (Binary32.of_Z 1) = true /\
  SFeqb ys ring = false /\
  Nat.iter 14 (Binary32.smooth_yaw alpha ring) (Binary32.of_Z 0) = ys /\
  Binary32.smooth_yaw alpha ring ys = ring.
Proof. vm_compute. repeat split. Qed.

End YawBinary32.

(** ** Injection policy *)

(** Decide the comparisons of a goal over concrete reals. *)
Ltac Rdecide :=
  repeat match goal with
         | |- context [Rcase_abs ?a] => destruct (Rcase_abs a); try lra
         | |- context [Rgt_dec ?a ?b] => destruct (Rgt_dec a b); try lra
         | |- context [Rlt_dec ?a ?b] => destruct (Rlt_dec a b); try lra
         | |- context [Rge_dec ?a ?b] => destruct (Rge_dec a b); try lra
         end.

Import TreadmillWrapper.

Lemma analog_switch_Smart (tx ty : R) (act : bool) (d : InputAnalogActionData_t) :
  analog_switch Smart tx ty act d
  = if act then mkAnalog true (activeOrigin d) tx ty (a_z d)
                         (deltaX d) (deltaY d) (deltaZ d) (fUpdateTime d)
    else d.
Proof. destruct act; reflexivity. Qed.

Lemma legacy_switch_Smart (tx ty : R) (c : VRControllerState_t) :
  legacy_switch Smart tx ty c = legacy_switch Override tx ty c.
Proof. reflexivity. Qed.

Lemma vector2f_switch_Smart (tx ty : R) (act : bool)
    (s : TreadmillLayer.XrActionStateVector2f) :
  TreadmillLayer.vector2f_switch TreadmillLayer.Smart tx ty act s
  = if act
    then TreadmillLayer.mkVector2f
           (TreadmillLayer.v_type s) (TreadmillLayer.v_next s) tx ty
           (TreadmillLayer.v_changedSinceLastSync s)
           (TreadmillLayer.v_lastChangeTime s) 1%Z
    else s.
Proof. destruct act; reflexivity. Qed.

Lemma vector2f_switch_Override (tx ty : R) (act : bool)
    (s : TreadmillLayer.XrActionStateVector2f) :
  TreadmillLayer.vector2f_switch TreadmillLayer.Override tx ty act s
  = TreadmillLayer.vector2f_switch TreadmillLayer.Smart tx ty act s.
Proof. destruct act; reflexivity. Qed.

(** C3.  [Smart] and [Override] give the same result on every input, in the
    analog-action wrapper, in the two legacy controller-state wrappers and in
    the OpenXR vector and scalar interceptors; that result carries the
    treadmill value and a set active flag when the treadmill is active, and
    is the host's own value and flag otherwise.  On the legacy path, which
    has no active flag, both modes write the treadmill value to the joystick
    axis when the read succeeded, the treadmill is connected and active and
    the controller passes the target filter, and return the host's state
    otherwise; on the scalar path both write the treadmill value and set the
    flag when the value exceeds 0.05 in magnitude. *)
Theorem Smart_is_Override :
  (forall g_config bridge st actions action result data restrict,
     Wrapped_GetAnalogActionData (wrapper_with_mode g_config Smart)
       bridge st actions action result data restrict
     = Wrapped_GetAnalogActionData (wrapper_with_mode g_config Override)
         bridge st actions action result data restrict) /\
  (forall tx ty act d,
     analog_switch Smart tx ty act d = analog_switch Override tx ty act d /\
     analog_switch Smart tx ty act d
     = if act then mkAnalog true (activeOrigin d) tx ty (a_z d)
                            (deltaX d) (deltaY d) (deltaZ d) (fUpdateTime d)
       else d) /\
  (forall mode tx ty act d,
     mode = Smart \/ mode = Override ->
     analog_value (analog_switch mode tx ty act d)
     = policy_Override (a_x d, a_y d) (bActive d) (tx, ty) act) /\
  (forall g_config bridge st index result state,
     Wrapped_GetControllerState (wrapper_with_mode g_config Smart)
       bridge st index result state
     = Wrapped_GetControllerState (wrapper_with_mode g_config Override)
         bridge st index result state) /\
  (forall g_config bridge st eOrigin index result state,
     Wrapped_GetControllerStateWithPose (wrapper_with_mode g_config Smart)
       bridge st eOrigin index result state
     = Wrapped_GetControllerStateWithPose (wrapper_with_mode g_config Override)
         bridge st eOrigin index result state) /\
  (forall g_config bridge st actions haveReal getInfo result state,
     TreadmillLayer.TreadmillLayer_xrGetActionStateVector2f
       (layer_with_mode g_config TreadmillLayer.Smart)
       bridge st actions haveReal getInfo result state
     = TreadmillLayer.TreadmillLayer_xrGetActionStateVector2f
         (layer_with_mode g_config TreadmillLayer.Override)
         bridge st actions haveReal getInfo result state) /\
  (forall tx ty act s,
     TreadmillLayer.vector2f_switch TreadmillLayer.Smart tx ty act s
     = if act
       then TreadmillLayer.mkVector2f
              (TreadmillLayer.v_type s) (TreadmillLayer.v_next s) tx ty
              (TreadmillLayer.v_changedSinceLastSync s)
              (TreadmillLayer.v_lastChangeTime s) 1%Z
       else s) /\
  (forall tv cur flag,
     TreadmillLayer.float_switch TreadmillLayer.Smart tv cur flag
     = TreadmillLayer.float_switch TreadmillLayer.Override tv cur flag) /\
  (forall mode tx ty c,
     mode = Smart \/ mode = Override ->
     legacy_switch mode tx ty c = joystick_written c tx ty) /\
  (forall mode g_config bridge st index result c,
     mode = Smart \/ mode = Override ->
     let injected :=
       if andb (andb result (IsConnected bridge))
               (andb (passes_filter g_config index)
                     (treadmillActive2 (x st) (y st)))
       then joystick_written c (x st) (y st) else c in
     Wrapped_GetControllerState (wrapper_with_mode g_config mode)
       bridge st index result (Some c) = (result, Some injected) /\
     forall eOrigin,
       Wrapped_GetControllerStateWithPose (wrapper_with_mode g_config mode)
         bridge st eOrigin index result (Some c) = (result, Some injected)) /\
  (forall mode tv cur flag,
     mode = TreadmillLayer.Smart \/ mode = TreadmillLayer.Override ->
     TreadmillLayer.float_switch mode tv cur flag
     = if Rgtb (Rabs tv) (5 / 100) then (tv, 1%Z) else (cur, flag)) /\
  (forall g_config bridge st tracking haveReal getInfo result state,
     TreadmillLayer.TreadmillLayer_xrGetActionStateFloat
       (layer_with_mode g_config TreadmillLayer.Smart)
       bridge st tracking haveReal getInfo result state
     = TreadmillLayer.TreadmillLayer_xrGetActionStateFloat
         (layer_with_mode g_config TreadmillLayer.Override)
         bridge st tracking haveReal getInfo result state).
Proof.
  split; [reflexivity |].
  split; [intros; split; [reflexivity | apply analog_switch_Smart] |].
  split.
  { intros mode tx ty act d [-> | ->]; destruct act; reflexivity. }
  split; [reflexivity |].
  split; [reflexivity |].
  split.
  { intros g_config bridge st actions haveReal getInfo result state.
    unfold TreadmillLayer.TreadmillLayer_xrGetActionStateVector2f.
    destruct haveReal, getInfo as [action |], state as [s |]; try reflexivity.
    destruct (TreadmillLayer.XR_SUCCEEDED result && TreadmillLayer.IsConnected bridge)%bool;
      [| reflexivity].
    destruct (TreadmillLayer.map_find actions action) as [[|] |];
      try reflexivity.
    do 2 f_equal. symmetry. exact (vector2f_switch_Override _ _ _ s). }
  split; [apply vector2f_switch_Smart |].
  split; [reflexivity |].
  assert (Hleg : forall mode tx ty c,
             mode = Smart \/ mode = Override ->
             legacy_switch mode tx ty c = joystick_written c tx ty).
  { intros mode tx ty [pn bp bt axes] [-> | ->];
      destruct axes as [| a rest]; reflexivity. }
  split; [exact Hleg |].
  split.
  { intros mode g_config bridge st index result c Hmode injected.
    assert (E : Wrapped_GetControllerState (wrapper_with_mode g_config mode)
                  bridge st index result (Some c) = (result, Some injected)).
    { unfold Wrapped_GetControllerState, injected, passes_filter.
      cbn [targetControllerIndex inputMode wrapper_with_mode].
      destruct (andb result (IsConnected bridge)); [| reflexivity].
      rewrite Z.leb_antisym.
      destruct (targetControllerIndex g_config <? 0)%Z;
        destruct (cast_u32_to_int index =? targetControllerIndex g_config)%Z;
        cbn [andb orb negb]; try reflexivity;
        (destruct (treadmillActive2 (x st) (y st));
         [rewrite (Hleg mode _ _ c Hmode) |]; reflexivity). }
    split; [exact E |]. intros eOrigin. exact E. }
  split.
  { intros mode tv cur flag [-> | ->]; unfold TreadmillLayer.float_switch;
      destruct (Rgtb (Rabs tv) (5 / 100)); reflexivity. }
  reflexivity.
Qed.

Lemma analog_switch_Additive (tx ty : R) (act : bool) (d : InputAnalogActionData_t) :
  analog_switch Additive tx ty act d
  = mkAnalog (bActive d || act) (activeOrigin d)
             (clamp (a_x d + tx) (-1) 1) (clamp (a_y d + ty) (-1) 1) (a_z d)
             (deltaX d) (deltaY d) (deltaZ d) (fUpdateTime d).
Proof.
  destruct d as [b o vx vy vz dx dy dz t].
  destruct act, b; reflexivity.
Qed.

Lemma vector2f_switch_Additive (tx ty : R) (act : bool)
    (s : TreadmillLayer.XrActionStateVector2f) :
  TreadmillLayer.vector2f_switch TreadmillLayer.Additive tx ty act s
  = TreadmillLayer.mkVector2f
      (TreadmillLayer.v_type s) (TreadmillLayer.v_next s)
      (clamp (TreadmillLayer.v_x s + tx) (-1) 1)
      (clamp (TreadmillLayer.v_y s + ty) (-1) 1)
      (TreadmillLayer.v_changedSinceLastSync s)
      (TreadmillLayer.v_lastChangeTime s)
      (if act then 1%Z else TreadmillLayer.v_isActive s).
Proof. destruct act; reflexivity. Qed.

Lemma joystick_legacy_switch_Additive (tx ty : R) (c : VRControllerState_t) :
  rAxis c <> [] ->
  joystick (legacy_switch Additive tx ty c)
  = mkAxis (clamp (ax_x (joystick c) + tx) (-1) 1)
           (clamp (ax_y (joystick c) + ty) (-1) 1).
Proof.
  destruct c as [p bp bt axes]. simpl.
  destruct axes as [| a rest]; [congruence |]. reflexivity.
Qed.

(** C2 (amended).  Under [Additive], a read of a movement action through the
    analog-action wrapper (real call succeeded, bridge connected) returns
    [clamp(current + treadmill, -1, 1)] on each axis whether or not the
    treadmill is active, with [bActive] = current OR treadmill-active and all
    other fields kept; the OpenXR vector interceptor does the same.  The
    legacy controller-state wrapper adds only when the treadmill is active
    and otherwise returns the host's state unchanged. *)
Theorem Additive_policy (g_config : Config) (bridge : OmniBridge)
    (st : TreadmillState) (actions : ActionMap) (action : Z)
    (d : InputAnalogActionData_t) (restrict : Z)
    (Hmode : inputMode g_config = Additive)
    (Hmove : map_find actions action = Some true)
    (Hconn : IsConnected bridge = true) :
  Wrapped_GetAnalogActionData g_config bridge st actions action
                              VRInputError_None (Some d) restrict
  = (VRInputError_None,
     Some (mkAnalog (bActive d || treadmillActive2 (x st) (y st))
                    (activeOrigin d)
                    (clamp (a_x d + x st) (-1) 1)
                    (clamp (a_y d + y st) (-1) 1)
                    (a_z d) (deltaX d) (deltaY d) (deltaZ d) (fUpdateTime d))) /\
  (forall eOrigin index c,
     (targetControllerIndex g_config < 0)%Z -> rAxis c <> [] ->
     exists c',
       Wrapped_GetControllerState g_config bridge st index true (Some c)
       = (true, Some c') /\
       Wrapped_GetControllerStateWithPose g_config bridge st eOrigin index
                                          true (Some c)
       = (true, Some c') /\
       if treadmillActive2 (x st) (y st)
       then joystick c' = mkAxis (clamp (ax_x (joystick c) + x st) (-1) 1)
                                 (clamp (ax_y (joystick c) + y st) (-1) 1)
       else c' = c) /\
  (forall lconfig lbridge lst lactions result s,
     TreadmillLayer.inputMode lconfig = TreadmillLayer.Additive ->
     TreadmillLayer.map_find lactions action = Some true ->
     TreadmillLayer.IsConnected lbridge = true ->
     (0 <= result)%Z ->
     TreadmillLayer.TreadmillLayer_xrGetActionStateVector2f
       lconfig lbridge lst lactions true (Some action) result (Some s)
     = (result,
        Some (TreadmillLayer.mkVector2f
                (TreadmillLayer.v_type s) (TreadmillLayer.v_next s)
                (clamp (TreadmillLayer.v_x s + TreadmillLayer.x lst) (-1) 1)
                (clamp (TreadmillLayer.v_y s + TreadmillLayer.y lst) (-1) 1)
                (TreadmillLayer.v_changedSinceLastSync s)
                (TreadmillLayer.v_lastChangeTime s)
                (if TreadmillLayer.treadmillActive2 (TreadmillLayer.x lst)
                                                    (TreadmillLayer.y lst)
                 then 1%Z else TreadmillLayer.v_isActive s)))).
Proof.
  split; [| split].
  - rewrite <- analog_switch_Additive.
    unfold Wrapped_GetAnalogActionData.
    rewrite Hmove, Hconn, Hmode. reflexivity.
  - intros eOrigin index c Htarget Haxes.
    unfold Wrapped_GetControllerState, Wrapped_GetControllerStateWithPose.
    rewrite Hconn, Hmode.
    replace (0 <=? targetControllerIndex g_config)%Z with false
      by (symmetry; apply Z.leb_gt; exact Htarget).
    cbn [andb].
    destruct (treadmillActive2 (x st) (y st)).
    + eexists. split; [reflexivity |]. split; [reflexivity |].
      apply joystick_legacy_switch_Additive; exact Haxes.
    + eexists. split; [reflexivity |]. split; reflexivity.
  - intros lconfig lbridge lst lactions result s Hm Hmv Hc Hres.
    unfold TreadmillLayer.TreadmillLayer_xrGetActionStateVector2f.
    rewrite Hmv, Hc, Hm.
    replace (TreadmillLayer.XR_SUCCEEDED result) with true
      by (symmetry; apply Z.leb_le; exact Hres).
    rewrite <- vector2f_switch_Additive. reflexivity.
Qed.

Lemma treadmillActive2_small :
  treadmillActive2 (3 / 100) 0 = false.
Proof. unfold treadmillActive2, Rgtb, Rabs. Rdecide; reflexivity. Qed.

Lemma treadmillActive2_half :
  treadmillActive2 (1 / 2) 0 = true.
Proof. unfold treadmillActive2, Rgtb, Rabs. Rdecide; reflexivity. Qed.

Lemma Additive_policy_witness :
  let g_config := wrapper_with_mode default_Config Additive in
  let st := treadmill_at (3 / 100) 0 in
  inputMode g_config = Additive /\
  map_find [(7%Z, true)] 7 = Some true /\
  IsConnected connected_bridge = true /\
  treadmillActive2 (x st) (y st) = false /\
  Wrapped_GetAnalogActionData g_config connected_bridge st [(7%Z, true)] 7
                              VRInputError_None (Some (analog_at (1 / 2) 0)) 0
  = (VRInputError_None, Some (analog_at (53 / 100) 0)).
Proof.
  intros g_config st.
  assert (Hm : inputMode g_config = Additive) by reflexivity.
  assert (Hf : map_find [(7%Z, true)] 7 = Some true) by reflexivity.
  assert (Hc : IsConnected connected_bridge = true) by reflexivity.
  repeat split; try reflexivity.
  - exact treadmillActive2_small.
  - destruct (Additive_policy g_config connected_bridge st [(7%Z, true)] 7
                (analog_at (1 / 2) 0) 0 Hm Hf Hc) as [E _].
    rewrite E. unfold st. simpl x. simpl y. rewrite treadmillActive2_small.
    unfold analog_at. simpl.
    replace (clamp (1 / 2 + 3 / 100) (-1) 1) with (53 / 100)
      by (unfold clamp; Rdecide).
    replace (clamp (0 + 0) (-1) 1) with 0 by (unfold clamp; Rdecide).
    reflexivity.
Defined.

(** C2 as stated fails on the legacy controller-state wrapper: under
    [Additive] with the treadmill at 0.03 (below the 0.05 threshold) and the
    host joystick at 0.5, the wrapper returns the state unchanged, 0.5 and
    not [clamp(0.5 + 0.03, -1, 1) = 0.53]. *)
Lemma Additive_legacy_skips_inactive :
  let g_config := wrapper_with_mode default_Config Additive in
  let st := treadmill_at (3 / 100) 0 in
  let c := controller_at (1 / 2) 0 in
  inputMode g_config = Additive /\
  treadmillActive2 (x st) (y st) = false /\
  Wrapped_GetControllerState g_config connected_bridge st 1 true (Some c)
  = (true, Some c) /\
  clamp (ax_x (joystick c) + x st) (-1) 1 = 53 / 100 /\
  ax_x (joystick c) <> clamp (ax_x (joystick c) + x st) (-1) 1.
Proof.
  cbv zeta.
  assert (E : clamp (1 / 2 + 3 / 100) (-1) 1 = 53 / 100)
    by (unfold clamp; Rdecide).
  repeat split.
  - exact treadmillActive2_small.
  - unfold Wrapped_GetControllerState. simpl.
    rewrite treadmillActive2_small. reflexivity.
  - simpl. exact E.
  - simpl. rewrite E. lra.
Qed.

(** ** Target filter *)

Lemma cast_u32_to_int_differs (index target : Z) :
  (0 <= index < 2 ^ 32)%Z -> (0 <= target)%Z -> index <> target ->
  (cast_u32_to_int index =? target)%Z = false.
Proof.
  intros Hi Ht Hne. apply Z.eqb_neq. unfold cast_u32_to_int.
  rewrite Z.mod_small by exact Hi.
  destruct (index <? 2 ^ 31)%Z eqn:E; [exact Hne |].
  apply Z.ltb_ge in E. lia.
Qed.

(** C6 (amended).  With a target controller configured
    ([targetControllerIndex >= 0]), the two legacy controller-state wrappers
    return what the real call produced, unchanged, for every device index
    other than the configured one and in every input mode; for the matching
    index (real call succeeded, bridge connected) they apply the policy
    switch exactly when the treadmill is active.  (The analog-action wrapper
    does not consult the target.) *)
Theorem target_filter_legacy (g_config : Config) (bridge : OmniBridge)
    (st : TreadmillState) (eOrigin index : Z) (result : bool)
    (state : option VRControllerState_t)
    (Htarget : (0 <= targetControllerIndex g_config)%Z)
    (Hindex : (0 <= index < 2 ^ 32)%Z)
    (Hother : index <> targetControllerIndex g_config) :
  Wrapped_GetControllerState g_config bridge st index result state
  = (result, state) /\
  Wrapped_GetControllerStateWithPose g_config bridge st eOrigin index result state
  = (result, state) /\
  (forall c,
     (targetControllerIndex g_config < 2 ^ 31)%Z ->
     IsConnected bridge = true ->
     Wrapped_GetControllerState g_config bridge st
       (targetControllerIndex g_config) true (Some c)
     = (true,
        Some (if treadmillActive2 (x st) (y st)
              then legacy_switch (inputMode g_config) (x st) (y st) c
              else c)) /\
     Wrapped_GetControllerStateWithPose g_config bridge st eOrigin
       (targetControllerIndex g_config) true (Some c)
     = (true,
        Some (if treadmillActive2 (x st) (y st)
              then legacy_switch (inputMode g_config) (x st) (y st) c
              else c))).
Proof.
  assert (Hge : (0 <=? targetControllerIndex g_config)%Z = true)
    by (apply Z.leb_le; exact Htarget).
  assert (Hcast := cast_u32_to_int_differs index _ Hindex Htarget Hother).
  split; [| split].
  - unfold Wrapped_GetControllerState.
    destruct state as [c |]; [| reflexivity].
    destruct (result && IsConnected bridge)%bool; [| reflexivity].
    rewrite Hge, Hcast. reflexivity.
  - unfold Wrapped_GetControllerStateWithPose.
    destruct state as [c |]; [| reflexivity].
    destruct (result && IsConnected bridge)%bool; [| reflexivity].
    rewrite Hge, Hcast. reflexivity.
  - intros c Hsmall Hconn.
    assert (Hself : (cast_u32_to_int (targetControllerIndex g_config)
                     =? targetControllerIndex g_config)%Z = true).
    { apply Z.eqb_eq. unfold cast_u32_to_int.
      rewrite Z.mod_small by lia.
      destruct (targetControllerIndex g_config <? 2 ^ 31)%Z eqn:E;
        [reflexivity | apply Z.ltb_ge in E; lia]. }
    unfold Wrapped_GetControllerState, Wrapped_GetControllerStateWithPose.
    rewrite Hconn, Hge, Hself. cbn [andb negb].
    destruct (treadmillActive2 (x st) (y st)); split; reflexivity.
Qed.

Lemma target_filter_legacy_witness :
  let g_config := mkConfig true (15 / 10) (1 / 10) (3 / 10) 1 Override
                           default_actionPatterns in
  let st := treadmill_at (1 / 2) 0 in
  let c := controller_at 0 0 in
  (0 <= targetControllerIndex g_config)%Z /\
  (0 <= 2 < 2 ^ 32)%Z /\
  2%Z <> targetControllerIndex g_config /\
  Wrapped_GetControllerState g_config connected_bridge st 2 true (Some c)
  = (true, Some c).
Proof.
  intros g_config st c.
  assert (Ht : (0 <= targetControllerIndex g_config)%Z) by (simpl; lia).
  assert (Hi : (0 <= 2 < 2 ^ 32)%Z) by lia.
  assert (Hn : 2%Z <> targetControllerIndex g_config) by (simpl; lia).
  split; [exact Ht |]. split; [exact Hi |]. split; [exact Hn |].
  exact (proj1 (target_filter_legacy g_config connected_bridge st 0 2 true
                  (Some c) Ht Hi Hn)).
Defined.

(** C6 as stated fails on the analog-action wrapper: with target controller
    1 configured and a read restricted to another device (handle 2), the
    treadmill value 0.5 replaces the host's 0 and the active flag is set. *)
Lemma target_filter_not_in_analog_path :
  let g_config := mkConfig true (15 / 10) (1 / 10) (3 / 10) 1 Override
                           default_actionPatterns in
  let st := treadmill_at (1 / 2) 0 in
  let d := analog_at 0 0 in
  (0 <= targetControllerIndex g_config)%Z /\
  2%Z <> targetControllerIndex g_config /\
  Wrapped_GetAnalogActionData g_config connected_bridge st [(7%Z, true)] 7
                              VRInputError_None (Some d) 2
  = (VRInputError_None, Some (mkAnalog true 0 (1 / 2) 0 0 0 0 0 0)) /\
  mkAnalog true 0 (1 / 2) 0 0 0 0 0 0 <> d.
Proof.
  cbv zeta. repeat split; try (simpl; lia).
  - unfold Wrapped_GetAnalogActionData. simpl.
    rewrite treadmillActive2_half. reflexivity.
  - unfold analog_at. intros E. inversion E.
Qed.

(** ** Action classifier *)

Section Strings.

Implicit Types s t n p : cstring.

Lemma cstring_eqb_eq s t : cstring_eqb s t = true <-> s = t.
Proof.
  unfold cstring_eqb. destruct (list_eq_dec ascii_dec s t); split;
    congruence.
Qed.

Lemma is_star_true c : is_star c = true <-> c = "*"%char.
Proof. unfold is_star. destruct (ascii_dec c "*"); split; congruence. Qed.

Lemma starts_with_spec n s :
  starts_with n s = true <-> begins_with s n.
Proof.
  unfold begins_with. revert s.
  induction n as [| a n IH]; intros s; simpl.
  - split; [intros _; exists s; reflexivity | reflexivity].
  - destruct s as [| b s].
    + split; [discriminate | intros [post E]; discriminate].
    + destruct (ascii_dec a b) as [-> | Hne].
      * rewrite IH. split; intros [post E]; exists post.
        -- now rewrite E.
        -- now inversion E.
      * split; [discriminate |].
        intros [post E]. inversion E. congruence.
Qed.

Lemma find_spec s n :
  (exists i, find s n = Some i) <-> is_substring n s.
Proof.
  unfold is_substring. split.
  - induction s as [| a s IH]; simpl.
    + destruct (starts_with n []) eqn:E; [| intros [i Hi]; discriminate].
      intros _. apply starts_with_spec in E. destruct E as [post E].
      exists [], post. exact E.
    + destruct (starts_with n (a :: s)) eqn:E.
      * intros _. apply starts_with_spec in E. destruct E as [post E].
        exists [], post. exact E.
      * intros [i Hi]. destruct (find s n) as [j |] eqn:Ej;
          [| discriminate].
        destruct IH as (pre & post & E'); [now exists j |].
        exists (a :: pre), post. now rewrite E'.
  - intros (pre & post & E). revert s E.
    induction pre as [| a pre IH]; intros s E.
    + assert (H : starts_with n s = true).
      { apply starts_with_spec. exists post. exact E. }
      destruct s; simpl; rewrite H; now exists 0%nat.
    + subst s. simpl.
      destruct (starts_with n (a :: pre ++ n ++ post));
        [now exists 0%nat |].
      destruct (IH _ eq_refl) as [j Hj]. rewrite Hj. now exists (S j).
Qed.

Lemma prefix_check_spec s n :
  substr s 0 (List.length n) = n <-> begins_with s n.
Proof.
  unfold substr, begins_with. simpl. split.
  - intros E. exists (skipn (List.length n) s).
    rewrite <- E at 1. symmetry. apply firstn_skipn.
  - intros [post ->]. rewrite firstn_app, Nat.sub_diag, firstn_all.
    simpl. apply app_nil_r.
Qed.

Lemma suffix_check_spec s n :
  (List.length n <= List.length s)%nat /\
  substr_from s (List.length s - List.length n) = n
  <-> ends_with s n.
Proof.
  unfold substr_from, ends_with. split.
  - intros [_ E]. exists (firstn (List.length s - List.length n) s).
    rewrite <- E at 2. symmetry. apply firstn_skipn.
  - intros [pre ->]. rewrite length_app. split; [lia |].
    replace (List.length pre + List.length n - List.length n)%nat
      with (List.length pre) by lia.
    rewrite skipn_app, skipn_all, Nat.sub_diag. reflexivity.
Qed.

Lemma leads_spec c p : is_star c = true <-> leads (c :: p).
Proof.
  rewrite is_star_true. unfold leads. split.
  - intros ->. now exists p.
  - intros [rest E]. now inversion E.
Qed.

Lemma trails_spec p :
  p <> [] -> (is_star (back p) = true <-> trails p).
Proof.
  intros Hne. unfold back, trails.
  destruct (exists_last Hne) as (init & a & ->).
  rewrite last_last, is_star_true. split.
  - intros ->. now exists init.
  - intros [init' E]. apply app_inj_tail in E. now destruct E.
Qed.

(** The search string that [MatchesPattern] computes is the core of the
    folded pattern. *)
Lemma searchStr_is_core c p :
  let lowerPattern := c :: p in
  let startWild := is_star c in
  let endWild := is_star (back lowerPattern) in
  let searchStr :=
    if startWild then substr_from lowerPattern 1 else lowerPattern in
  (if andb endWild (negb (Nat.eqb (List.length searchStr) 0))
   then substr searchStr 0 (List.length searchStr - 1) else searchStr)
  = core lowerPattern.
Proof.
  cbv zeta. unfold core, strip_leading, substr_from, substr, back.
  simpl skipn.
  destruct (is_star c) eqn:Ec.
  - destruct p as [| b q]; [now rewrite andb_false_r |].
    unfold strip_trailing.
    replace (last (c :: b :: q) "000"%char) with (last (b :: q) "000"%char)
      by reflexivity.
    destruct (is_star (last (b :: q) "000"%char)); [| reflexivity].
    simpl andb. cbv iota.
    rewrite (removelast_firstn_len (b :: q)).
    f_equal. simpl. lia.
  - unfold strip_trailing.
    destruct (is_star (last (c :: p) "000"%char)); [| reflexivity].
    simpl andb. cbv iota.
    rewrite (removelast_firstn_len (c :: p)).
    f_equal. simpl. lia.
Qed.

End Strings.

Lemma MatchesPattern_empty (text : cstring) :
  TreadmillWrapper.MatchesPattern text [] = false.
Proof. reflexivity. Qed.

Lemma MatchesPattern_grammar (text pattern : cstring) :
  pattern <> [] ->
  (TreadmillWrapper.MatchesPattern text pattern = true
   <-> matches_spec text pattern).
Proof.
  intros Hne. unfold TreadmillWrapper.MatchesPattern, matches_spec.
  cbv zeta.
  destruct (to_lower pattern) as [| c q] eqn:Ep.
  { apply map_eq_nil in Ep. contradiction. }
  pose proof (searchStr_is_core c q) as Hcore. cbv zeta in Hcore.
  rewrite Hcore. clear Hcore.
  pose proof (leads_spec c q) as Hl.
  pose proof (trails_spec (c :: q) ltac:(discriminate)) as Ht.
  set (ft := to_lower text) in *.
  set (k := core (c :: q)) in *.
  destruct (is_star c) eqn:Ec; destruct (is_star (back (c :: q))) eqn:Ee;
    cbn [andb].
  - (* substring *)
    assert (L : leads (c :: q)) by now apply Hl.
    assert (T : trails (c :: q)) by now apply Ht.
    split.
    + intros H. left. repeat split; trivial. apply find_spec.
      destruct (find ft k) as [i |]; [now exists i | discriminate].
    + intros [(_ & _ & H) | [(_ & NT & _) | [(NL & _) | (NL & _)]]];
        try contradiction.
      apply find_spec in H. destruct H as [i ->]. reflexivity.
  - (* suffix *)
    assert (L : leads (c :: q)) by now apply Hl.
    assert (T : ~ trails (c :: q)).
    { intros T. apply Ht in T. discriminate. }
    rewrite andb_true_iff, Nat.leb_le, cstring_eqb_eq, suffix_check_spec.
    split.
    + intros H. right; left. repeat split; trivial.
    + intros [(_ & T' & _) | [(_ & _ & H) | [(NL & _) | (NL & _)]]];
        try contradiction. exact H.
  - (* prefix *)
    assert (L : ~ leads (c :: q)).
    { intros L. apply Hl in L. discriminate. }
    assert (T : trails (c :: q)) by now apply Ht.
    rewrite cstring_eqb_eq, prefix_check_spec.
    split.
    + intros H. right; right; left. repeat split; trivial.
    + intros [(L' & _) | [(L' & _) | [(_ & _ & H) | (_ & NT & _)]]];
        try contradiction. exact H.
  - (* exact *)
    assert (L : ~ leads (c :: q)).
    { intros L. apply Hl in L. discriminate. }
    assert (T : ~ trails (c :: q)).
    { intros T. apply Ht in T. discriminate. }
    assert (Ek : k = c :: q).
    { unfold k, core, strip_leading. rewrite Ec. unfold strip_trailing.
      unfold back in Ee. rewrite Ee. reflexivity. }
    rewrite Ek, cstring_eqb_eq.
    split.
    + intros H. right; right; right. repeat split; trivial.
    + intros [(L' & _) | [(L' & _) | [(_ & T' & _) | (_ & _ & H)]]];
        try contradiction. exact H.
Qed.

Lemma isMovementAction_exists (patterns : list cstring) (name : cstring) :
  TreadmillWrapper.isMovementAction patterns name = true
  <-> exists pattern,
        In pattern patterns /\
        TreadmillWrapper.MatchesPattern name pattern = true.
Proof.
  induction patterns as [| p ps IH]; simpl.
  - split; [discriminate | intros (p & [] & _)].
  - destruct (TreadmillWrapper.MatchesPattern name p) eqn:E.
    + split; [intros _; exists p; auto | reflexivity].
    + rewrite IH. split.
      * intros (p' & Hin & Hm). exists p'. auto.
      * intros (p' & [-> | Hin] & Hm); [congruence | exists p'; auto].
Qed.

Lemma tolower_idempotent (c : ascii) : tolower (tolower c) = tolower c.
Proof.
  destruct c as [[] [] [] [] [] [] [] []]; reflexivity.
Qed.

Lemma to_lower_idempotent (s : cstring) : to_lower (to_lower s) = to_lower s.
Proof.
  unfold to_lower. rewrite map_map. apply map_ext. apply tolower_idempotent.
Qed.

(** Matching looks at the folded name and the folded pattern only. *)
Lemma MatchesPattern_case_insensitive (t1 t2 p1 p2 : cstring) :
  to_lower t1 = to_lower t2 -> to_lower p1 = to_lower p2 ->
  TreadmillWrapper.MatchesPattern t1 p1 = TreadmillWrapper.MatchesPattern t2 p2.
Proof.
  intros Et Ep. unfold TreadmillWrapper.MatchesPattern.
  rewrite Et, Ep. reflexivity.
Qed.

(** C5 (amended).  For every name and every non-empty pattern,
    [MatchesPattern] is true exactly when the folded name matches the folded
    pattern under the grammar (both stars: the core is a substring; leading
    star only: the name ends with the core; trailing star only: the name
    begins with the core; no star: equality); the result depends on the
    folded strings only; the empty pattern matches no name; a name is a
    movement action exactly when some configured pattern matches it;
    "LeftHand/Locomotion/Move" matches "*move*" and "Jump" matches no
    default pattern. *)
Theorem classifier_spec (text pattern : cstring) (Hpattern : pattern <> []) :
  (TreadmillWrapper.MatchesPattern text pattern = true
   <-> matches_spec text pattern) /\
  TreadmillWrapper.MatchesPattern (to_lower text) (to_lower pattern)
  = TreadmillWrapper.MatchesPattern text pattern /\
  TreadmillWrapper.MatchesPattern text [] = false /\
  (forall patterns,
     TreadmillWrapper.isMovementAction patterns text = true
     <-> exists p, In p patterns /\
                   TreadmillWrapper.MatchesPattern text p = true) /\
  TreadmillWrapper.MatchesPattern (str "LeftHand/Locomotion/Move")
                                  (str "*move*") = true /\
  TreadmillWrapper.isMovementAction
    (TreadmillWrapper.actionPatterns TreadmillWrapper.default_Config)
    (str "Jump") = false.
Proof.
  split; [apply MatchesPattern_grammar; exact Hpattern |].
  split; [apply MatchesPattern_case_insensitive; apply to_lower_idempotent |].
  split; [reflexivity |].
  split; [intros patterns; apply isMovementAction_exists |].
  split; vm_compute; reflexivity.
Qed.

Lemma classifier_spec_witness :
  str "*move*" <> [] /\
  matches_spec (str "LeftHand/Locomotion/Move") (str "*move*").
Proof.
  assert (H : str "*move*" <> []) by (vm_compute; discriminate).
  split; [exact H |].
  apply (proj1 (classifier_spec (str "LeftHand/Locomotion/Move")
                                (str "*move*") H)).
  vm_compute. reflexivity.
Defined.

(** C5 as stated fails on the empty pattern: it has no star, the empty name
    equals it, and [MatchesPattern] answers false. *)
Lemma MatchesPattern_rejects_empty_pattern :
  matches_spec [] [] /\ TreadmillWrapper.MatchesPattern [] [] = false.
Proof.
  split; [| reflexivity].
  unfold matches_spec. simpl. right; right; right.
  repeat split.
  - intros [rest E]. discriminate.
  - intros [init E]. destruct init; discriminate.
Qed.

(** ** Pose quaternion *)

Lemma yaw_quat_components (rawYaw : R) :
  Driver.yaw_quat rawYaw
  = Driver.mkQuat (cos (rawYaw * PI / 180 / 2)) 0
                  (- sin (rawYaw * PI / 180 / 2)) 0.
Proof.
  unfold Driver.yaw_quat, Driver.DEG2RAD.
  replace (rawYaw * (PI / 180) * (5 / 10)) with (rawYaw * PI / 180 / 2)
    by field.
  reflexivity.
Qed.

Lemma qLength_yaw_quat (rawYaw : R) :
  Driver.qLength (Driver.yaw_quat rawYaw) = 1.
Proof.
  rewrite yaw_quat_components. unfold Driver.qLength. simpl.
  set (h := rawYaw * PI / 180 / 2).
  replace (cos h * cos h + 0 * 0 + - sin h * - sin h + 0 * 0)
    with (Rsqr (sin h) + Rsqr (cos h)) by (unfold Rsqr; ring).
  rewrite sin2_cos2. apply sqrt_1.
Qed.

Lemma normalize_quat_unit (q : Driver.Quat) :
  Driver.qLength q = 1 -> Driver.normalize_quat q = q.
Proof.
  intros H1. unfold Driver.normalize_quat. rewrite H1.
  destruct (Rgt_dec 1 (1 / 10000)) as [_ | Hn]; [| lra].
  destruct q as [w x y z]. simpl. f_equal; field.
Qed.

(** X1.  In exact arithmetic, for every stored smoothed yaw (in degrees;
    [theta] is the yaw in radians), the rotation of the pose returned by
    [TreadmillDevice::GetPose] and by [TreadmillVisualTracker::GetPose] is
    [(w = cos(theta/2), x = 0, y = -sin(theta/2), z = 0)]; it has length 1,
    the guard of the renormalisation passes, and renormalising it changes
    nothing. *)
Theorem pose_quaternion (g_state : Driver.XYState)
    (hmdPose : Driver.TrackedDevicePose_t) :
  let theta := Driver.yaw_smoothed g_state * PI / 180 in
  let q := Driver.mkQuat (cos (theta / 2)) 0 (- sin (theta / 2)) 0 in
  Driver.qRotation (Driver.TreadmillDevice_GetPose g_state) = q /\
  Driver.qRotation
    (fst (fst (Driver.TreadmillVisualTracker_GetPose g_state hmdPose))) = q /\
  Driver.qLength q = 1 /\
  Driver.qLength q > 1 / 10000 /\
  Driver.normalize_quat q = q.
Proof.
  intros theta q.
  assert (Eq : Driver.yaw_quat (Driver.yaw_smoothed g_state) = q)
    by apply yaw_quat_components.
  assert (El : Driver.qLength q = 1).
  { rewrite <- Eq. apply qLength_yaw_quat. }
  split; [exact Eq |].
  split.
  { unfold Driver.TreadmillVisualTracker_GetPose. cbn [fst Driver.qRotation].
    rewrite Eq. apply normalize_quat_unit. exact El. }
  split; [exact El |].
  split; [rewrite El; lra |].
  apply normalize_quat_unit. exact El.
Qed.

Lemma normalize_quat_rescales :
  Driver.normalize_quat (Driver.mkQuat 2 0 0 0) = Driver.mkQuat 1 0 0 0.
Proof.
  unfold Driver.normalize_quat, Driver.qLength. simpl.
  replace (2 * 2 + 0 * 0 + 0 * 0 + 0 * 0) with (2 * 2) by ring.
  rewrite sqrt_square by lra.
  destruct (Rgt_dec 2 (1 / 10000)) as [_ | Hn]; [| lra].
  f_equal; field.
Qed.

(** In exact arithmetic the two paths differ in one step only:
    [TreadmillDevice::GetPose] returns the quaternion as constructed,
    [TreadmillVisualTracker::GetPose] passes it through its "Normalize
    quaternion" block, which rescales whatever is not of length 1. *)
Lemma GetPose_renormalisation_paths (g_state : Driver.XYState)
    (hmdPose : Driver.TrackedDevicePose_t) :
  Driver.qRotation (Driver.TreadmillDevice_GetPose g_state)
  = Driver.yaw_quat (Driver.yaw_smoothed g_state) /\
  Driver.qRotation
    (fst (fst (Driver.TreadmillVisualTracker_GetPose g_state hmdPose)))
  = Driver.normalize_quat (Driver.yaw_quat (Driver.yaw_smoothed g_state)) /\
  Driver.normalize_quat (Driver.mkQuat 2 0 0 0) <> Driver.mkQuat 2 0 0 0.
Proof.
  split; [reflexivity |]. split; [reflexivity |].
  rewrite normalize_quat_rescales. intros E. inversion E. lra.
Qed.

Section Binary64.

Import PrimFloat.

(** C7.  In binary64, at a stored yaw of 1.5 degrees (half angle
    [0x1.acee9f37bebd6p-7]) and with the correctly rounded cosine and sine:
    [TreadmillDevice::GetPose] returns the constructed quaternion, whose
    computed length is [0x1.fffffffffffffp-1], one unit in the last place
    below 1; the "Normalize quaternion" block of
    [TreadmillVisualTracker::GetPose] divides by that length and returns
    other components.  The device path is not renormalised. *)
Theorem GetPose_renormalisation_binary64 :
  let c := DriverBinary64.cos_half_1_5 in
  let s := DriverBinary64.sin_half_1_5 in
  let device := DriverBinary64.TreadmillDevice_rotation c s in
  let tracker := DriverBinary64.TreadmillVisualTracker_rotation c s in
  DriverBinary64.half_angle 1.5%float = 0x1.acee9f37bebd6p-7%float /\
  device = DriverBinary64.mkQuat c 0%float (PrimFloat.opp s) 0%float /\
  DriverBinary64.qLength device = 0x1.fffffffffffffp-1%float /\
  tracker = DriverBinary64.mkQuat 0x1.fff4c54f76e1dp-1%float 0%float
                                  (PrimFloat.opp 0x1.aceb7c72ca0aap-7%float)
                                  0%float /\
  PrimFloat.eqb (DriverBinary64.qw device) (DriverBinary64.qw tracker) = false /\
  PrimFloat.eqb (DriverBinary64.qy device) (DriverBinary64.qy tracker) = false.
Proof.
  cbv zeta. repeat split; vm_compute; reflexivity.
Qed.

End Binary64.

(** ** Direction validator *)

Lemma analyse_spec (g_state : Driver.XYState) (cx cz rawYaw jx jy : R) :
  let delta := (cx - Driver.lastHmdX g_state, cz - Driver.lastHmdZ g_state) in
  let expected := rotate2 (jx, jy) (rawYaw * PI / 180) in
  let dev := angleDeviation delta (jx, jy) rawYaw in
  let verdict := Driver.analyse g_state cx cz rawYaw jx jy in
  (norm2 delta <= 5 / 100 -> verdict = None) /\
  (norm2 expected <= 1 / 100 -> verdict = None) /\
  (norm2 delta > 5 / 100 -> norm2 expected > 1 / 100 ->
   exists v, verdict = Some v /\ verdict_angle v = dev /\
             (is_mismatch v = true <-> dev > 5)).
Proof.
  intros delta expected dev verdict.
  unfold verdict, Driver.analyse. cbv zeta.
  unfold Driver.DEG2RAD.
  replace (rawYaw * (PI / 180)) with (rawYaw * PI / 180) by (unfold Rdiv; ring).
  change (sqrt ((cx - Driver.lastHmdX g_state) * (cx - Driver.lastHmdX g_state)
                + (cz - Driver.lastHmdZ g_state) * (cz - Driver.lastHmdZ g_state)))
    with (norm2 delta).
  change (sqrt ((jx * cos (rawYaw * PI / 180) - jy * sin (rawYaw * PI / 180))
                * (jx * cos (rawYaw * PI / 180) - jy * sin (rawYaw * PI / 180))
                + (jx * sin (rawYaw * PI / 180) + jy * cos (rawYaw * PI / 180))
                  * (jx * sin (rawYaw * PI / 180) + jy * cos (rawYaw * PI / 180))))
    with (norm2 expected).
  destruct (Rgt_dec (norm2 delta) (5 / 100)) as [Hd | Hd].
  - destruct (Rgt_dec (norm2 expected) (1 / 100)) as [He | He].
    + split; [intros; lra |]. split; [intros; lra |].
      intros _ _.
      match goal with
      | |- context [Rgt_dec ?a 5] =>
          change a with dev; destruct (Rgt_dec dev 5) as [H5 | H5]
      end.
      * eexists. split; [reflexivity |]. split; [reflexivity |].
        simpl. split; [intros _; exact H5 | reflexivity].
      * eexists. split; [reflexivity |]. split; [reflexivity |].
        simpl. split; [discriminate | intros H; contradiction].
    + split; [reflexivity |]. split; [reflexivity |]. intros; lra.
  - split; [reflexivity |]. split; [reflexivity |]. intros; lra.
Qed.

Lemma angleDeviation_range (delta joystick : R * R) (yawDeg : R) :
  0 <= angleDeviation delta joystick yawDeg <= 180.
Proof.
  unfold angleDeviation.
  set (c := clamp _ _ _).
  destruct (acos_bound c) as [Hlo Hhi].
  assert (Hpi := PI_RGT_0).
  split.
  - apply Rmult_le_pos; [| left; apply Rinv_0_lt_compat; exact Hpi].
    apply Rmult_le_pos; lra.
  - apply Rmult_le_reg_r with (r := PI); [exact Hpi |].
    unfold Rdiv. rewrite Rmult_assoc, Rinv_l by lra. nra.
Qed.

(** C8 (amended).  On a tick with a valid headset pose and a previous
    sample, the movement analysis makes no classification when the log
    counter is not a multiple of 50, when the horizontal displacement is at
    most 0.05, or when the rotated joystick vector is no longer than 0.01;
    otherwise it logs exactly one verdict carrying
    [acos(clamp(dot(normalize(delta), normalize(expected)), -1, 1))] in
    degrees, a value in [[0, 180]], a mismatch if that exceeds 5 and OK if
    not.  The smoothed state is left as it was. *)
Theorem direction_validator (g_state : Driver.XYState)
    (hmdPose : Driver.TrackedDevicePose_t)
    (Hvalid : Driver.bPoseIsValid hmdPose = true)
    (Hinit : Driver.hmdInitialized g_state = true) :
  let delta := (Driver.m hmdPose 0%nat 3%nat - Driver.lastHmdX g_state,
                Driver.m hmdPose 2%nat 3%nat - Driver.lastHmdZ g_state) in
  let joystick := (Driver.x_smoothed g_state, Driver.y_smoothed g_state) in
  let expected :=
    rotate2 joystick (Driver.yaw_smoothed g_state * PI / 180) in
  let dev := angleDeviation delta joystick (Driver.yaw_smoothed g_state) in
  let out := Driver.TreadmillVisualTracker_GetPose g_state hmdPose in
  let verdict := snd out in
  let g_state' := snd (fst out) in
  ((Driver.logCounter g_state mod 50)%Z <> 0%Z -> verdict = None) /\
  (norm2 delta <= 5 / 100 -> verdict = None) /\
  (norm2 expected <= 1 / 100 -> verdict = None) /\
  ((Driver.logCounter g_state mod 50)%Z = 0%Z ->
   norm2 delta > 5 / 100 -> norm2 expected > 1 / 100 ->
   exists v, verdict = Some v /\ verdict_angle v = dev /\
             (is_mismatch v = true <-> dev > 5)) /\
  0 <= dev <= 180 /\
  Driver.x_smoothed g_state' = Driver.x_smoothed g_state /\
  Driver.y_smoothed g_state' = Driver.y_smoothed g_state /\
  Driver.yaw_smoothed g_state' = Driver.yaw_smoothed g_state.
Proof.
  intros delta joystick expected dev out verdict g_state'.
  assert (Ev : verdict
               = if (Driver.logCounter g_state mod 50 =? 0)%Z
                 then Driver.analyse g_state
                        (Driver.m hmdPose 0%nat 3%nat)
                        (Driver.m hmdPose 2%nat 3%nat)
                        (Driver.yaw_smoothed g_state)
                        (Driver.x_smoothed g_state)
                        (Driver.y_smoothed g_state)
                 else None).
  { unfold verdict, out, Driver.TreadmillVisualTracker_GetPose.
    cbn [snd]. rewrite Hvalid, Hinit. reflexivity. }
  destruct (analyse_spec g_state
              (Driver.m hmdPose 0%nat 3%nat) (Driver.m hmdPose 2%nat 3%nat)
              (Driver.yaw_smoothed g_state)
              (Driver.x_smoothed g_state) (Driver.y_smoothed g_state))
    as (Hsmall & Hzero & Hbig).
  fold delta in Hsmall, Hbig. fold joystick in Hzero, Hbig.
  fold expected in Hzero, Hbig. fold dev in Hbig.
  destruct (Driver.logCounter g_state mod 50 =? 0)%Z eqn:Ec.
  - apply Z.eqb_eq in Ec. rewrite Ev.
    split; [intros H; contradiction |].
    split; [exact Hsmall |]. split; [exact Hzero |].
    split; [intros _; exact Hbig |].
    split; [apply angleDeviation_range |].
    unfold g_state', out, Driver.TreadmillVisualTracker_GetPose.
    rewrite Hvalid. repeat split.
  - rewrite Ev.
    split; [reflexivity |]. split; [reflexivity |]. split; [reflexivity |].
    split; [intros H; apply Z.eqb_neq in Ec; contradiction |].
    split; [apply angleDeviation_range |].
    unfold g_state', out, Driver.TreadmillVisualTracker_GetPose.
    rewrite Hvalid. repeat split.
Qed.

Lemma norm2_east : norm2 (1 - 0, 0 - 0) = 1.
Proof.
  unfold norm2. simpl.
  replace ((1 - 0) * (1 - 0) + (0 - 0) * (0 - 0)) with 1 by ring.
  apply sqrt_1.
Qed.

Lemma rotate2_by_zero (v : R * R) : rotate2 v (0 * PI / 180) = v.
Proof.
  unfold rotate2. replace (0 * PI / 180) with 0 by (unfold Rdiv; ring).
  rewrite cos_0, sin_0. destruct v as [a b]. simpl. f_equal; ring.
Qed.

Lemma norm2_forward : norm2 (0, 1) = 1.
Proof.
  unfold norm2. simpl. replace (0 * 0 + 1 * 1) with 1 by ring. apply sqrt_1.
Qed.

Lemma norm2_null : norm2 (0, 0) = 0.
Proof.
  unfold norm2. simpl. replace (0 * 0 + 0 * 0) with 0 by ring. apply sqrt_0.
Qed.

(** Headset displaced to the east, joystick forward, yaw 0: 90 degrees. *)
Lemma angleDeviation_east_forward :
  angleDeviation (1 - 0, 0 - 0) (0, 1) 0 = 90.
Proof.
  unfold angleDeviation. rewrite rotate2_by_zero.
  unfold normalize2. rewrite norm2_east, norm2_forward.
  unfold dot2. simpl.
  replace ((1 - 0) / 1 * (0 / 1) + (0 - 0) / 1 * (1 / 1)) with 0 by field.
  replace (clamp 0 (-1) 1) with 0 by (unfold clamp; Rdecide).
  rewrite acos_0. assert (Hpi := PI_RGT_0). field. lra.
Qed.

Lemma direction_validator_witness :
  let g_state := tracked_state 0 1 in
  let hmdPose := hmd_at 1 0 0 in
  Driver.bPoseIsValid hmdPose = true /\
  Driver.hmdInitialized g_state = true /\
  exists v,
    snd (Driver.TreadmillVisualTracker_GetPose g_state hmdPose) = Some v /\
    verdict_angle v = 90 /\ is_mismatch v = true.
Proof.
  intros g_state hmdPose.
  assert (Hv : Driver.bPoseIsValid hmdPose = true) by reflexivity.
  assert (Hi : Driver.hmdInitialized g_state = true) by reflexivity.
  split; [exact Hv |]. split; [exact Hi |].
  destruct (direction_validator g_state hmdPose Hv Hi)
    as (_ & _ & _ & Hbig & _).
  simpl in Hbig. rewrite angleDeviation_east_forward in Hbig.
  destruct Hbig as (v & Ev & Ea & Em).
  - reflexivity.
  - rewrite norm2_east. lra.
  - rewrite rotate2_by_zero, norm2_forward. lra.
  - exists v. split; [exact Ev |]. split; [exact Ea |]. apply Em. lra.
Defined.

(** C8 as stated fails on a tick with a previous sample, a displacement of
    one metre (above 0.05) and the smoothed joystick at rest: the analysis
    logs neither a mismatch nor OK. *)
Lemma direction_validator_silent_at_rest :
  let g_state := tracked_state 0 0 in
  let hmdPose := hmd_at 1 0 0 in
  Driver.bPoseIsValid hmdPose = true /\
  Driver.hmdInitialized g_state = true /\
  (Driver.logCounter g_state mod 50)%Z = 0%Z /\
  norm2 (Driver.m hmdPose 0%nat 3%nat - Driver.lastHmdX g_state,
         Driver.m hmdPose 2%nat 3%nat - Driver.lastHmdZ g_state) = 1 /\
  1 > 5 / 100 /\
  snd (Driver.TreadmillVisualTracker_GetPose g_state hmdPose) = None.
Proof.
  cbv zeta.
  split; [reflexivity |]. split; [reflexivity |]. split; [reflexivity |].
  split; [exact norm2_east |]. split; [lra |].
  unfold Driver.TreadmillVisualTracker_GetPose. cbn [snd]. simpl andb.
  cbv iota.
  apply (proj1 (proj2 (analyse_spec (tracked_state 0 0) 1 0 0 0 0))).
  rewrite rotate2_by_zero, norm2_null. lra.
Qed.

(** ** The active flag *)

Lemma step_active (g_config : TreadmillWrapper.Config)
    (w : TreadmillWrapper.World) (op : TreadmillWrapper.Op) :
  TreadmillWrapper.active
    (TreadmillWrapper.g_treadmillState (TreadmillWrapper.step g_config w op))
  = orb (TreadmillWrapper.active (TreadmillWrapper.g_treadmillState w))
        (is_ingest op).
Proof.
  destruct op; simpl; rewrite ?orb_false_r, ?orb_true_r; reflexivity.
Qed.

Lemma run_active (g_config : TreadmillWrapper.Config)
    (ops : list TreadmillWrapper.Op) (w : TreadmillWrapper.World) :
  TreadmillWrapper.active
    (TreadmillWrapper.g_treadmillState (TreadmillWrapper.run g_config w ops))
  = orb (TreadmillWrapper.active (TreadmillWrapper.g_treadmillState w))
        (existsb is_ingest ops).
Proof.
  revert w. induction ops as [| op ops IH]; intros w.
  - simpl. now rewrite orb_false_r.
  - unfold TreadmillWrapper.run in *. simpl fold_left.
    rewrite IH, step_active. simpl existsb. now rewrite orb_assoc.
Qed.

(** C10.  Over any sequence of operations of the wrapper (initialisation,
    ingests, shutdown, connection queries, action registration, intercepted
    reads), [active] after the sequence is [active] before it OR "an ingest
    occurred": it is false in the initial state, true after any sequence
    that contains an ingest, whatever follows, and no operation, shutdown
    included, clears it. *)
Theorem active_is_sticky (g_config : TreadmillWrapper.Config)
    (w : TreadmillWrapper.World) (ops : list TreadmillWrapper.Op) :
  TreadmillWrapper.active
    (TreadmillWrapper.g_treadmillState (TreadmillWrapper.run g_config w ops))
  = orb (TreadmillWrapper.active (TreadmillWrapper.g_treadmillState w))
        (existsb is_ingest ops) /\
  TreadmillWrapper.active
    (TreadmillWrapper.g_treadmillState TreadmillWrapper.World_init) = false /\
  (forall before timestamp ringAngle gamePadX gamePadY after,
     TreadmillWrapper.active
       (TreadmillWrapper.g_treadmillState
          (TreadmillWrapper.run g_config w
             (before
              ++ TreadmillWrapper.OpOnOmniData timestamp ringAngle
                                               gamePadX gamePadY
              :: after))) = true) /\
  (forall b, TreadmillWrapper.s_connected (TreadmillWrapper.Shutdown b) = false) /\
  TreadmillWrapper.active
    (TreadmillWrapper.g_treadmillState
       (TreadmillWrapper.step g_config w TreadmillWrapper.OpShutdown))
  = TreadmillWrapper.active (TreadmillWrapper.g_treadmillState w).
Proof.
  split; [apply run_active |].
  split; [reflexivity |].
  split; [| split; reflexivity].
  intros before timestamp ringAngle gamePadX gamePadY after.
  rewrite run_active, existsb_app. simpl.
  now rewrite orb_true_r, orb_true_r.
Qed.

(** ** A worked ingest *)

Lemma ApplyDeadzone_full_right :
  TreadmillWrapper.ApplyDeadzone ((255 - 127) / 127) (1 / 10) = 1153 / 1143.
Proof.
  unfold TreadmillWrapper.ApplyDeadzone, Rabs. Rdecide; try (field; lra).
Qed.

Lemma ApplyDeadzone_centre :
  TreadmillWrapper.ApplyDeadzone ((- (127 - 127)) / 127) (1 / 10) = 0.
Proof.
  unfold TreadmillWrapper.ApplyDeadzone, Rabs. Rdecide.
Qed.

(** With the default configuration (deadzone 0.1, speed multiplier 1.5,
    smoothing 0.3) and the initial state, the wrapper's ingest of ring angle
    90 and pad position (255, 127) stores x = 0.3 and y = 0, keeps the ring
    angle 90, sets [active] and counts one update. *)
Theorem OnOmniData_worked_ingest :
  let st := TreadmillWrapper.OnOmniData TreadmillWrapper.default_Config
              0 90 255 127 TreadmillWrapper.g_treadmillState_init in
  TreadmillWrapper.x st = 3 / 10 /\
  TreadmillWrapper.y st = 0 /\
  TreadmillWrapper.yaw st = 90 /\
  TreadmillWrapper.active st = true /\
  TreadmillWrapper.updateCount st = 1%Z.
Proof.
  cbv zeta. unfold TreadmillWrapper.OnOmniData.
  cbn [TreadmillWrapper.x TreadmillWrapper.y TreadmillWrapper.yaw
       TreadmillWrapper.active TreadmillWrapper.updateCount
       TreadmillWrapper.deadzone TreadmillWrapper.speedMultiplier
       TreadmillWrapper.smoothing TreadmillWrapper.default_Config
       TreadmillWrapper.g_treadmillState_init].
  rewrite ApplyDeadzone_full_right, ApplyDeadzone_centre.
  unfold TreadmillWrapper.ApplySmoothing.
  repeat split.
  - replace (clamp (1153 / 1143 * (15 / 10)) (-1) 1) with 1
      by (unfold clamp; Rdecide).
    lra.
  - replace (clamp (0 * (15 / 10)) (-1) 1) with 0
      by (unfold clamp; Rdecide).
    lra.
Qed.

(** * Further properties *)

(** ** Shape of the deadzone curve *)

Lemma clamp_range (v : R) : -1 <= clamp v (-1) 1 <= 1.
Proof. unfold clamp. Rdecide; lra. Qed.

Lemma clamp_inside (v : R) : -1 <= v <= 1 -> clamp v (-1) 1 = v.
Proof. intros H. unfold clamp. Rdecide; lra. Qed.

Lemma clamp_odd (v : R) : clamp (- v) (-1) 1 = - clamp v (-1) 1.
Proof. unfold clamp. Rdecide; lra. Qed.

Lemma clamp_monotone (v w : R) : v <= w -> clamp v (-1) 1 <= clamp w (-1) 1.
Proof. intros H. unfold clamp. Rdecide; lra. Qed.

Section DeadzoneShape.

Variable d : R.
Hypothesis d_range : 0 <= d < 1.

Let k := / (1 - d).

Lemma k_pos : 0 < k.
Proof using d_range. unfold k. apply Rinv_0_lt_compat. lra. Qed.

Lemma k_unit : (1 - d) * k = 1.
Proof using d_range. unfold k. apply Rinv_r. lra. Qed.

(** The curve with its cases spelled out on the sign of [v]. *)
Lemma deadzone_curve_cases (v : R) :
  (Rabs v < d /\ deadzone_curve v d = 0) \/
  (d <= v /\ deadzone_curve v d = (v - d) * k) \/
  (v <= - d /\ deadzone_curve v d = (v + d) * k).
Proof using d_range.
  unfold deadzone_curve, sgn, Rdiv. fold k.
  destruct (Rlt_dec (Rabs v) d) as [Hlt | Hge]; [left; auto |].
  right. revert Hge. unfold Rabs.
  destruct (Rcase_abs v) as [Hneg | Hpos]; intros Hge.
  - right. split; [lra |].
    destruct (Rlt_dec 0 v); [lra |].
    destruct (Rlt_dec v 0); [ring | lra].
  - left. split; [lra |].
    destruct (Rlt_dec 0 v); [ring |].
    destruct (Rlt_dec v 0); [lra |].
    assert (v = 0) by lra. assert (d = 0) by lra. subst. ring.
Qed.

Lemma deadzone_curve_odd (v : R) :
  deadzone_curve (- v) d = - deadzone_curve v d.
Proof using d_range.
  assert (Hk := k_pos).
  destruct (deadzone_curve_cases v) as [[H E] | [[H E] | [H E]]];
    destruct (deadzone_curve_cases (- v)) as [[H' E'] | [[H' E'] | [H' E']]];
    rewrite ?Rabs_Ropp in *; rewrite E, E';
    first [ lra
          | ring
          | exfalso; unfold Rabs in *; destruct (Rcase_abs v); lra
          | nra ].
Qed.

Lemma deadzone_curve_monotone (v w : R) :
  v <= w -> deadzone_curve v d <= deadzone_curve w d.
Proof using d_range.
  intros Hvw. assert (Hk := k_pos).
  destruct (deadzone_curve_cases v) as [[H E] | [[H E] | [H E]]];
    destruct (deadzone_curve_cases w) as [[H' E'] | [[H' E'] | [H' E']]];
    rewrite E, E';
    try (unfold Rabs in *; destruct (Rcase_abs v); destruct (Rcase_abs w));
    nra.
Qed.

Lemma deadzone_curve_no_gain (v : R) :
  Rabs v <= 1 -> Rabs (deadzone_curve v d) <= Rabs v.
Proof using d_range.
  intros H1. assert (Hk := k_pos). assert (Hu := k_unit).
  destruct (deadzone_curve_cases v) as [[H E] | [[H E] | [H E]]]; rewrite E.
  - rewrite Rabs_R0. apply Rabs_pos.
  - assert (Hv : Rabs v = v) by (apply Rabs_pos_eq; lra).
    rewrite Hv in *. rewrite Rabs_pos_eq by nra. nra.
  - assert (Hv : Rabs v = - v) by (apply Rabs_left1; lra).
    rewrite Hv in *. rewrite Rabs_left1 by nra. nra.
Qed.

Lemma deadzone_curve_same_sign (v : R) : 0 <= deadzone_curve v d * v.
Proof using d_range.
  assert (Hk := k_pos).
  destruct (deadzone_curve_cases v) as [[H E] | [[H E] | [H E]]]; rewrite E.
  - lra.
  - assert (0 <= (v - d) * k) by nra. nra.
  - assert ((v + d) * k <= 0) by nra. nra.
Qed.

End DeadzoneShape.

(** X3.  For a deadzone [d] in [[0, 1)], [ApplyDeadzone] (both copies) is an
    odd, non-decreasing function of the input that never changes its
    sign. *)
Theorem ApplyDeadzone_shape (d : R) (Hd : 0 <= d < 1) :
  (forall v, TreadmillWrapper.ApplyDeadzone (- v) d
             = - TreadmillWrapper.ApplyDeadzone v d) /\
  (forall v w, v <= w ->
     TreadmillWrapper.ApplyDeadzone v d <= TreadmillWrapper.ApplyDeadzone w d) /\
  (forall v, 0 <= TreadmillWrapper.ApplyDeadzone v d * v) /\
  (forall v, TreadmillLayer.ApplyDeadzone v d
             = TreadmillWrapper.ApplyDeadzone v d).
Proof.
  repeat split; intros; rewrite ?(ApplyDeadzone_curve d Hd).
  - apply deadzone_curve_odd; exact Hd.
  - apply deadzone_curve_monotone; assumption.
  - apply deadzone_curve_same_sign; exact Hd.
Qed.

Lemma ApplyDeadzone_shape_witness :
  0 <= 1 / 10 < 1 /\
  TreadmillWrapper.ApplyDeadzone (1 / 4) (1 / 10)
  <= TreadmillWrapper.ApplyDeadzone (1 / 2) (1 / 10).
Proof.
  assert (H : 0 <= 1 / 10 < 1) by lra.
  split; [exact H |].
  destruct (ApplyDeadzone_shape (1 / 10) H) as (_ & Hmono & _).
  apply Hmono. lra.
Defined.

(** ** Range of the stored pad values *)

Lemma FLT_MAX_large : 2 <= FLT_MAX.
Proof.
  unfold FLT_MAX.
  assert (P : 2 ^ 1 <= 2 ^ 127) by (apply Rle_pow; [lra | lia]).
  assert (Q : 0 < / 2 ^ 23 <= 1).
  { assert (1 <= 2 ^ 23) by (apply pow_R1_Rle; lra).
    split; [apply Rinv_0_lt_compat; lra |].
    rewrite <- Rinv_1. apply Rinv_le_contravar; lra. }
  simpl pow at 1 in P. nra.
Qed.

Lemma finite32_small (v : R) : -2 <= v <= 2 -> finite32 v.
Proof.
  intros H. unfold finite32. pose proof FLT_MAX_large.
  unfold Rabs. destruct (Rcase_abs v); lra.
Qed.

Lemma ApplySmoothing_between (s t f : R) :
  0 <= f <= 1 -> -1 <= s <= 1 -> -1 <= t <= 1 ->
  -1 <= TreadmillWrapper.ApplySmoothing s t f <= 1.
Proof.
  intros Hf Hs Ht. unfold TreadmillWrapper.ApplySmoothing. split; nra.
Qed.

Lemma wrapper_OnOmniData_bounded g_config clock ring px py st :
  0 <= TreadmillWrapper.smoothing g_config <= 1 ->
  wrapper_bounded st ->
  wrapper_bounded (TreadmillWrapper.OnOmniData g_config clock ring px py st).
Proof.
  intros Hs [Hx Hy]. unfold wrapper_bounded, TreadmillWrapper.OnOmniData.
  cbn [TreadmillWrapper.x TreadmillWrapper.y].
  split; apply ApplySmoothing_between; auto using clamp_range.
Qed.

Lemma layer_OnOmniData_bounded g_config clock ring px py st :
  0 <= TreadmillLayer.smoothing g_config <= 1 ->
  layer_bounded st ->
  layer_bounded (TreadmillLayer.OnOmniData g_config clock ring px py st).
Proof.
  intros Hs [Hx Hy]. unfold layer_bounded, TreadmillLayer.OnOmniData.
  cbn [TreadmillLayer.x TreadmillLayer.y].
  split; apply (ApplySmoothing_between _ _ _ Hs); auto using clamp_range.
Qed.

Lemma wrapper_feed_bounded g_config samples :
  0 <= TreadmillWrapper.smoothing g_config <= 1 ->
  forall st, wrapper_bounded st ->
             wrapper_bounded (wrapper_feed g_config samples st).
Proof.
  intros Hs. unfold wrapper_feed.
  induction samples as [| smp rest IH]; intros st Hst; [exact Hst |].
  simpl. apply IH. apply wrapper_OnOmniData_bounded; assumption.
Qed.

Lemma layer_feed_bounded g_config samples :
  0 <= TreadmillLayer.smoothing g_config <= 1 ->
  forall st, layer_bounded st ->
             layer_bounded (layer_feed g_config samples st).
Proof.
  intros Hs. unfold layer_feed.
  induction samples as [| smp rest IH]; intros st Hst; [exact Hst |].
  simpl. apply IH. apply layer_OnOmniData_bounded; assumption.
Qed.

(** X2.  When the configured smoothing lies in [[0, 1]], the speed
    multiplier and the deadzone are finite numbers (no infinity, no NaN) and
    the deadzone is not 1 (so that the rescaling divides by something), the
    smoothed pad values stored by the OpenVR wrapper and by the OpenXR layer
    stay in [[-1, 1]] over every sequence of samples, whatever the pad
    integers and ring angles; in particular from the initial all-zero
    state. *)
Theorem stored_pad_values_bounded (samples : list Sample)
    (wconfig : TreadmillWrapper.Config) (wst : TreadmillWrapper.TreadmillState)
    (lconfig : TreadmillLayer.Config) (lst : TreadmillLayer.TreadmillState)
    (Hws : 0 <= TreadmillWrapper.smoothing wconfig <= 1)
    (Hwm : finite32 (TreadmillWrapper.speedMultiplier wconfig))
    (Hwd : finite32 (TreadmillWrapper.deadzone wconfig) /\
           TreadmillWrapper.deadzone wconfig <> 1)
    (Hls : 0 <= TreadmillLayer.smoothing lconfig <= 1)
    (Hlm : finite32 (TreadmillLayer.speedMultiplier lconfig))
    (Hld : finite32 (TreadmillLayer.deadzone lconfig) /\
           TreadmillLayer.deadzone lconfig <> 1)
    (Hw : wrapper_bounded wst) (Hl : layer_bounded lst) :
  wrapper_bounded (wrapper_feed wconfig samples wst) /\
  layer_bounded (layer_feed lconfig samples lst) /\
  wrapper_bounded
    (wrapper_feed wconfig samples TreadmillWrapper.g_treadmillState_init) /\
  layer_bounded
    (layer_feed lconfig samples TreadmillLayer.g_treadmillState_init).
Proof.
  split; [apply wrapper_feed_bounded; assumption |].
  split; [apply layer_feed_bounded; assumption |].
  split; [apply wrapper_feed_bounded | apply layer_feed_bounded];
    try assumption; unfold wrapper_bounded, layer_bounded; simpl; lra.
Qed.

Lemma stored_pad_values_bounded_witness :
  let samples := [mkSample 0 90 255 0; mkSample 1 91 0 255] in
  wrapper_bounded
    (wrapper_feed TreadmillWrapper.default_Config samples
                  TreadmillWrapper.g_treadmillState_init).
Proof.
  intros samples.
  set (lconfig := TreadmillLayer.mkConfig true (15 / 10) (1 / 10) (3 / 10)
                    TreadmillLayer.Smart [] []).
  assert (Hs : 0 <= 3 / 10 <= 1) by lra.
  assert (Hm : finite32 (15 / 10)) by (apply finite32_small; lra).
  assert (Hd : finite32 (1 / 10) /\ 1 / 10 <> 1)
    by (split; [apply finite32_small |]; lra).
  assert (Hw : wrapper_bounded TreadmillWrapper.g_treadmillState_init)
    by (unfold wrapper_bounded; simpl; lra).
  assert (Hl : layer_bounded TreadmillLayer.g_treadmillState_init)
    by (unfold layer_bounded; simpl; lra).
  exact (proj1 (stored_pad_values_bounded samples
                  TreadmillWrapper.default_Config
                  TreadmillWrapper.g_treadmillState_init
                  lconfig TreadmillLayer.g_treadmillState_init
                  Hs Hm Hd Hs Hm Hd Hw Hl)).
Defined.

(** ** Pad processing: symmetry and direction *)

Lemma wrapper_processed_odd g_config v :
  0 <= TreadmillWrapper.deadzone g_config < 1 ->
  wrapper_processed g_config (- v) = - wrapper_processed g_config v.
Proof.
  intros Hd. unfold wrapper_processed.
  rewrite !(ApplyDeadzone_curve _ Hd), (deadzone_curve_odd _ Hd).
  rewrite <- clamp_odd. f_equal. ring.
Qed.

Lemma wrapper_processed_monotone g_config v w :
  0 <= TreadmillWrapper.deadzone g_config < 1 ->
  0 <= TreadmillWrapper.speedMultiplier g_config ->
  v <= w -> wrapper_processed g_config v <= wrapper_processed g_config w.
Proof.
  intros Hd Hm Hvw. unfold wrapper_processed.
  apply clamp_monotone. rewrite !(ApplyDeadzone_curve _ Hd).
  apply Rmult_le_compat_r; [exact Hm |].
  apply deadzone_curve_monotone; assumption.
Qed.

Lemma wrapper_processed_zero g_config :
  0 <= TreadmillWrapper.deadzone g_config < 1 ->
  wrapper_processed g_config 0 = 0.
Proof.
  intros Hd.
  assert (H := wrapper_processed_odd g_config 0 Hd).
  rewrite Ropp_0 in H. lra.
Qed.

(** X4.  With a deadzone in [[0, 1)] and a finite, non-negative speed
    multiplier, the wrapper's ingest treats the pad bytes symmetrically about
    their centre 127: the smoothing target of x for pad byte [127 + k] is the
    opposite of the one for [127 - k], the centre gives target 0, the target
    never decreases when the byte increases, and the y channel handles byte
    [p] exactly as the x channel handles [254 - p] (the y axis is
    inverted). *)
Theorem pad_processing_symmetric (g_config : TreadmillWrapper.Config)
    (Hd : 0 <= TreadmillWrapper.deadzone g_config < 1)
    (Hm : 0 <= TreadmillWrapper.speedMultiplier g_config /\
          finite32 (TreadmillWrapper.speedMultiplier g_config)) :
  let target_x := fun p : Z =>
    wrapper_processed g_config ((IZR p - 127) / 127) in
  let target_y := fun p : Z =>
    wrapper_processed g_config ((- (IZR p - 127)) / 127) in
  (forall clock ring px py st,
     is_byte px -> is_byte py ->
     let st' := TreadmillWrapper.OnOmniData g_config clock ring px py st in
     TreadmillWrapper.x st'
     = TreadmillWrapper.ApplySmoothing (TreadmillWrapper.x st) (target_x px)
         (TreadmillWrapper.smoothing g_config) /\
     TreadmillWrapper.y st'
     = TreadmillWrapper.ApplySmoothing (TreadmillWrapper.y st) (target_y py)
         (TreadmillWrapper.smoothing g_config)) /\
  (forall k : Z,
     is_byte (127 + k) -> is_byte (127 - k) ->
     target_x (127 + k)%Z = - target_x (127 - k)%Z) /\
  target_x 127%Z = 0 /\ target_y 127%Z = 0 /\
  (forall p q : Z,
     is_byte p -> is_byte q -> (p <= q)%Z -> target_x p <= target_x q) /\
  (forall p : Z,
     is_byte p -> is_byte (254 - p) -> target_y p = target_x (254 - p)%Z).
Proof.
  intros target_x target_y. destruct Hm as [Hm _].
  split; [intros; split; reflexivity |].
  split.
  { intros k _ _. unfold target_x.
    rewrite <- wrapper_processed_odd by exact Hd.
    f_equal. rewrite plus_IZR, minus_IZR. field. }
  split.
  { unfold target_x. replace ((127 - 127) / 127) with 0 by field.
    apply wrapper_processed_zero; exact Hd. }
  split.
  { unfold target_y. replace ((- (127 - 127)) / 127) with 0 by field.
    apply wrapper_processed_zero; exact Hd. }
  split.
  { intros p q _ _ Hpq. unfold target_x.
    apply wrapper_processed_monotone; try assumption.
    apply IZR_le in Hpq. unfold Rdiv.
    apply Rmult_le_compat_r; lra. }
  intros p _ _. unfold target_x, target_y. f_equal.
  rewrite minus_IZR. field.
Qed.

Lemma pad_processing_symmetric_witness :
  0 <= TreadmillWrapper.deadzone TreadmillWrapper.default_Config < 1 /\
  0 <= TreadmillWrapper.speedMultiplier TreadmillWrapper.default_Config /\
  wrapper_processed TreadmillWrapper.default_Config ((127 - 127) / 127) = 0.
Proof.
  assert (Hd : 0 <= TreadmillWrapper.deadzone TreadmillWrapper.default_Config < 1)
    by (simpl; lra).
  assert (Hm : 0 <= TreadmillWrapper.speedMultiplier
                      TreadmillWrapper.default_Config /\
               finite32 (TreadmillWrapper.speedMultiplier
                           TreadmillWrapper.default_Config))
    by (simpl; split; [| apply finite32_small]; lra).
  split; [exact Hd |]. split; [apply Hm |].
  exact (proj1 (proj2 (proj2
           (pad_processing_symmetric TreadmillWrapper.default_Config Hd Hm)))).
Defined.

(** ** Smoothing factor 0 *)

Lemma wrapper_feed_frozen g_config samples :
  TreadmillWrapper.smoothing g_config = 0 ->
  forall st,
    TreadmillWrapper.x (wrapper_feed g_config samples st) = TreadmillWrapper.x st /\
    TreadmillWrapper.y (wrapper_feed g_config samples st) = TreadmillWrapper.y st.
Proof.
  intros H0. unfold wrapper_feed.
  induction samples as [| smp rest IH]; intros st; [split; reflexivity |].
  simpl. destruct (IH (TreadmillWrapper.OnOmniData g_config (s_clock smp)
                         (s_ring smp) (s_padX smp) (s_padY smp) st)) as [Ex Ey].
  rewrite Ex, Ey. unfold TreadmillWrapper.OnOmniData.
  cbn [TreadmillWrapper.x TreadmillWrapper.y].
  unfold TreadmillWrapper.ApplySmoothing. rewrite H0. split; ring.
Qed.

Lemma driver_feed_frozen samples :
  forall st, 0 <= Driver.yaw_smoothed st < 360 ->
    Driver.x_smoothed (driver_feed 0 samples st) = Driver.x_smoothed st /\
    Driver.y_smoothed (driver_feed 0 samples st) = Driver.y_smoothed st /\
    Driver.yaw_smoothed (driver_feed 0 samples st) = Driver.yaw_smoothed st.
Proof.
  unfold driver_feed.
  induction samples as [| smp rest IH]; intros st Hy; [repeat split |].
  simpl.
  assert (Ey : Driver.yaw_smoothed
                 (Driver.OnOmniData 0 (s_clock smp) (s_ring smp)
                                    (s_padX smp) (s_padY smp) st)
               = Driver.yaw_smoothed st).
  { cbn [Driver.OnOmniData Driver.yaw_smoothed].
    rewrite Rmult_0_l, Rplus_0_r. unfold Driver.normalize_yaw.
    destruct (Rlt_dec (Driver.yaw_smoothed st) 0); [lra |].
    destruct (Rge_dec (Driver.yaw_smoothed st) 360); lra. }
  destruct (IH (Driver.OnOmniData 0 (s_clock smp) (s_ring smp)
                                  (s_padX smp) (s_padY smp) st))
    as (Fx & Fy & Fyaw); [rewrite Ey; exact Hy |].
  rewrite Fx, Fy, Fyaw, Ey.
  cbn [Driver.OnOmniData Driver.x_smoothed Driver.y_smoothed].
  repeat split; ring.
Qed.

(** X5.  With smoothing 0 the stored smoothed values never move, whatever
    samples arrive: x and y in the wrapper, for a finite speed multiplier, a
    finite deadzone other than 1 and finite stored values; x, y and yaw in
    the driver, for finite ring angles and a stored yaw in [[0, 360)]. *)
Theorem smoothing_zero_freezes :
  (forall g_config samples st,
     TreadmillWrapper.smoothing g_config = 0 ->
     finite32 (TreadmillWrapper.speedMultiplier g_config) ->
     finite32 (TreadmillWrapper.deadzone g_config) ->
     TreadmillWrapper.deadzone g_config <> 1 ->
     finite32 (TreadmillWrapper.x st) -> finite32 (TreadmillWrapper.y st) ->
     TreadmillWrapper.x (wrapper_feed g_config samples st)
     = TreadmillWrapper.x st /\
     TreadmillWrapper.y (wrapper_feed g_config samples st)
     = TreadmillWrapper.y st) /\
  (forall samples st,
     Forall (fun smp => finite32 (s_ring smp)) samples ->
     0 <= Driver.yaw_smoothed st < 360 ->
     Driver.x_smoothed (driver_feed 0 samples st) = Driver.x_smoothed st /\
     Driver.y_smoothed (driver_feed 0 samples st) = Driver.y_smoothed st /\
     Driver.yaw_smoothed (driver_feed 0 samples st) = Driver.yaw_smoothed st).
Proof.
  split; [intros; apply wrapper_feed_frozen; assumption |].
  intros; apply driver_feed_frozen; assumption.
Qed.

(** ** Counters *)

Lemma wrap_u64_succ (c : Z) : wrap_u64 (wrap_u64 c + 1) = wrap_u64 (c + 1).
Proof. unfold wrap_u64. apply Zplus_mod_idemp_l. Qed.

Lemma wrapper_feed_count g_config samples :
  forall st,
    wrap_u64 (TreadmillWrapper.updateCount (wrapper_feed g_config samples st))
    = wrap_u64 (TreadmillWrapper.updateCount st + Z.of_nat (List.length samples)).
Proof.
  unfold wrapper_feed.
  induction samples as [| smp rest IH]; intros st.
  - simpl. now rewrite Z.add_0_r.
  - cbn [fold_left]. rewrite IH.
    cbn [TreadmillWrapper.OnOmniData TreadmillWrapper.updateCount].
    cbn [List.length]. rewrite Nat2Z.inj_succ.
    unfold wrap_u64. rewrite Zplus_mod_idemp_l. f_equal. lia.
Qed.

Lemma driver_feed_count alpha samples :
  forall st,
    wrap_u64 (Driver.logCounter (driver_feed alpha samples st))
    = wrap_u64 (Driver.logCounter st + Z.of_nat (List.length samples)).
Proof.
  unfold driver_feed.
  induction samples as [| smp rest IH]; intros st.
  - simpl. now rewrite Z.add_0_r.
  - cbn [fold_left]. rewrite IH.
    cbn [Driver.OnOmniData Driver.logCounter].
    cbn [List.length]. rewrite Nat2Z.inj_succ.
    unfold wrap_u64. rewrite Zplus_mod_idemp_l. f_equal. lia.
Qed.

Lemma wrapper_feed_count_range g_config samples :
  forall st, (0 <= TreadmillWrapper.updateCount st < 2 ^ 64)%Z ->
    (0 <= TreadmillWrapper.updateCount (wrapper_feed g_config samples st)
     < 2 ^ 64)%Z.
Proof.
  unfold wrapper_feed.
  induction samples as [| smp rest IH]; intros st Hst; [exact Hst |].
  cbn [fold_left]. apply IH.
  cbn [TreadmillWrapper.OnOmniData TreadmillWrapper.updateCount].
  unfold wrap_u64. apply Z.mod_pos_bound. lia.
Qed.

Lemma driver_feed_count_range alpha samples :
  forall st, (0 <= Driver.logCounter st < 2 ^ 64)%Z ->
    (0 <= Driver.logCounter (driver_feed alpha samples st) < 2 ^ 64)%Z.
Proof.
  unfold driver_feed.
  induction samples as [| smp rest IH]; intros st Hst; [exact Hst |].
  cbn [fold_left]. apply IH.
  cbn [Driver.OnOmniData Driver.logCounter].
  unfold wrap_u64. apply Z.mod_pos_bound. lia.
Qed.

(** X6.  The counters count ingests, modulo 2^64.  After [n] samples the
    wrapper's [updateCount] and the driver's [logCounter] are the previous
    value plus [n], wrapped to 64 bits.  The driver's counter moves on
    ingests only: [TreadmillVisualTracker::GetPose] returns it unchanged, so
    pose ticks between two samples all take the same "every 50th" logging
    decision. *)
Theorem counters_count_ingests (samples : list Sample)
    (g_config : TreadmillWrapper.Config) (wst : TreadmillWrapper.TreadmillState)
    (alpha : R) (dst : Driver.XYState)
    (Hw : (0 <= TreadmillWrapper.updateCount wst < 2 ^ 64)%Z)
    (Hd : (0 <= Driver.logCounter dst < 2 ^ 64)%Z) :
  TreadmillWrapper.updateCount (wrapper_feed g_config samples wst)
  = ((TreadmillWrapper.updateCount wst + Z.of_nat (List.length samples))
     mod 2 ^ 64)%Z /\
  Driver.logCounter (driver_feed alpha samples dst)
  = ((Driver.logCounter dst + Z.of_nat (List.length samples)) mod 2 ^ 64)%Z /\
  (forall hmdPose,
     Driver.logCounter
       (snd (fst (Driver.TreadmillVisualTracker_GetPose dst hmdPose)))
     = Driver.logCounter dst).
Proof.
  split; [| split].
  - assert (H := wrapper_feed_count g_config samples wst).
    assert (R := wrapper_feed_count_range g_config samples wst Hw).
    unfold wrap_u64 in H. rewrite Z.mod_small in H by exact R. exact H.
  - assert (H := driver_feed_count alpha samples dst).
    assert (R := driver_feed_count_range alpha samples dst Hd).
    unfold wrap_u64 in H. rewrite Z.mod_small in H by exact R. exact H.
  - intros hmdPose. unfold Driver.TreadmillVisualTracker_GetPose.
    cbn [fst snd]. destruct (Driver.bPoseIsValid hmdPose); reflexivity.
Qed.

Lemma counters_count_ingests_witness :
  (0 <= TreadmillWrapper.updateCount (treadmill_at 0 0) < 2 ^ 64)%Z /\
  (0 <= Driver.logCounter Driver.g_state_init < 2 ^ 64)%Z /\
  Driver.logCounter
    (driver_feed (3 / 10) [mkSample 0 90 255 0; mkSample 1 91 0 255]
                 Driver.g_state_init) = 2%Z.
Proof.
  assert (Hw : (0 <= TreadmillWrapper.updateCount (treadmill_at 0 0) < 2 ^ 64)%Z)
    by (simpl; lia).
  assert (Hd : (0 <= Driver.logCounter Driver.g_state_init < 2 ^ 64)%Z)
    by (simpl; lia).
  split; [exact Hw |]. split; [exact Hd |].
  exact (proj1 (proj2 (counters_count_ingests
                         [mkSample 0 90 255 0; mkSample 1 91 0 255]
                         TreadmillWrapper.default_Config (treadmill_at 0 0)
                         (3 / 10) Driver.g_state_init Hw Hd))).
Defined.

(** ** Range of the driver's state *)

Lemma driver_OnOmniData_in_range alpha clock ring px py st :
  0 <= alpha <= 1 -> 0 <= ring < 360 ->
  driver_in_range st ->
  driver_in_range (Driver.OnOmniData alpha clock ring px py st).
Proof.
  intros Ha Hr (Hx & Hy & Hxs & Hys & Hyaw).
  unfold driver_in_range.
  cbn [Driver.OnOmniData Driver.x Driver.y Driver.x_smoothed
       Driver.y_smoothed Driver.yaw_smoothed].
  assert (Cx := clamp_range ((IZR px - 127) / 127)).
  assert (Cy := clamp_range ((- (IZR py - 127)) / 127)).
  split; [exact Cx |]. split; [exact Cy |].
  split; [split; nra |]. split; [split; nra |].
  destruct (normalize_diff_cases ring (Driver.yaw_smoothed st) Hr Hyaw)
    as [Hd _].
  apply normalize_yaw_cases. apply smoothed_sum_range; assumption.
Qed.

(** X7.  With a smoothing factor in [[0, 1]] and ring angles in [[0, 360)],
    every sequence of ingests keeps the driver's state in range: raw and
    smoothed pad values in [[-1, 1]] and the smoothed yaw in [[0, 360)],
    whatever the pad integers (they are clamped, not rejected); the pose
    tick of the visual tracker keeps the state in range as well. *)
Theorem driver_state_in_range (alpha : R) (samples : list Sample)
    (st : Driver.XYState)
    (Halpha : 0 <= alpha <= 1)
    (Hrings : Forall (fun smp => 0 <= s_ring smp < 360) samples)
    (Hst : driver_in_range st) :
  driver_in_range (driver_feed alpha samples st) /\
  driver_in_range (driver_feed alpha samples Driver.g_state_init) /\
  (forall hmdPose,
     driver_in_range
       (snd (fst (Driver.TreadmillVisualTracker_GetPose st hmdPose)))).
Proof.
  assert (F : forall s, driver_in_range s ->
                        driver_in_range (driver_feed alpha samples s)).
  { unfold driver_feed. induction Hrings as [| smp rest Hsmp _ IH];
      intros s Hs; [exact Hs |].
    cbn [fold_left]. apply IH.
    apply driver_OnOmniData_in_range; assumption. }
  split; [apply F; exact Hst |].
  split.
  - apply F. unfold driver_in_range. simpl. lra.
  - intros hmdPose. unfold Driver.TreadmillVisualTracker_GetPose.
    cbn [fst snd]. destruct (Driver.bPoseIsValid hmdPose); exact Hst.
Qed.

Lemma driver_state_in_range_witness :
  driver_in_range
    (driver_feed (3 / 10) [mkSample 0 350 300 (-20); mkSample 1 10 0 255]
                 Driver.g_state_init).
Proof.
  assert (Ha : 0 <= 3 / 10 <= 1) by lra.
  assert (Hr : Forall (fun smp => 0 <= s_ring smp < 360)
                      [mkSample 0 350 300 (-20); mkSample 1 10 0 255]).
  { repeat constructor; simpl; lra. }
  assert (Hi : driver_in_range Driver.g_state_init).
  { unfold driver_in_range. simpl. lra. }
  exact (proj1 (driver_state_in_range (3 / 10) _ Driver.g_state_init
                  Ha Hr Hi)).
Defined.

(** ** Trimming *)

Section NotOf.

Variable set : cstring.

Lemma find_first_not_of_all (s : cstring) :
  all_in set s -> find_first_not_of s set = None.
Proof.
  induction 1 as [| c rest Hc _ IH]; simpl; [reflexivity |].
  now rewrite Hc, IH.
Qed.

Lemma find_last_not_of_all (s : cstring) :
  all_in set s -> find_last_not_of s set = None.
Proof.
  induction 1 as [| c rest Hc _ IH]; simpl; [reflexivity |].
  now rewrite IH, Hc.
Qed.

Lemma find_first_not_of_spec (s : cstring) :
  match find_first_not_of s set with
  | None => all_in set s
  | Some i =>
      exists pre c rest,
        s = pre ++ c :: rest /\ List.length pre = i /\
        all_in set pre /\ char_in c set = false
  end.
Proof.
  induction s as [| a s IH]; simpl; [constructor |].
  destruct (char_in a set) eqn:Ea.
  - destruct (find_first_not_of s set) as [i |]; simpl.
    + destruct IH as (pre & c & rest & -> & <- & Hpre & Hc).
      exists (a :: pre), c, rest. repeat split; auto. constructor; auto.
    + constructor; auto.
  - exists [], a, s. repeat split; auto. constructor.
Qed.

Lemma find_last_not_of_spec (s : cstring) :
  match find_last_not_of s set with
  | None => all_in set s
  | Some e =>
      exists init c post,
        s = init ++ c :: post /\ List.length init = e /\
        all_in set post /\ char_in c set = false
  end.
Proof.
  induction s as [| a s IH]; simpl; [constructor |].
  destruct (find_last_not_of s set) as [i |].
  - destruct IH as (init & c & post & -> & <- & Hpost & Hc).
    exists (a :: init), c, post. repeat split; auto.
  - destruct (char_in a set) eqn:Ea.
    + constructor; auto.
    + exists [], a, s. repeat split; auto.
Qed.

Lemma find_first_not_of_prefix (pre rest : cstring) (c : ascii) :
  all_in set pre -> char_in c set = false ->
  find_first_not_of (pre ++ c :: rest) set = Some (List.length pre).
Proof.
  intros Hpre Hc. induction Hpre as [| a pre Ha _ IH]; simpl.
  - now rewrite Hc.
  - now rewrite Ha, IH.
Qed.

Lemma find_last_not_of_suffix (init post : cstring) (c : ascii) :
  all_in set post -> char_in c set = false ->
  find_last_not_of (init ++ c :: post) set = Some (List.length init).
Proof.
  intros Hpost Hc. induction init as [| a init IH]; simpl.
  - now rewrite (find_last_not_of_all post Hpost), Hc.
  - now rewrite IH.
Qed.

End NotOf.

Lemma skipn_exact {A} (l r : list A) : skipn (List.length l) (l ++ r) = r.
Proof. induction l; simpl; auto. Qed.

Lemma firstn_exact {A} (l r : list A) : firstn (List.length l) (l ++ r) = l.
Proof. induction l; simpl; [reflexivity | now f_equal]. Qed.

Lemma trimmed_ends (core : cstring) :
  core <> [] -> trimmed core ->
  exists c1 tl init c2,
    core = c1 :: tl /\ core = init ++ [c2] /\
    char_in c1 Driver.trim_set = false /\ char_in c2 Driver.trim_set = false.
Proof.
  intros Hne Ht. destruct core as [| c1 tl]; [contradiction |].
  destruct Ht as [H1 H2].
  destruct (exists_last Hne) as (init & c2 & E).
  rewrite E in H2. rewrite last_last in H2.
  exists c1, tl, init, c2. auto.
Qed.

(** Surrounding white space is removed and nothing else. *)
Lemma trim_core (pre core post : cstring) :
  all_in Driver.trim_set pre -> all_in Driver.trim_set post ->
  trimmed core ->
  Driver.trim (pre ++ core ++ post) = core.
Proof.
  intros Hpre Hpost Ht.
  destruct core as [| c0 tl0] eqn:Ecore.
  - simpl. unfold Driver.trim.
    rewrite find_first_not_of_all; [reflexivity |].
    apply Forall_app. split; assumption.
  - rewrite <- Ecore in *.
    destruct (trimmed_ends core) as (c1 & tl & init & c2 & E1 & E2 & H1 & H2);
      [rewrite Ecore; discriminate | exact Ht |].
    unfold Driver.trim.
    assert (F : find_first_not_of (pre ++ core ++ post) Driver.trim_set
                = Some (List.length pre)).
    { rewrite E1. simpl. apply find_first_not_of_prefix; assumption. }
    assert (L : find_last_not_of (pre ++ core ++ post) Driver.trim_set
                = Some (List.length pre + List.length init)%nat).
    { rewrite E2. rewrite <- app_assoc. simpl. rewrite app_assoc.
      rewrite <- length_app. apply find_last_not_of_suffix; assumption. }
    rewrite F, L. unfold substr.
    rewrite skipn_exact.
    replace (List.length pre + List.length init - List.length pre + 1)%nat
      with (List.length core)
      by (rewrite E2 at 1; rewrite length_app; simpl; lia).
    apply firstn_exact.
Qed.

Lemma trim_decompose (s : cstring) :
  exists pre post,
    s = pre ++ Driver.trim s ++ post /\
    all_in Driver.trim_set pre /\ all_in Driver.trim_set post /\
    trimmed (Driver.trim s).
Proof.
  unfold Driver.trim.
  assert (F := find_first_not_of_spec Driver.trim_set s).
  destruct (find_first_not_of s Driver.trim_set) as [start |].
  - destruct F as (pre & c & rest & Es & Elen & Hpre & Hc).
    assert (L := find_last_not_of_spec Driver.trim_set s).
    destruct (find_last_not_of s Driver.trim_set) as [e |].
    + destruct L as (init & c' & post & Es' & Elen' & Hpost & Hc').
      (* the last position is not before the first *)
      assert (Hle : (start <= e)%nat).
      { destruct (Nat.le_gt_cases start e) as [H | H]; [exact H |].
        exfalso.
        assert (Hn : nth e s " "%char = c').
        { rewrite Es'. rewrite app_nth2 by lia.
          replace (e - List.length init)%nat with 0%nat by lia. reflexivity. }
        assert (Hin : In c' pre).
        { rewrite <- Hn, Es. rewrite app_nth1 by lia.
          apply nth_In. lia. }
        unfold all_in in Hpre. rewrite Forall_forall in Hpre.
        apply Hpre in Hin. congruence. }
      (* [init] begins with [pre] *)
      assert (Ei : init = pre ++ skipn start init).
      { rewrite <- (firstn_skipn start init) at 1. f_equal.
        assert (E1 : firstn start s = pre).
        { rewrite Es, <- Elen. apply firstn_exact. }
        rewrite <- E1, Es'. rewrite firstn_app.
        replace (start - List.length init)%nat with 0%nat by lia.
        simpl. now rewrite app_nil_r. }
      set (mid := skipn start init) in *.
      assert (Elm : List.length mid = (e - start)%nat).
      { unfold mid. rewrite length_skipn. lia. }
      exists pre, post.
      assert (Ecore : substr s start (e - start + 1) = mid ++ [c']).
      { unfold substr. rewrite Es', Ei, <- app_assoc.
        rewrite <- Elen, skipn_exact.
        replace (e - List.length pre + 1)%nat with (List.length (mid ++ [c']))
          by (rewrite length_app; simpl; lia).
        change (c' :: post) with ([c'] ++ post). rewrite app_assoc.
        apply firstn_exact. }
      rewrite Ecore. split.
      { rewrite Es' at 1. rewrite Ei at 1.
        rewrite <- !app_assoc. reflexivity. }
      split; [exact Hpre |]. split; [exact Hpost |].
      (* the first character of the core is [c] *)
      assert (Hhd : exists tl, mid ++ [c'] = c :: tl).
      { assert (E2 : pre ++ c :: rest = pre ++ (mid ++ [c']) ++ post).
        { rewrite <- Es. rewrite Es' at 1. rewrite Ei at 1.
          rewrite <- !app_assoc. reflexivity. }
        apply app_inv_head in E2.
        destruct (mid ++ [c']) as [| a tl] eqn:Em.
        - destruct mid; discriminate.
        - inversion E2. now exists tl. }
      destruct Hhd as [tl Ehd]. unfold trimmed. rewrite Ehd.
      split; [exact Hc |]. rewrite <- Ehd, last_last. exact Hc'.
    + exfalso. unfold all_in in L. rewrite Forall_forall in L.
      assert (Hin : In c s) by (rewrite Es; apply in_elt).
      apply L in Hin. congruence.
  - exists s, []. simpl. rewrite app_nil_r. repeat split; auto. constructor.
Qed.

(** X8.  [trim] of the driver removes the blanks, tabs, carriage returns and
    line feeds around a string and nothing else: the input is the result
    with such characters before and after it, and the result neither begins
    nor ends with one; a string made of such characters only becomes empty;
    trimming twice is trimming once; and whatever is already trimmed comes
    back unchanged from any padding. *)
Theorem trim_spec (s : cstring) :
  (exists pre post,
     s = pre ++ Driver.trim s ++ post /\
     all_in Driver.trim_set pre /\ all_in Driver.trim_set post /\
     trimmed (Driver.trim s)) /\
  (Driver.trim s = [] <-> all_in Driver.trim_set s) /\
  Driver.trim (Driver.trim s) = Driver.trim s /\
  (forall pre core post,
     all_in Driver.trim_set pre -> all_in Driver.trim_set post ->
     trimmed core -> Driver.trim (pre ++ core ++ post) = core).
Proof.
  destruct (trim_decompose s) as (pre & post & Es & Hpre & Hpost & Ht).
  split; [exists pre, post; auto |].
  split.
  { split.
    - intros E. rewrite E in Es. simpl in Es. rewrite Es.
      apply Forall_app. split; assumption.
    - intros Hall. unfold Driver.trim.
      now rewrite (find_first_not_of_all _ _ Hall). }
  split.
  { generalize (trim_core [] (Driver.trim s) [] (Forall_nil _) (Forall_nil _) Ht).
    simpl. now rewrite app_nil_r. }
  intros. apply trim_core; assumption.
Qed.

(** ** Debug requests *)

Lemma tolower_isspace (c : ascii) : isspace (tolower c) = isspace c.
Proof. destruct c as [[] [] [] [] [] [] [] []]; reflexivity. Qed.

Lemma trim_set_isspace (c : ascii) :
  isspace c = false -> char_in c Driver.trim_set = false.
Proof. destruct c as [[] [] [] [] [] [] [] []]; vm_compute; congruence. Qed.

Lemma is_word_to_lower (w : cstring) : is_word w -> is_word (to_lower w).
Proof.
  intros [Hne Hw]. split.
  - destruct w; [contradiction | discriminate].
  - unfold to_lower. rewrite Forall_map.
    eapply Forall_impl; [| exact Hw]. intros c Hc.
    now rewrite tolower_isspace.
Qed.

Lemma skip_space_app (sep l : cstring) :
  all_space sep -> skip_space (sep ++ l) = skip_space l.
Proof.
  induction 1 as [| c sep Hc _ IH]; simpl; [reflexivity |].
  now rewrite Hc.
Qed.

Lemma skip_space_word (w l : cstring) :
  is_word w -> skip_space (w ++ l) = w ++ l.
Proof.
  intros [Hne Hw]. destruct w as [| c w]; [contradiction |].
  inversion Hw; subst. simpl. now rewrite H1.
Qed.

Lemma read_word_app (w l : cstring) :
  Forall (fun c => isspace c = false) w ->
  read_word (w ++ l) = (w ++ fst (read_word l), snd (read_word l)).
Proof.
  induction 1 as [| c w Hc _ IH]; simpl.
  - now destruct (read_word l).
  - rewrite Hc, IH. reflexivity.
Qed.

Lemma read_word_space (sep l : cstring) :
  sep <> [] -> all_space sep -> read_word (sep ++ l) = ([], sep ++ l).
Proof.
  intros Hne Hs. destruct sep as [| c sep]; [contradiction |].
  inversion Hs; subst. simpl. now rewrite H1.
Qed.

(** A lone word is read whole and leaves nothing. *)
Lemma extract_word_alone (w : cstring) :
  is_word w -> extract_word w = (w, []).
Proof.
  intros Hw. unfold extract_word.
  rewrite <- (app_nil_r w) at 1. rewrite (skip_space_word w [] Hw).
  rewrite read_word_app by apply Hw. simpl. now rewrite app_nil_r.
Qed.

(** A word followed by white space is read up to the white space. *)
Lemma extract_word_first (w sep l : cstring) :
  is_word w -> sep <> [] -> all_space sep ->
  extract_word (w ++ sep ++ l) = (w, sep ++ l).
Proof.
  intros Hw Hne Hs. unfold extract_word.
  rewrite (skip_space_word w _ Hw).
  rewrite read_word_app by apply Hw.
  rewrite (read_word_space sep l Hne Hs). simpl. now rewrite app_nil_r.
Qed.

Lemma extract_word_second (sep a : cstring) :
  all_space sep -> is_word a -> extract_word (sep ++ a) = (a, []).
Proof.
  intros Hs Ha. unfold extract_word. rewrite skip_space_app by exact Hs.
  apply extract_word_alone in Ha. exact Ha.
Qed.

Lemma extract_word_nil : extract_word [] = ([], []).
Proof. reflexivity. Qed.

Lemma is_word_trimmed (w l : cstring) (a : cstring) :
  is_word w -> is_word a -> trimmed (w ++ l ++ a).
Proof.
  intros [Hnw Hw] [Hna Ha]. unfold trimmed.
  destruct w as [| c w]; [contradiction |]. simpl app.
  split.
  - inversion Hw; subst. now apply trim_set_isspace.
  - destruct (exists_last Hna) as (init & z & ->).
    change (c :: w ++ l ++ init ++ [z]) with ((c :: w) ++ l ++ init ++ [z]).
    rewrite !app_assoc. rewrite last_last.
    apply trim_set_isspace. rewrite Forall_app in Ha.
    destruct Ha as [_ Ha]. now inversion Ha.
Qed.

Lemma is_word_trimmed_alone (w : cstring) : is_word w -> trimmed w.
Proof.
  intros Hw.
  destruct (exists_last (proj1 Hw)) as (init & z & E).
  destruct init as [| c init].
  - simpl in E. subst w. unfold trimmed. simpl last.
    destruct Hw as [_ Hw]. inversion Hw; subst.
    split; now apply trim_set_isspace.
  - assert (Hi : is_word (c :: init)).
    { split; [discriminate |]. destruct Hw as [_ Hw]. rewrite E in Hw.
      rewrite Forall_app in Hw. apply Hw. }
    assert (Hz : is_word [z]).
    { split; [discriminate |]. destruct Hw as [_ Hw]. rewrite E in Hw.
      rewrite Forall_app in Hw. apply Hw. }
    rewrite E. generalize (is_word_trimmed (c :: init) [] [z] Hi Hz).
    simpl. auto.
Qed.

(** What [DebugRequest] does depends on the request only through the
    lower-case command word and the argument word. *)
Lemma DebugRequest_parsed stof req1 req2 hb g :
  Driver.trim req1 <> [] -> Driver.trim req2 <> [] ->
  to_lower (fst (extract_word (Driver.trim req1)))
  = to_lower (fst (extract_word (Driver.trim req2))) ->
  fst (extract_word (snd (extract_word (Driver.trim req1))))
  = fst (extract_word (snd (extract_word (Driver.trim req2)))) ->
  Driver.DebugRequest stof (Some req1) hb g
  = Driver.DebugRequest stof (Some req2) hb g.
Proof.
  intros H1 H2 Hc Ha. unfold Driver.DebugRequest.
  destruct (Driver.trim req1) as [| c1 r1]; [contradiction |].
  destruct (Driver.trim req2) as [| c2 r2]; [contradiction |].
  destruct (extract_word (c1 :: r1)) as [cmd1 left1].
  destruct (extract_word (c2 :: r2)) as [cmd2 left2].
  cbn [fst snd] in Hc, Ha.
  destruct (extract_word left1) as [arg1 l1].
  destruct (extract_word left2) as [arg2 l2].
  cbn [fst snd] in Ha. rewrite Hc, Ha. reflexivity.
Qed.

(** The request in its normal form: the command word in lower case, one
    blank, the argument word. *)
Lemma DebugRequest_words (stof : cstring -> option R)
    (pre cmd sep arg post : cstring) (hasBuffer : bool)
    (g : Driver.Settings) :
  all_in Driver.trim_set pre -> all_in Driver.trim_set post ->
  is_word cmd -> is_word arg -> sep <> [] -> all_space sep ->
  Driver.DebugRequest stof (Some (pre ++ (cmd ++ sep ++ arg) ++ post))
                      hasBuffer g
  = Driver.DebugRequest stof (Some (to_lower cmd ++ str " " ++ arg))
                        hasBuffer g /\
  Driver.DebugRequest stof (Some (pre ++ cmd ++ post)) hasBuffer g
  = Driver.DebugRequest stof (Some (to_lower cmd)) hasBuffer g.
Proof.
  intros Hpre Hpost Hcmd Harg Hne Hsep.
  assert (Hlow := is_word_to_lower cmd Hcmd).
  assert (Hsp : all_space (str " ")) by (repeat constructor).
  assert (Hnil : all_in Driver.trim_set []) by constructor.
  assert (T1 : Driver.trim (pre ++ (cmd ++ sep ++ arg) ++ post)
               = cmd ++ sep ++ arg)
    by (apply trim_core; auto using is_word_trimmed).
  assert (T2 : Driver.trim (to_lower cmd ++ str " " ++ arg)
               = to_lower cmd ++ str " " ++ arg).
  { generalize (trim_core [] (to_lower cmd ++ str " " ++ arg) [] Hnil Hnil
                          (is_word_trimmed _ _ _ Hlow Harg)).
    simpl. now rewrite !app_nil_r. }
  assert (T3 : Driver.trim (pre ++ cmd ++ post) = cmd)
    by (apply trim_core; auto using is_word_trimmed_alone).
  assert (T4 : Driver.trim (to_lower cmd) = to_lower cmd).
  { generalize (trim_core [] (to_lower cmd) [] Hnil Hnil
                          (is_word_trimmed_alone _ Hlow)).
    simpl. now rewrite !app_nil_r. }
  assert (N1 : forall l, cmd ++ l <> [])
    by (intros l E; apply app_eq_nil in E; destruct Hcmd; tauto).
  assert (N2 : forall l, to_lower cmd ++ l <> [])
    by (intros l E; apply app_eq_nil in E; destruct Hlow; tauto).
  assert (Hne' : str " " <> []) by (vm_compute; discriminate).
  assert (E1 := extract_word_first cmd sep arg Hcmd Hne Hsep).
  assert (E2 := extract_word_first (to_lower cmd) (str " ") arg
                                   Hlow Hne' Hsp).
  split.
  - apply DebugRequest_parsed; rewrite ?T1, ?T2; auto.
    + rewrite E1, E2. simpl. symmetry. apply to_lower_idempotent.
    + rewrite E1, E2. cbn [fst snd].
      now rewrite !extract_word_second.
  - assert (E3 := extract_word_alone cmd Hcmd).
    assert (E4 := extract_word_alone (to_lower cmd) Hlow).
    apply DebugRequest_parsed; rewrite ?T3, ?T4.
    + apply Hcmd.
    + apply Hlow.
    + rewrite E3, E4. simpl. symmetry. apply to_lower_idempotent.
    + rewrite E3, E4. reflexivity.
Qed.


(** X9.  A debug request is read as a command word and an argument word:
    the white space around the request, the amount of white space between
    the two words and the case of the command word make no difference to the
    settings stored and to the response, with an argument and without
    one. *)
Theorem DebugRequest_normal_form (stof : cstring -> option R)
    (pre cmd sep arg post : cstring) (hasBuffer : bool)
    (g : Driver.Settings)
    (Hpre : all_in Driver.trim_set pre)
    (Hpost : all_in Driver.trim_set post)
    (Hcmd : is_word cmd) (Harg : is_word arg)
    (Hsep : sep <> [] /\ all_space sep) :
  Driver.DebugRequest stof (Some (pre ++ (cmd ++ sep ++ arg) ++ post))
                      hasBuffer g
  = Driver.DebugRequest stof (Some (to_lower cmd ++ str " " ++ arg))
                        hasBuffer g /\
  Driver.DebugRequest stof (Some (pre ++ cmd ++ post)) hasBuffer g
  = Driver.DebugRequest stof (Some (to_lower cmd)) hasBuffer g.
Proof.
  destruct Hsep as [Hne Hsep].
  destruct (DebugRequest_words stof pre cmd sep arg post hasBuffer g
              Hpre Hpost Hcmd Harg Hne Hsep) as [Two One].
  split; [exact Two | exact One].
Qed.

Lemma DebugRequest_normal_form_witness :
  Driver.DebugRequest (fun _ => Some 2)
    (Some (str "  " ++ (str "SPEED" ++ [" "; "009"]%char ++ str "2")
           ++ ["013"; "010"]%char)) true Driver.Settings_init
  = Driver.DebugRequest (fun _ => Some 2)
      (Some (to_lower (str "SPEED") ++ str " " ++ str "2")) true
      Driver.Settings_init /\
  Driver.DebugRequest (fun _ => Some 2)
    (Some (str "  " ++ str "SPEED" ++ ["013"; "010"]%char)) true
    Driver.Settings_init
  = Driver.DebugRequest (fun _ => Some 2) (Some (to_lower (str "SPEED")))
      true Driver.Settings_init.
Proof.
  apply (DebugRequest_normal_form (fun _ => Some 2) (str "  ") (str "SPEED")
           [" "; "009"]%char (str "2") ["013"; "010"]%char true
           Driver.Settings_init).
  - repeat constructor.
  - repeat constructor.
  - split; [discriminate | repeat constructor].
  - split; [discriminate | repeat constructor].
  - split; [discriminate | repeat constructor].
Defined.

Lemma trim_word (w : cstring) : is_word w -> Driver.trim w = w.
Proof.
  intros Hw.
  generalize (trim_core [] w [] (Forall_nil _) (Forall_nil _)
                        (is_word_trimmed_alone w Hw)).
  simpl. now rewrite app_nil_r.
Qed.

(** X10.  The command [debug], in any case and with any white space around
    it, switches the debug flag on exactly when its argument is, in any
    case, [true], [1] or [on]; every other argument, and no argument at all,
    switches it off.  The two factors are left alone, and the response
    reports the flag as it now is. *)
Theorem debug_command (stof : cstring -> option R)
    (pre cmd sep arg post : cstring) (hasBuffer : bool)
    (g : Driver.Settings)
    (Hpre : all_in Driver.trim_set pre)
    (Hpost : all_in Driver.trim_set post)
    (Hcmd : to_lower cmd = str "debug")
    (Hsep : sep <> [] /\ all_space sep)
    (Harg : is_word arg) :
  Driver.DebugRequest stof (Some (pre ++ (cmd ++ sep ++ arg) ++ post))
                      hasBuffer g
  = (Driver.mkSettings (means_on (to_lower arg)) (Driver.g_speedFactor g)
                       (Driver.g_smoothingFactor g),
     if hasBuffer then Some (Driver.DebugIs (means_on (to_lower arg)))
     else None) /\
  Driver.DebugRequest stof (Some (pre ++ cmd ++ post)) hasBuffer g
  = (Driver.mkSettings false (Driver.g_speedFactor g)
                       (Driver.g_smoothingFactor g),
     if hasBuffer then Some (Driver.DebugIs false) else None).
Proof.
  assert (Hw : is_word cmd).
  { split.
    - intros ->. discriminate.
    - assert (H : Forall (fun c => isspace c = false) (to_lower cmd))
        by (rewrite Hcmd; repeat constructor).
      unfold to_lower in H. rewrite Forall_map in H.
      eapply Forall_impl; [| exact H]. intros c Hc.
      cbv beta in Hc. now rewrite <- tolower_isspace. }
  destruct (DebugRequest_words stof pre cmd sep arg post hasBuffer g
              Hpre Hpost Hw Harg (proj1 Hsep) (proj2 Hsep)) as [E1 E2].
  rewrite E1, E2, Hcmd. clear E1 E2.
  assert (Hd : is_word (str "debug"))
    by (split; [discriminate | repeat constructor]).
  assert (Hsp : all_space (str " ")) by repeat constructor.
  split.
  - unfold Driver.DebugRequest.
    assert (T : Driver.trim (str "debug" ++ str " " ++ arg)
                = str "debug" ++ str " " ++ arg).
    { generalize (trim_core [] (str "debug" ++ str " " ++ arg) []
                            (Forall_nil _) (Forall_nil _)
                            (is_word_trimmed _ _ _ Hd Harg)).
      simpl. now rewrite !app_nil_r. }
    rewrite T.
    assert (X : extract_word (str "debug" ++ str " " ++ arg)
                = (str "debug", str " " ++ arg)).
    { apply extract_word_first; auto. vm_compute; discriminate. }
    change (str "debug" ++ str " " ++ arg)
      with ("d"%char :: (str "ebug" ++ str " " ++ arg)) in *.
    cbv zeta. rewrite X. rewrite (extract_word_second _ _ Hsp Harg).
    change (cstring_eqb (to_lower (str "debug")) (str "debug")) with true.
    cbv iota. unfold Driver.SetDebugFromString.
    rewrite (trim_word arg Harg). fold (means_on (to_lower arg)).
    destruct (means_on (to_lower arg)); reflexivity.
  - unfold Driver.DebugRequest. rewrite (trim_word _ Hd).
    reflexivity.
Qed.

Lemma debug_command_witness :
  Driver.DebugRequest (fun _ => None)
    (Some (str " " ++ (str "Debug" ++ str "  " ++ str "ON") ++ str " "))
    true (Driver.mkSettings false 1 (3 / 10))
  = (Driver.mkSettings (means_on (to_lower (str "ON"))) 1 (3 / 10),
     Some (Driver.DebugIs (means_on (to_lower (str "ON"))))) /\
  Driver.DebugRequest (fun _ => None)
    (Some (str " " ++ str "Debug" ++ str " ")) true
    (Driver.mkSettings false 1 (3 / 10))
  = (Driver.mkSettings false 1 (3 / 10), Some (Driver.DebugIs false)).
Proof.
  apply (debug_command (fun _ => None) (str " ") (str "Debug") (str "  ")
           (str "ON") (str " ") true (Driver.mkSettings false 1 (3 / 10))).
  - repeat constructor.
  - repeat constructor.
  - reflexivity.
  - split; [discriminate | repeat constructor].
  - split; [discriminate | repeat constructor].
Defined.

(** ** The settings in any run of the driver *)

Lemma load_factors_ok hs sok vs mok vm g :
  settings_ok g -> settings_ok (Driver.load_factors hs sok vs mok vm g).
Proof.
  unfold settings_ok, Driver.load_factors, Rgtb. intros [H1 H2].
  destruct hs; [| auto].
  destruct sok; cbn [andb];
    [destruct (Rgt_dec vs 0) |];
    (destruct mok; cbn [andb];
     [destruct (Rge_dec vm 0); destruct (Rle_dec vm 1) |]);
    simpl; lra.
Qed.

Lemma SetDebugFromString_factors s g :
  Driver.g_speedFactor (Driver.SetDebugFromString s g)
  = Driver.g_speedFactor g /\
  Driver.g_smoothingFactor (Driver.SetDebugFromString s g)
  = Driver.g_smoothingFactor g.
Proof.
  unfold Driver.SetDebugFromString. destruct s as [s |]; [| auto].
  match goal with |- context [if ?b then _ else _] => destruct b end;
    simpl; auto.
Qed.

Lemma DebugRequest_response stof req hb g :
  match snd (Driver.DebugRequest stof req hb g) with
  | Some r => hb = true /\
              response_holds g (fst (Driver.DebugRequest stof req hb g)) r
  | None => hb = false
  end.
Proof.
  unfold Driver.DebugRequest.
  destruct (Driver.trim match req with Some r => r | None => [] end)
    as [| c rest].
  { destruct hb; simpl; auto. }
  destruct (extract_word (c :: rest)) as [cmd left].
  destruct (extract_word left) as [arg left'].
  destruct (cstring_eqb (to_lower cmd) (str "debug")).
  { destruct hb; cbn [fst snd]; auto. split; [reflexivity |].
    unfold response_holds. split; [reflexivity |].
    apply SetDebugFromString_factors. }
  destruct (cstring_eqb (to_lower cmd) (str "speed")).
  { destruct (stof arg) as [v |]; [destruct (Rgt_dec v 0) |];
      destruct hb; cbn [fst snd]; try reflexivity;
      (split; [reflexivity |]); unfold response_holds;
      try reflexivity; split; [lra | reflexivity]. }
  destruct (cstring_eqb (to_lower cmd) (str "smoothing")).
  { destruct (stof arg) as [v |];
      [destruct (Rge_dec v 0); [destruct (Rle_dec v 1) |] |];
      destruct hb; cbn [fst snd]; try reflexivity;
      (split; [reflexivity |]); unfold response_holds;
      try reflexivity; split; [lra | reflexivity]. }
  destruct hb; [split; reflexivity | reflexivity].
Qed.

Lemma DebugRequest_silent stof req g :
  fst (Driver.DebugRequest stof req false g)
  = fst (Driver.DebugRequest stof req true g).
Proof.
  unfold Driver.DebugRequest.
  destruct (Driver.trim match req with Some r => r | None => [] end)
    as [| c rest]; [reflexivity |].
  destruct (extract_word (c :: rest)) as [cmd left].
  destruct (extract_word left) as [arg left'].
  repeat match goal with
         | |- context [if ?b then _ else _] => destruct b
         | |- context [match stof ?a with _ => _ end] => destruct (stof a)
         end; reflexivity.
Qed.

Lemma response_holds_ok g g' r :
  settings_ok g -> response_holds g g' r -> settings_ok g'.
Proof.
  unfold settings_ok, response_holds. intros [H1 H2].
  destruct r; intros H; try (rewrite H; auto).
  - destruct H as (_ & -> & ->). auto.
  - destruct H as [Hv ->]. simpl. auto.
  - destruct H as [Hv ->]. simpl. auto.
Qed.

Lemma DebugRequest_ok stof req hb g :
  settings_ok g -> settings_ok (fst (Driver.DebugRequest stof req hb g)).
Proof.
  intros Hg.
  assert (E : fst (Driver.DebugRequest stof req hb g)
              = fst (Driver.DebugRequest stof req true g))
    by (destruct hb; [reflexivity | apply DebugRequest_silent]).
  rewrite E.
  generalize (DebugRequest_response stof req true g).
  destruct (snd (Driver.DebugRequest stof req true g)) as [r |].
  - intros [_ H]. eapply response_holds_ok; eauto.
  - discriminate.
Qed.

(** X11.  A debug request answers truthfully and changes nothing it does
    not report: a response is written exactly when there is a buffer, and
    what it says holds of the settings after the request.  A reported speed
    is positive and is now the speed factor, a reported smoothing is in
    [[0, 1]] and is now the smoothing factor, the reported debug flag is the
    flag, and in each case the other settings are as before; after "No
    request", "Invalid SPEED", "Invalid SMOOTHING" and "Unknown command" all
    settings are as before.  Whether there is a buffer makes no difference
    to the settings. *)
Theorem DebugRequest_answers_truthfully :
  forall (stof : cstring -> option R) (pchRequest : option cstring)
         (hasBuffer : bool) (g : Driver.Settings),
    match snd (Driver.DebugRequest stof pchRequest hasBuffer g) with
    | Some r =>
        hasBuffer = true /\
        response_holds g
          (fst (Driver.DebugRequest stof pchRequest hasBuffer g)) r
    | None => hasBuffer = false
    end /\
    fst (Driver.DebugRequest stof pchRequest false g)
    = fst (Driver.DebugRequest stof pchRequest true g).
Proof.
  intros. split; [apply DebugRequest_response | apply DebugRequest_silent].
Qed.

Lemma driver_OnOmniData_pads alpha clock ring px py st :
  0 <= alpha <= 1 -> driver_pads_bounded st ->
  driver_pads_bounded (Driver.OnOmniData alpha clock ring px py st).
Proof.
  unfold driver_pads_bounded, Driver.OnOmniData. cbn.
  intros Ha (_ & _ & Hx & Hy).
  pose proof (clamp_range ((IZR px - 127) / 127)) as Cx.
  pose proof (clamp_range (- (IZR py - 127) / 127)) as Cy.
  repeat split; try lra; nra.
Qed.

Lemma driver_run_invariant stof events s :
  settings_ok (fst s) -> driver_pads_bounded (snd s) ->
  settings_ok (fst (fold_left (driver_step stof) events s)) /\
  driver_pads_bounded (snd (fold_left (driver_step stof) events s)).
Proof.
  revert s. induction events as [| ev rest IH]; intros [g st] Hg Hst;
    [split; assumption |].
  cbn [fold_left]. apply IH; destruct ev; cbn [driver_step fst snd] in *;
    auto using load_factors_ok, DebugRequest_ok.
  apply driver_OnOmniData_pads; [apply Hg | exact Hst].
Qed.

Lemma DebugRequest_speed_finite stof req hb g :
  (forall s v, stof s = Some v -> finite32 v) ->
  finite32 (Driver.g_speedFactor g) ->
  finite32 (Driver.g_speedFactor (fst (Driver.DebugRequest stof req hb g))).
Proof.
  intros Hstof Hg.
  assert (E : fst (Driver.DebugRequest stof req hb g)
              = fst (Driver.DebugRequest stof req true g))
    by (destruct hb; [reflexivity | apply DebugRequest_silent]).
  rewrite E.
  generalize (DebugRequest_response stof req true g).
  destruct (snd (Driver.DebugRequest stof req true g)) as [r |] eqn:Er;
    [| discriminate].
  intros [_ H]. destruct r; cbn [response_holds] in H;
    try (rewrite H; exact Hg).
  - destruct H as (_ & -> & _). exact Hg.
  - destruct H as [_ ->]. cbn [Driver.g_speedFactor].
    (* the reported speed is what [std::stof] returned *)
    revert Er. unfold Driver.DebugRequest.
    destruct (Driver.trim match req with Some r => r | None => [] end)
      as [| c rest]; [discriminate |].
    destruct (extract_word (c :: rest)) as [cmd left].
    destruct (extract_word left) as [arg left'].
    destruct (cstring_eqb (to_lower cmd) (str "debug")); [discriminate |].
    destruct (cstring_eqb (to_lower cmd) (str "speed")).
    + destruct (stof arg) as [w |] eqn:Ew; [| discriminate].
      destruct (Rgt_dec w 0); [| discriminate].
      cbn [snd]. intros Eq. inversion Eq; subst. exact (Hstof arg v Ew).
    + destruct (cstring_eqb (to_lower cmd) (str "smoothing"));
        [| discriminate].
      destruct (stof arg) as [w |]; [| discriminate].
      destruct (Rge_dec w 0); [| discriminate].
      destruct (Rle_dec w 1); discriminate.
  - destruct H as [_ ->]. exact Hg.
Qed.

Lemma load_factors_speed_finite hs sok vs mok vm g :
  finite32 vs -> finite32 (Driver.g_speedFactor g) ->
  finite32 (Driver.g_speedFactor (Driver.load_factors hs sok vs mok vm g)).
Proof.
  intros Hvs Hg. unfold Driver.load_factors.
  destruct hs; [| exact Hg].
  destruct (andb sok (Rgtb vs 0)); destruct (andb mok _);
    cbn [Driver.g_speedFactor]; assumption.
Qed.

Lemma driver_run_finite stof events :
  (forall s v, stof s = Some v -> finite32 v) ->
  Forall finite_event events ->
  finite32 (Driver.g_speedFactor (fst (driver_run stof events))).
Proof.
  intros Hstof Hev. unfold driver_run.
  assert (G : forall s,
             finite32 (Driver.g_speedFactor (fst s)) ->
             finite32 (Driver.g_speedFactor
                         (fst (fold_left (driver_step stof) events s)))).
  { induction Hev as [| ev events Hfin _ IH]; intros [g st] Hg; [exact Hg |].
    cbn [fold_left]. apply IH.
    destruct ev; cbn [driver_step fst] in *.
    - apply load_factors_speed_finite; [apply Hfin | exact Hg].
    - apply DebugRequest_speed_finite; assumption.
    - exact Hg. }
  apply G. cbn. apply finite32_small. lra.
Qed.

(** X12.  In any run of the driver in which the settings store and
    [std::stof] deliver finite numbers only (or [std::stof] throws) -
    settings loaded, debug requests, samples with any ring angle and pad
    values, in any order - the speed factor stays positive and the smoothing
    factor stays in [[0, 1]], the raw and the smoothed pad values stay in
    [[-1, 1]], and every value [UpdateInputs] then hands to
    [UpdateScalarComponent] is in [[-1, 1]], goes to a handle that is not
    the invalid one, and is sent only while the device is active; there are
    at most two such calls a frame. *)
Theorem driver_run_safe
    (stof : cstring -> option R) (events : list DriverEvent)
    (Hstof : forall s v, stof s = Some v -> finite32 v)
    (Hevents : Forall finite_event events) :
    settings_ok (fst (driver_run stof events)) /\
    finite32 (Driver.g_speedFactor (fst (driver_run stof events))) /\
    driver_pads_bounded (snd (driver_run stof events)) /\
    forall (invalid : Z) (is_active_ : bool) (handle_x handle_y : Z),
      let calls :=
        Driver.UpdateInputs invalid is_active_ handle_x handle_y
                            (fst (driver_run stof events))
                            (snd (driver_run stof events)) in
      (List.length calls <= 2)%nat /\
      (is_active_ = false -> calls = []) /\
      forall h v, In (h, v) calls -> h <> invalid /\ -1 <= v <= 1.
Proof.
  destruct (driver_run_invariant stof events
              (Driver.Settings_init, Driver.g_state_init)) as [Hg Hst].
  { unfold settings_ok. simpl. lra. }
  { unfold driver_pads_bounded. simpl. lra. }
  fold (driver_run stof events) in Hg, Hst.
  split; [exact Hg |].
  split; [apply driver_run_finite; assumption |].
  split; [exact Hst |].
  intros invalid act hx hy. unfold Driver.UpdateInputs.
  destruct act; cbn [negb].
  - cbv zeta. split; [| split; [discriminate |]].
    + destruct (hx =? invalid)%Z, (hy =? invalid)%Z; simpl; lia.
    + intros h v Hin. apply in_app_or in Hin.
      destruct Hin as [Hin | Hin];
        [destruct (Z.eqb_spec hx invalid) | destruct (Z.eqb_spec hy invalid)];
        simpl in Hin; try contradiction;
        destruct Hin as [Hin | []]; inversion Hin; subst;
        (split; [assumption | apply clamp_range]).
  - cbv zeta. split; [simpl; lia |]. split; [reflexivity |].
    intros h v [].
Qed.

Lemma driver_run_safe_witness :
  settings_ok
    (fst (driver_run (fun _ => Some 2)
            [EvLoad true true 2 true (1 / 2);
             EvRequest (Some (str "speed 2")) true;
             EvSample (mkSample 0 90 255 0)])).
Proof.
  refine (proj1 (driver_run_safe (fun _ => Some 2)
                   [EvLoad true true 2 true (1 / 2);
                    EvRequest (Some (str "speed 2")) true;
                    EvSample (mkSample 0 90 255 0)] _ _)).
  - intros s v E. inversion E; subst. apply finite32_small. lra.
  - apply Forall_cons; [apply finite32_small; lra |].
    apply Forall_cons; [exact I |].
    apply Forall_cons; [exact I | apply Forall_nil].
Defined.

(** ** The wrapper as seen by the game *)

Lemma analog_switch_changes mode tx ty act d :
  analog_switch mode tx ty act d <> d -> act = true \/ mode = Additive.
Proof.
  intros H. destruct mode; [| now right |];
    (destruct act; [now left | exfalso; apply H; reflexivity]).
Qed.

Lemma upd_nth_length i a l : List.length (upd_nth i a l) = List.length l.
Proof.
  revert i. induction l as [| b l IH]; intros [| i]; simpl; auto.
Qed.

Lemma upd_nth_other i j a l d : i <> j -> nth j (upd_nth i a l) d = nth j l d.
Proof.
  revert i j. induction l as [| b l IH]; intros [| i] [| j] H; simpl; auto;
    try contradiction.
Qed.

Lemma legacy_switch_frame mode tx ty c :
  unPacketNum (legacy_switch mode tx ty c) = unPacketNum c /\
  ulButtonPressed (legacy_switch mode tx ty c) = ulButtonPressed c /\
  ulButtonTouched (legacy_switch mode tx ty c) = ulButtonTouched c /\
  List.length (rAxis (legacy_switch mode tx ty c)) = List.length (rAxis c) /\
  forall i, i <> k_EControllerAxis_Joystick ->
            axis_at (legacy_switch mode tx ty c) i = axis_at c i.
Proof.
  destruct mode; unfold legacy_switch, set_axis, axis_at;
    cbn [unPacketNum ulButtonPressed ulButtonTouched rAxis];
    (split; [reflexivity |]); (split; [reflexivity |]);
    (split; [reflexivity |]);
    (split; [now rewrite !upd_nth_length |]);
    intros i Hi; rewrite !upd_nth_other by congruence; reflexivity.
Qed.

Lemma analog_switch_frame mode tx ty act d :
  let d' := analog_switch mode tx ty act d in
  activeOrigin d' = activeOrigin d /\ a_z d' = a_z d /\
  deltaX d' = deltaX d /\ deltaY d' = deltaY d /\ deltaZ d' = deltaZ d /\
  fUpdateTime d' = fUpdateTime d /\
  (bActive d = true -> bActive d' = true) /\
  (act = true -> bActive d' = true).
Proof.
  destruct mode, act; cbn; repeat split; auto; discriminate.
Qed.

Ltac passthrough :=
  cbn [fst snd];
  split; [reflexivity |];
  split; [intros; first [reflexivity | discriminate] |];
  let H := fresh in intros H; exfalso; apply H; reflexivity.

(** X13.  The wrapper never changes what the real OpenVR functions return
    as their result, and it changes the data they wrote only on purpose.
    The analog data of an action differ from the real ones only if the
    treadmill is connected, the real call succeeded, the action is recorded
    as a movement action, and the treadmill is moving or the mode is
    Additive.  The legacy controller state differs only if the treadmill is
    connected, the real call succeeded, the treadmill is moving, and the
    controller passes the target filter.  Null data pointers stay null, and
    [GetControllerStateWithPose] is treated exactly like
    [GetControllerState]. *)
Theorem wrapper_alters_only_on_purpose :
  forall (g_config : Config) (bridge : OmniBridge)
         (st : TreadmillState) (m : ActionMap),
    (forall action result data dev,
       let r := Wrapped_GetAnalogActionData g_config bridge st m
                                            action result data dev in
       fst r = result /\
       (data = None -> snd r = None) /\
       (snd r <> data ->
        IsConnected bridge = true /\ result = VRInputError_None /\
        map_find m action = Some true /\
        (treadmillActive2 (x st) (y st) = true \/
         inputMode g_config = Additive))) /\
    (forall index result state,
       let r := Wrapped_GetControllerState g_config bridge st
                                           index result state in
       fst r = result /\
       (state = None -> snd r = None) /\
       (snd r <> state ->
        IsConnected bridge = true /\ result = true /\
        treadmillActive2 (x st) (y st) = true /\
        ((targetControllerIndex g_config < 0)%Z \/
         cast_u32_to_int index = targetControllerIndex g_config))) /\
    (forall eOrigin index result state,
       Wrapped_GetControllerStateWithPose g_config bridge st eOrigin index
                                          result state
       = Wrapped_GetControllerState g_config bridge st index result state).
Proof.
  intros g_config bridge st m. split; [| split].
  - intros action result data dev.
    unfold Wrapped_GetAnalogActionData.
    destruct data as [d |]; cbn zeta; [| passthrough].
    destruct (Z.eqb_spec result VRInputError_None) as [Er | Er];
      [| passthrough].
    destruct (map_find m action) as [[|] |];
      destruct (IsConnected bridge); cbn [andb]; try passthrough.
    cbn [fst snd]. split; [reflexivity |]. split; [discriminate |].
    intros H. repeat (split; [reflexivity || assumption |]).
    apply (analog_switch_changes (inputMode g_config) (x st) (y st)
                                 _ d).
    intros E. apply H. now rewrite E.
  - intros index result state.
    unfold Wrapped_GetControllerState.
    destruct state as [c |]; cbn zeta; [| passthrough].
    destruct result, (IsConnected bridge); cbn [andb]; try passthrough.
    destruct (Z.leb_spec 0 (targetControllerIndex g_config)) as [Ht | Ht];
      [destruct (Z.eqb_spec (cast_u32_to_int index)
                            (targetControllerIndex g_config)) as [Ei | Ei] |];
      cbn [andb negb]; try passthrough;
      (destruct (treadmillActive2 (x st) (y st)); [| passthrough]);
      cbn [fst snd]; (split; [reflexivity |]); (split; [discriminate |]);
      intros _; repeat (split; [reflexivity |]); auto.
  - intros. reflexivity.
Qed.

(** X14.  What the wrapper writes when it does inject: in the analog data
    only [x], [y] and [bActive] can change, and [bActive] is never cleared;
    in the legacy controller state only the joystick axis can change - the
    packet number, the buttons, the number of axes and every other axis are
    as the real function wrote them. *)
Theorem injection_touches_only_the_stick :
  forall (g_config : Config) (bridge : OmniBridge)
         (st : TreadmillState) (m : ActionMap),
    (forall action result d dev,
       exists d',
         snd (Wrapped_GetAnalogActionData g_config bridge st m action result
                                          (Some d) dev) = Some d' /\
         activeOrigin d' = activeOrigin d /\ a_z d' = a_z d /\
         deltaX d' = deltaX d /\ deltaY d' = deltaY d /\
         deltaZ d' = deltaZ d /\ fUpdateTime d' = fUpdateTime d /\
         (bActive d = true -> bActive d' = true)) /\
    (forall index result c,
       exists c',
         snd (Wrapped_GetControllerState g_config bridge st index result
                                         (Some c)) = Some c' /\
         unPacketNum c' = unPacketNum c /\
         ulButtonPressed c' = ulButtonPressed c /\
         ulButtonTouched c' = ulButtonTouched c /\
         List.length (rAxis c') = List.length (rAxis c) /\
         forall i, i <> k_EControllerAxis_Joystick ->
                   axis_at c' i = axis_at c i).
Proof.
  intros g_config bridge st m. split.
  - intros action result d dev. unfold Wrapped_GetAnalogActionData.
    destruct (result =? VRInputError_None)%Z;
      [| exists d; repeat split; auto].
    destruct (andb _ (IsConnected bridge));
      [| exists d; repeat split; auto].
    cbn zeta. eexists. split; [reflexivity |].
    pose proof (analog_switch_frame (inputMode g_config) (x st) (y st)
                  (treadmillActive2 (x st) (y st)) d) as F.
    cbv zeta in F. tauto.
  - intros index result c. unfold Wrapped_GetControllerState.
    destruct (andb result (IsConnected bridge));
      [| exists c; repeat split; auto].
    destruct (andb _ _); [exists c; repeat split; auto |].
    cbn zeta. destruct (treadmillActive2 (x st) (y st));
      [| exists c; repeat split; auto].
    eexists. split; [reflexivity |]. apply legacy_switch_frame.
Qed.

(** ** Range of what the game reads *)

Lemma step_bounded g_config w op :
  0 <= smoothing g_config <= 1 ->
  wrapper_bounded (g_treadmillState w) ->
  wrapper_bounded (g_treadmillState (step g_config w op)).
Proof.
  intros Hs Hw. destruct op; cbn [step g_treadmillState]; auto.
  apply wrapper_OnOmniData_bounded; assumption.
Qed.

Lemma run_bounded g_config ops w :
  0 <= smoothing g_config <= 1 ->
  wrapper_bounded (g_treadmillState w) ->
  wrapper_bounded (g_treadmillState (run g_config w ops)).
Proof.
  intros Hs. revert w. unfold run.
  induction ops as [| op ops IH]; intros w Hw; [exact Hw |].
  cbn [fold_left]. apply IH. apply step_bounded; assumption.
Qed.

Lemma analog_switch_range mode tx ty act d :
  in_unit_square tx ty -> in_unit_square (a_x d) (a_y d) ->
  in_unit_square (a_x (analog_switch mode tx ty act d))
                 (a_y (analog_switch mode tx ty act d)).
Proof.
  unfold in_unit_square. intros Ht Hd.
  destruct mode, act; cbn; auto; split; apply clamp_range.
Qed.

Lemma legacy_switch_range mode tx ty c :
  in_unit_square tx ty ->
  in_unit_square (ax_x (joystick c)) (ax_y (joystick c)) ->
  in_unit_square (ax_x (joystick (legacy_switch mode tx ty c)))
                 (ax_y (joystick (legacy_switch mode tx ty c))).
Proof.
  unfold in_unit_square, joystick, axis_at. intros Ht Hc.
  destruct c as [pn bp bt axes]. destruct axes as [| a rest].
  - destruct mode; cbn in *; exact Hc.
  - destruct mode; cbn in *; auto; split; apply clamp_range.
Qed.

(** X15.  With a smoothing factor in [[0, 1]], a finite speed multiplier
    and a finite deadzone other than 1 (no infinity, no NaN), whatever
    happened to the wrapper since it was loaded - any
    initialisations, samples, shutdowns, registrations and reads, in any
    order - the stored pad values are in [[-1, 1]], and a game that would
    have read stick values in [[-1, 1]] from the real runtime still reads
    values in [[-1, 1]] through the wrapper, from the action interface and
    from the legacy controller state, in every input mode. *)
Theorem game_reads_stay_in_range (g_config : Config) (ops : list Op)
    (Hs : 0 <= smoothing g_config <= 1)
    (Hm : finite32 (speedMultiplier g_config))
    (Hd : finite32 (deadzone g_config) /\ deadzone g_config <> 1) :
  let w := run g_config World_init ops in
  wrapper_bounded (g_treadmillState w) /\
  (forall action result d dev d',
     in_unit_square (a_x d) (a_y d) ->
     snd (Wrapped_GetAnalogActionData g_config (bridge w)
            (g_treadmillState w) (g_isMovementAction w)
            action result (Some d) dev) = Some d' ->
     in_unit_square (a_x d') (a_y d')) /\
  (forall index result c c',
     in_unit_square (ax_x (joystick c)) (ax_y (joystick c)) ->
     snd (Wrapped_GetControllerState g_config (bridge w)
            (g_treadmillState w) index result (Some c)) = Some c' ->
     in_unit_square (ax_x (joystick c')) (ax_y (joystick c'))).
Proof.
  intros w.
  assert (Hw : wrapper_bounded (g_treadmillState w)).
  { apply run_bounded; [exact Hs |].
    unfold wrapper_bounded. simpl. lra. }
  split; [exact Hw |]. split.
  - intros action result d dev d' Hin E.
    unfold Wrapped_GetAnalogActionData in E.
    destruct (result =? VRInputError_None)%Z;
      [| inversion E; subst; exact Hin].
    destruct (andb _ (IsConnected (bridge w)));
      [| inversion E; subst; exact Hin].
    cbn in E. inversion E; subst.
    apply analog_switch_range; [exact Hw | exact Hin].
  - intros index result c c' Hin E.
    unfold Wrapped_GetControllerState in E.
    destruct (andb result (IsConnected (bridge w)));
      [| inversion E; subst; exact Hin].
    destruct (andb _ _); [inversion E; subst; exact Hin |].
    cbn zeta in E.
    destruct (treadmillActive2 _ _); inversion E; subst; [| exact Hin].
    apply legacy_switch_range; [exact Hw | exact Hin].
Qed.

Lemma game_reads_stay_in_range_witness :
  let w := run default_Config World_init
               [OpInitialize (mkInitEnv 1 0 true 1 true);
                OpOnOmniData 0 90 255 0] in
  wrapper_bounded (g_treadmillState w).
Proof.
  intros w.
  assert (Hs : 0 <= smoothing default_Config <= 1) by (simpl; lra).
  assert (Hm : finite32 (speedMultiplier default_Config))
    by (simpl; apply finite32_small; lra).
  assert (Hd : finite32 (deadzone default_Config) /\
               deadzone default_Config <> 1)
    by (simpl; split; [apply finite32_small |]; lra).
  exact (proj1 (game_reads_stay_in_range default_Config
                  [OpInitialize (mkInitEnv 1 0 true 1 true);
                   OpOnOmniData 0 90 255 0] Hs Hm Hd)).
Defined.

(** ** Connecting *)

(** X16.  Connecting is all or nothing.  Starting from the state at load
    time, or from the state left by any [Shutdown], [OmniBridge::Initialize]
    succeeds exactly when OmniBridge.dll loads from the given path or else
    from the default search path, its three entry points resolve, the
    reader is created and the serial connection opens.  On success the
    bridge is connected and holds that library and that reader; on every
    failure nothing is kept - no library, no reader, not connected - so the
    bridge is exactly as before the attempt, and every intercepted read is
    handed to the game as the real function left it. *)
Theorem Initialize_all_or_nothing :
  forall (env : InitEnv) (b0 : OmniBridge),
    Shutdown b0 = OmniBridge_init /\
    let r := Initialize env OmniBridge_init in
    (snd r = true <->
     (loadPath env <> 0 \/ loadDefault env <> 0)%Z /\
     entryPoints env = true /\ created env <> 0%Z /\ initOk env = true) /\
    (snd r = true ->
     fst r = mkOmniBridge
               (if (loadPath env =? 0)%Z then loadDefault env
                else loadPath env)
               (created env) true /\
     s_library (fst r) <> 0%Z /\ s_reader (fst r) <> 0%Z) /\
    (snd r = false ->
     fst r = OmniBridge_init /\
     forall g_config st m action result data dev,
       Wrapped_GetAnalogActionData g_config (fst r) st m action result
                                   data dev = (result, data)).
Proof.
  intros env b0. split; [reflexivity |].
  unfold Initialize, OmniBridge_init. cbn zeta.
  destruct (Z.eqb_spec (loadPath env) 0) as [Ep | Ep].
  - destruct (Z.eqb_spec (loadDefault env) 0) as [Ed | Ed].
    + cbn [fst snd s_reader s_connected]. rewrite Ed.
      split; [| split].
      * split; [discriminate | intros ([H | H] & _); contradiction].
      * discriminate.
      * intros _. split; [reflexivity |]. intros.
        unfold Wrapped_GetAnalogActionData, IsConnected. cbn.
        destruct data; [| reflexivity].
        destruct (result =? VRInputError_None)%Z; [| reflexivity].
        now rewrite andb_false_r.
    + destruct (entryPoints env); cbn [negb];
        [destruct (Z.eqb_spec (created env) 0) as [Ec | Ec];
         [rewrite ?Ec | destruct (initOk env); cbn [negb]] |];
        cbn [fst snd s_reader s_connected s_library];
        (split; [| split]);
        try (split; [discriminate | intros (_ & H1 & H2 & H3);
                                    congruence]);
        try discriminate;
        try (intros _; split; [reflexivity |]; intros;
             unfold Wrapped_GetAnalogActionData, IsConnected; cbn;
             destruct data; [| reflexivity];
             destruct (result =? VRInputError_None)%Z; [| reflexivity];
             now rewrite andb_false_r).
      * split; [intros _ | reflexivity]. repeat split; auto.
      * intros _. repeat split; auto.
  - destruct (Z.eqb_spec (loadPath env) 0) as [Ep' | _]; [contradiction |].
    destruct (entryPoints env); cbn [negb];
      [destruct (Z.eqb_spec (created env) 0) as [Ec | Ec];
       [rewrite ?Ec | destruct (initOk env); cbn [negb]] |];
      cbn [fst snd s_reader s_connected s_library];
      (split; [| split]);
      try (split; [discriminate | intros (_ & H1 & H2 & H3);
                                  congruence]);
      try discriminate;
      try (intros _; split; [reflexivity |]; intros;
           unfold Wrapped_GetAnalogActionData, IsConnected; cbn;
           destruct data; [| reflexivity];
           destruct (result =? VRInputError_None)%Z; [| reflexivity];
           now rewrite andb_false_r).
    * split; [intros _ | reflexivity]. repeat split; auto.
    * intros _. repeat split; auto.
Qed.

(** ** Which actions are injected *)

Lemma step_registration g_config w op h acc :
  map_find (g_isMovementAction w) h
  = option_map (isMovementAction (actionPatterns g_config)) acc ->
  map_find (g_isMovementAction (step g_config w op)) h
  = option_map (isMovementAction (actionPatterns g_config))
               (note_registration h acc op).
Proof.
  intros H. destruct op; cbn [step g_isMovementAction note_registration];
    auto.
  unfold Wrapped_GetActionHandle.
  destruct h0 as [h' |]; [| destruct name; exact H].
  destruct name as [name |]; [| exact H].
  destruct (result =? VRInputError_None)%Z; cbn [andb fst]; [| exact H].
  unfold map_set. cbn [map_find].
  destruct (h' =? h)%Z; [reflexivity | exact H].
Qed.

Lemma run_registration g_config ops w h acc :
  map_find (g_isMovementAction w) h
  = option_map (isMovementAction (actionPatterns g_config)) acc ->
  map_find (g_isMovementAction (run g_config w ops)) h
  = option_map (isMovementAction (actionPatterns g_config))
               (fold_left (note_registration h) ops acc).
Proof.
  unfold run. revert w acc.
  induction ops as [| op ops IH]; intros w acc H; [exact H |].
  cbn [fold_left]. apply IH. apply step_registration. exact H.
Qed.

(** X17.  Which actions the wrapper treats as movement actions depends only
    on the registrations it has seen: after any sequence of operations
    since load time, a handle is recorded exactly if some [GetActionHandle]
    call for it succeeded, and it is recorded as a movement action exactly
    if the name given in the last such call matches one of the configured
    patterns.  Failed calls, calls with a null name or handle pointer,
    shutdowns, samples and reads change nothing of this.  So the analog data
    of an action are altered only if the action was last registered under a
    matching name. *)
Theorem movement_actions_follow_registration :
  forall (g_config : Config) (ops : list Op) (h : Z),
    let w := run g_config World_init ops in
    map_find (g_isMovementAction w) h
    = option_map (isMovementAction (actionPatterns g_config))
                 (registered_name ops h) /\
    forall result data dev,
      snd (Wrapped_GetAnalogActionData g_config (bridge w)
             (g_treadmillState w) (g_isMovementAction w)
             h result data dev) <> data ->
      exists name,
        registered_name ops h = Some name /\
        isMovementAction (actionPatterns g_config) name = true.
Proof.
  intros g_config ops h w.
  assert (E : map_find (g_isMovementAction w) h
              = option_map (isMovementAction (actionPatterns g_config))
                           (registered_name ops h))
    by (apply run_registration; reflexivity).
  split; [exact E |].
  intros result data dev Hneq.
  unfold Wrapped_GetAnalogActionData in Hneq.
  destruct data as [d |]; [| now contradiction Hneq].
  destruct (result =? VRInputError_None)%Z; [| now contradiction Hneq].
  rewrite E in Hneq.
  destruct (registered_name ops h) as [name |]; cbn [option_map] in Hneq;
    [| now contradiction Hneq].
  exists name. split; [reflexivity |].
  destruct (isMovementAction (actionPatterns g_config) name);
    [reflexivity | now contradiction Hneq].
Qed.

(** ** The OpenXR layer: action tracking *)

Section LayerFacts.

Import TreadmillLayer.

Lemma track_consistent g_config t op a :
  map_find (g_isMovementAction t) a
  = option_map (isMovementAction (actionPatterns g_config))
               (names_find (g_actionNames t) a) ->
  map_find (g_isMovementAction (track g_config t op)) a
  = option_map (isMovementAction (actionPatterns g_config))
               (names_find (g_actionNames (track g_config t op)) a).
Proof.
  intros H. destruct op as [haveReal result createInfo action | haveReal result];
    cbn [track]; [| reflexivity].
  unfold TreadmillLayer_xrCreateAction.
  destruct haveReal; cbn [negb fst]; [| exact H].
  destruct createInfo as [actionName |]; [| exact H].
  destruct action as [a' |]; [| exact H].
  destruct (XR_SUCCEEDED result); cbn [fst]; [| exact H].
  cbn [g_isMovementAction g_actionNames map_find names_find].
  destruct (a' =? a)%Z; [reflexivity | exact H].
Qed.

Lemma track_all_consistent g_config ops a :
  map_find (g_isMovementAction (track_all g_config ops)) a
  = option_map (isMovementAction (actionPatterns g_config))
               (names_find (g_actionNames (track_all g_config ops)) a).
Proof.
  unfold track_all.
  assert (G : forall t,
             map_find (g_isMovementAction t) a
             = option_map (isMovementAction (actionPatterns g_config))
                          (names_find (g_actionNames t) a) ->
             map_find (g_isMovementAction (fold_left (track g_config) ops t)) a
             = option_map (isMovementAction (actionPatterns g_config))
                 (names_find
                    (g_actionNames (fold_left (track g_config) ops t)) a)).
  { induction ops as [| op ops IH]; intros t H; [exact H |].
    cbn [fold_left]. apply IH. now apply track_consistent. }
  apply G. reflexivity.
Qed.

(** X18.  The two maps of the layer never disagree: after any sequence of
    [xrCreateAction] and [xrDestroyInstance] calls, with any results and
    null or non-null arguments, an action is in the movement map exactly if
    it is in the name map, and its entry is the verdict of the classifier on
    the name it was last created with.  So a movement action always has a
    name from which [xrGetActionStateFloat] chooses its axis, and after
    [xrDestroyInstance] both state getters hand every state through
    unchanged until actions are created again - whatever the real
    [xrDestroyInstance] returned, and even when there is none. *)
Theorem layer_maps_agree :
  forall (g_config : Config) (ops : list TrackOp) (a : Z),
    let t := track_all g_config ops in
    map_find (g_isMovementAction t) a
    = option_map (isMovementAction (actionPatterns g_config))
                 (names_find (g_actionNames t) a) /\
    (map_find (g_isMovementAction t) a = Some true ->
     exists name,
       names_find (g_actionNames t) a = Some name /\
       isMovementAction (actionPatterns g_config) name = true) /\
    forall haveReal destroyed bridge st result,
      let t' := track g_config t (OpDestroyInstance haveReal destroyed) in
      (forall s,
         TreadmillLayer_xrGetActionStateFloat g_config bridge st t'
           true (Some a) result (Some s) = (result, Some s)) /\
      (forall s,
         TreadmillLayer_xrGetActionStateVector2f g_config bridge st
           (g_isMovementAction t') true (Some a) result (Some s)
         = (result, Some s)).
Proof.
  intros g_config ops a t.
  pose proof (track_all_consistent g_config ops a) as E. fold t in E.
  split; [exact E |]. split.
  - intros H. rewrite H in E.
    destruct (names_find (g_actionNames t) a) as [name |];
      [| discriminate].
    exists name. split; [reflexivity |]. cbn in E. congruence.
  - intros haveReal destroyed bridge st result t'. split; intros s.
    + unfold TreadmillLayer_xrGetActionStateFloat. cbn.
      now destruct (andb _ _).
    + unfold TreadmillLayer_xrGetActionStateVector2f. cbn.
      now destruct (andb _ _).
Qed.

Lemma vector2f_switch_frame mode tx ty act s :
  let s' := vector2f_switch mode tx ty act s in
  v_type s' = v_type s /\ v_next s' = v_next s /\
  v_changedSinceLastSync s' = v_changedSinceLastSync s /\
  v_lastChangeTime s' = v_lastChangeTime s /\
  (v_isActive s' = v_isActive s \/ v_isActive s' = 1%Z) /\
  (s' <> s -> act = true \/ mode = Additive).
Proof.
  destruct mode, act; cbn; repeat split; auto;
    intros H; exfalso; apply H; reflexivity.
Qed.

Lemma float_switch_frame mode tv cs ia :
  (snd (float_switch mode tv cs ia) = ia \/
   snd (float_switch mode tv cs ia) = 1%Z) /\
  (float_switch mode tv cs ia <> (cs, ia) -> Rabs tv > 5 / 100).
Proof.
  unfold float_switch, Rgtb.
  destruct (Rgt_dec (Rabs tv) (5 / 100)) as [H | H].
  - destruct mode; cbn; auto.
  - cbn. split; [auto |]. intros N. now contradiction N.
Qed.

(** X19.  The layer never changes the result of the real OpenXR state
    getters and changes the state they wrote only on purpose.  Without a
    real function, or with a null [getInfo] or [state], the getters answer
    [XR_ERROR_VALIDATION_FAILURE] and touch nothing.  Otherwise the result is
    the real one, and the state differs from the real one only if the real
    call succeeded, the treadmill is connected and the action is recorded as
    a movement action - and, for a float action, the chosen pad value
    exceeds 0.05 in magnitude; for a vector action, a pad value does so or
    the mode is Additive.  Even then only the value and [isActive] change,
    and [isActive] is only ever set. *)
Theorem layer_alters_only_on_purpose :
  forall (g_config : Config) (bridge : OmniBridge) (st : TreadmillState)
         (t : Tracking),
    (forall haveReal getInfo result state,
       let r := TreadmillLayer_xrGetActionStateFloat g_config bridge st t
                  haveReal getInfo result state in
       match haveReal, getInfo, state with
       | true, Some action, Some s =>
           fst r = result /\
           exists s',
             snd r = Some s' /\
             f_type s' = f_type s /\ f_next s' = f_next s /\
             f_changedSinceLastSync s' = f_changedSinceLastSync s /\
             f_lastChangeTime s' = f_lastChangeTime s /\
             (f_isActive s' = f_isActive s \/ f_isActive s' = 1%Z) /\
             (s' <> s ->
              XR_SUCCEEDED result = true /\ IsConnected bridge = true /\
              map_find (g_isMovementAction t) action = Some true /\
              Rabs (treadmillValue_for st (g_actionNames t) action)
              > 5 / 100)
       | _, _, _ => r = (XR_ERROR_VALIDATION_FAILURE, state)
       end) /\
    (forall haveReal getInfo result state,
       let r := TreadmillLayer_xrGetActionStateVector2f g_config bridge st
                  (g_isMovementAction t) haveReal getInfo result state in
       match haveReal, getInfo, state with
       | true, Some action, Some s =>
           fst r = result /\
           exists s',
             snd r = Some s' /\
             v_type s' = v_type s /\ v_next s' = v_next s /\
             v_changedSinceLastSync s' = v_changedSinceLastSync s /\
             v_lastChangeTime s' = v_lastChangeTime s /\
             (v_isActive s' = v_isActive s \/ v_isActive s' = 1%Z) /\
             (s' <> s ->
              XR_SUCCEEDED result = true /\ IsConnected bridge = true /\
              map_find (g_isMovementAction t) action = Some true /\
              (treadmillActive2 (x st) (y st) = true \/
               inputMode g_config = Additive))
       | _, _, _ => r = (XR_ERROR_VALIDATION_FAILURE, state)
       end).
Proof.
  intros g_config bridge st t. split.
  - intros haveReal getInfo result state r. subst r.
    destruct haveReal; [| reflexivity].
    destruct getInfo as [action |]; [| reflexivity].
    destruct state as [s |]; [| reflexivity].
    unfold TreadmillLayer_xrGetActionStateFloat.
    assert (Same : forall P : Prop,
               (result, Some s) = (result, Some s) /\
               exists s', Some s = Some s' /\
                 f_type s' = f_type s /\ f_next s' = f_next s /\
                 f_changedSinceLastSync s' = f_changedSinceLastSync s /\
                 f_lastChangeTime s' = f_lastChangeTime s /\
                 (f_isActive s' = f_isActive s \/ f_isActive s' = 1%Z) /\
                 (s' <> s -> P)).
    { intros P. split; [reflexivity |]. exists s.
      repeat (split; [reflexivity || auto |]).
      intros N. now contradiction N. }
    destruct (XR_SUCCEEDED result); cbn [andb];
      [| split; [reflexivity | apply Same]].
    destruct (IsConnected bridge);
      [| split; [reflexivity | apply Same]].
    destruct (map_find (g_isMovementAction t) action) as [[|] |];
      cbn zeta; try (split; [reflexivity | apply Same]).
    pose proof (float_switch_frame (inputMode g_config)
                  (treadmillValue_for st (g_actionNames t) action)
                  (f_currentState s) (f_isActive s)) as [Fa Fc].
    destruct (float_switch (inputMode g_config)
                (treadmillValue_for st (g_actionNames t) action)
                (f_currentState s) (f_isActive s)) as [cs ia] eqn:Efs.
    cbn [fst snd] in *. split; [reflexivity |].
    eexists. split; [reflexivity |].
    cbn [f_type f_next f_changedSinceLastSync f_lastChangeTime f_isActive].
    do 4 (split; [reflexivity |]). split; [exact Fa |].
    intros N. do 3 (split; [reflexivity |]).
    apply Fc. intros E. inversion E; subst. apply N. now destruct s.
  - intros haveReal getInfo result state r. subst r.
    destruct haveReal; [| reflexivity].
    destruct getInfo as [action |]; [| reflexivity].
    destruct state as [s |]; [| reflexivity].
    unfold TreadmillLayer_xrGetActionStateVector2f.
    assert (Same : forall P : Prop,
               exists s', Some s = Some s' /\
                 v_type s' = v_type s /\ v_next s' = v_next s /\
                 v_changedSinceLastSync s' = v_changedSinceLastSync s /\
                 v_lastChangeTime s' = v_lastChangeTime s /\
                 (v_isActive s' = v_isActive s \/ v_isActive s' = 1%Z) /\
                 (s' <> s -> P)).
    { intros P. exists s. repeat (split; [reflexivity || auto |]).
      intros N. now contradiction N. }
    destruct (XR_SUCCEEDED result); cbn [andb];
      [| split; [reflexivity | apply Same]].
    destruct (IsConnected bridge);
      [| split; [reflexivity | apply Same]].
    destruct (map_find (g_isMovementAction t) action) as [[|] |];
      cbn zeta; try (split; [reflexivity | apply Same]).
    cbn [fst snd]. split; [reflexivity |].
    pose proof (vector2f_switch_frame (inputMode g_config) (x st) (y st)
                  (treadmillActive2 (x st) (y st)) s) as F.
    cbv zeta in F. destruct F as (F1 & F2 & F3 & F4 & F5 & F6).
    eexists. split; [reflexivity |].
    do 5 (split; [assumption |]).
    intros N. do 3 (split; [reflexivity |]). apply F6. exact N.
Qed.

End LayerFacts.

(** ** The configuration file *)

Section FindFacts.

Lemma starts_with_app (needle rest : cstring) :
  starts_with needle (needle ++ rest) = true.
Proof.
  induction needle as [| a needle IH]; simpl; [reflexivity |].
  destruct (ascii_dec a a); [exact IH | contradiction].
Qed.

Lemma find_eq (s needle : cstring) :
  find s needle
  = if starts_with needle s then Some 0%nat
    else match s with
         | [] => None
         | _ :: s' => option_map S (find s' needle)
         end.
Proof. destruct s; reflexivity. Qed.

Lemma find_free (c : ascii) (needle s : cstring) :
  free_of c s -> find s (c :: needle) = None.
Proof.
  induction 1 as [| a s Ha _ IH]; rewrite find_eq; cbn [starts_with];
    [reflexivity |].
  destruct (ascii_dec c a) as [E | _]; [symmetry in E; contradiction |].
  now rewrite IH.
Qed.

Lemma find_after_free (c : ascii) (needle s t : cstring) :
  free_of c s -> starts_with (c :: needle) t = true ->
  find (s ++ t) (c :: needle) = Some (List.length s).
Proof.
  intros Hs Ht. induction Hs as [| a s Ha _ IH]; rewrite find_eq.
  - cbn [app List.length]. now rewrite Ht.
  - cbn [app List.length starts_with].
    destruct (ascii_dec c a) as [E | _]; [symmetry in E; contradiction |].
    now rewrite IH.
Qed.

Lemma free_of_app (c : ascii) (s t : cstring) :
  free_of c (s ++ t) <-> free_of c s /\ free_of c t.
Proof. apply Forall_app. Qed.

Lemma all_in_free (c : ascii) (set s : cstring) :
  char_in c set = false -> all_in set s -> free_of c s.
Proof.
  intros Hc Hs. eapply Forall_impl; [| exact Hs].
  intros a Ha E. subst a. congruence.
Qed.

End FindFacts.

Lemma erase_back_blank (s1 : cstring) :
  all_in load_back s1 ->
  match find_last_not_of s1 load_back with
  | Some last => firstn (last + 1) s1
  | None => []
  end = [].
Proof. intros H. now rewrite (find_last_not_of_all load_back s1 H). Qed.

Lemma load_trim_blank (pre post : cstring) :
  all_in load_front pre -> all_in load_back post ->
  load_trim (pre ++ post) = [].
Proof.
  intros Hpre Hpost. unfold load_trim. cbv zeta. apply erase_back_blank.
  induction Hpre as [| p pre Hp _ IH].
  - cbn [app].
    pose proof (find_first_not_of_spec load_front post) as F.
    destruct (find_first_not_of post load_front) as [i |];
      [| constructor].
    destruct F as (l & c & rest & E & Hl & _ & _).
    rewrite E, <- Hl, skipn_exact. rewrite E in Hpost.
    apply Forall_app in Hpost. apply Hpost.
  - cbn [app find_first_not_of]. rewrite Hp.
    destruct (find_first_not_of (pre ++ post) load_front) as [i |];
      cbn [option_map skipn]; [exact IH | constructor].
Qed.

Lemma load_trim_core (pre core post : cstring) :
  all_in load_front pre -> all_in load_back post -> load_clean core ->
  load_trim (pre ++ core ++ post) = core.
Proof.
  intros Hpre Hpost Hc. destruct core as [| c tl] eqn:Ecore.
  - apply load_trim_blank; assumption.
  - rewrite <- Ecore in *.
    assert (Hne : core <> []) by (rewrite Ecore; discriminate).
    destruct (exists_last Hne) as (init & z & Ez).
    assert (H1 : char_in c load_front = false)
      by (rewrite Ecore in Hc; apply Hc).
    assert (H2 : char_in z load_back = false).
    { rewrite Ecore in Hc. destruct Hc as [_ Hc].
      rewrite <- Ecore, Ez, last_last in Hc. exact Hc. }
    unfold load_trim.
    assert (F : find_first_not_of (pre ++ core ++ post) load_front
                = Some (List.length pre)).
    { rewrite Ecore. cbn [app].
      apply find_first_not_of_prefix; assumption. }
    rewrite F, skipn_exact. cbv zeta.
    assert (L : find_last_not_of (core ++ post) load_back
                = Some (List.length init)).
    { rewrite Ez, <- app_assoc. cbn [app].
      apply find_last_not_of_suffix; assumption. }
    rewrite L.
    replace (List.length init + 1)%nat with (List.length core)
      by (rewrite Ez, length_app; simpl; lia).
    apply firstn_exact.
Qed.

Lemma front_free_colon_slash (s : cstring) :
  all_in load_front s -> free_of ":" s /\ free_of "/" s.
Proof.
  intros H. split; (eapply all_in_free; [| exact H]); reflexivity.
Qed.

Lemma back_free_colon_slash (s : cstring) :
  all_in load_back s -> free_of ":" s /\ free_of "/" s.
Proof.
  intros H. split; (eapply all_in_free; [| exact H]); reflexivity.
Qed.

(** X20.  A line of the configuration file of the form
    [key : value], where around the key and the value stand any blanks,
    tabs, carriage returns, line feeds and double quotes, after the value
    also commas, and after that possibly a [//] comment, sets exactly that
    key from exactly that value: the parser finds the key and the value
    without what surrounds them and hands them to the chain of comparisons
    on the key; at the end of a file, the line acts on what the lines
    before it loaded.  The value may contain colons; key and value are free
    of slashes here, and the key of colons. *)
Theorem config_line_sets_key
    (stoi : cstring -> option Z) (stof : cstring -> option R)
    (config : ConfigFile) (pre key mid1 mid2 value post comment : cstring)
    (Hpre : all_in load_front pre) (Hmid1 : all_in load_back mid1)
    (Hmid2 : all_in load_front mid2) (Hpost : all_in load_back post)
    (Hkey : load_clean key /\ free_of ":" key /\ free_of "/" key)
    (Hvalue : load_clean value /\ free_of "/" value) :
  split_line (config_line pre key mid1 mid2 value post) = Some (key, value) /\
  load_line stoi stof config (config_line pre key mid1 mid2 value post)
  = assign stoi stof key value config /\
  load_line stoi stof config
            (config_line pre key mid1 mid2 value post
             ++ str "//" ++ comment)
  = assign stoi stof key value config /\
  forall lines,
    Load stoi stof
         (Some (lines ++ [config_line pre key mid1 mid2 value post]))
    = match Load stoi stof (Some lines) with
      | Some loaded => assign stoi stof key value loaded
      | None => None
      end.
Proof.
  destruct Hkey as (Kc & Kcolon & Kslash). destruct Hvalue as (Vc & Vslash).
  set (line := config_line pre key mid1 mid2 value post).
  set (left := pre ++ key ++ mid1).
  set (right := mid2 ++ value ++ post).
  assert (El : line = left ++ str ":" ++ right).
  { unfold line, config_line, left, right. now rewrite <- !app_assoc. }
  destruct (front_free_colon_slash pre Hpre) as [P1 P2].
  destruct (back_free_colon_slash mid1 Hmid1) as [M1 M2].
  destruct (front_free_colon_slash mid2 Hmid2) as [_ N2].
  destruct (back_free_colon_slash post Hpost) as [_ Q2].
  assert (Lcolon : free_of ":" left)
    by (unfold left; rewrite !free_of_app; auto).
  assert (Lslash : free_of "/" line).
  { rewrite El. unfold left, right. rewrite !free_of_app.
    repeat split; auto. repeat constructor. discriminate. }
  assert (C : match find line (str ":") with
              | Some colonPos =>
                  Some (load_trim (substr line 0 colonPos),
                        load_trim (substr_from line (colonPos + 1)))
              | None => None
              end = Some (key, value)).
  { change (str ":") with (":"%char :: []).
    rewrite El at 1.
    rewrite (find_after_free ":" [] left (str ":" ++ right) Lcolon)
      by (cbn; destruct (ascii_dec ":" ":"); [reflexivity | contradiction]).
    unfold substr, substr_from. cbn [skipn]. rewrite El.
    rewrite firstn_exact.
    replace (List.length left + 1)%nat
      with (List.length (left ++ str ":"))
      by (rewrite length_app; reflexivity).
    rewrite app_assoc, skipn_exact.
    unfold left, right.
    now rewrite (load_trim_core pre key mid1),
                (load_trim_core mid2 value post). }
  assert (S : split_line line = Some (key, value)).
  { unfold split_line.
    change (str "//") with ("/"%char :: str "/").
    rewrite (find_free "/" (str "/") line Lslash). exact C. }
  assert (S' : split_line (line ++ str "//" ++ comment)
               = Some (key, value)).
  { assert (E : match find (line ++ str "//" ++ comment) (str "//") with
                | Some commentPos =>
                    substr (line ++ str "//" ++ comment) 0 commentPos
                | None => line ++ str "//" ++ comment
                end = line).
    { change (str "//") with ("/"%char :: str "/") at 2.
      rewrite (find_after_free "/" (str "/") line
                 (str "//" ++ comment) Lslash)
        by (cbn; destruct (ascii_dec "/" "/");
            [reflexivity | contradiction]).
      unfold substr. cbn [skipn]. apply firstn_exact. }
    unfold split_line. cbv zeta. rewrite E. exact C. }
  split; [exact S |].
  unfold load_line. rewrite S, S'.
  split; [reflexivity |]. split; [reflexivity |].
  intros lines. unfold Load. rewrite fold_left_app. cbn [fold_left].
  fold line.
  destruct (fold_left _ lines (Some default_ConfigFile)) as [loaded |];
    [| reflexivity].
  unfold load_line. now rewrite S.
Qed.

Lemma config_line_sets_key_witness :
  split_line (config_line [" "; "034"]%char (str "deadzone") ["034"]%char
                          [" "]%char (str "0.2") [","]%char)
  = Some (str "deadzone", str "0.2").
Proof.
  refine (proj1 (config_line_sets_key (fun _ => None) (fun _ => None)
                   default_ConfigFile [" "; "034"]%char (str "deadzone")
                   ["034"]%char [" "]%char (str "0.2") [","]%char
                   (str " unit") _ _ _ _ _ _)).
  - repeat constructor.
  - repeat constructor.
  - repeat constructor.
  - repeat constructor.
  - split; [split; reflexivity |].
    split; repeat (constructor; [discriminate |]); constructor.
  - split; [split; reflexivity |].
    repeat (constructor; [discriminate |]); constructor.
Defined.

Lemma find_not_after (needle s t : cstring) :
  starts_with needle t = true ->
  exists p, find (s ++ t) needle = Some p /\ (p <= List.length s)%nat.
Proof.
  intros Ht. induction s as [| a s IH]; rewrite find_eq.
  - cbn [app]. rewrite Ht. exists 0%nat. split; [reflexivity | lia].
  - cbn [app]. destruct (starts_with needle (a :: s ++ t)).
    + exists 0%nat. split; [reflexivity | simpl; lia].
    + destruct IH as (p & -> & Hp). exists (S p).
      split; [reflexivity | simpl; lia].
Qed.

Lemma free_of_firstn (c : ascii) (n : nat) (s : cstring) :
  free_of c s -> free_of c (firstn n s).
Proof.
  intros H. rewrite <- (firstn_skipn n s) in H.
  apply Forall_app in H. apply H.
Qed.

Lemma load_line_keyless stoi stof config l :
  keyless_line l -> load_line stoi stof config l = Some config.
Proof.
  intros (body & comment & Hb & [-> | ->]); unfold load_line, split_line;
    cbv zeta.
  - assert (F : free_of ":" match find body (str "//") with
                           | Some commentPos => substr body 0 commentPos
                           | None => body
                           end).
    { destruct (find body (str "//")); [| exact Hb].
      unfold substr. cbn [skipn]. now apply free_of_firstn. }
    change (str ":") with (":"%char :: []).
    now rewrite (find_free ":" [] _ F).
  - destruct (find_not_after (str "//") body (str "//" ++ comment))
      as (p & E & Hp); [reflexivity |].
    rewrite E. unfold substr. cbn [skipn].
    rewrite firstn_app.
    replace (p - List.length body)%nat with 0%nat by lia.
    cbn [firstn]. rewrite app_nil_r.
    change (str ":") with (":"%char :: []).
    now rewrite (find_free ":" [] _ (free_of_firstn ":" p body Hb)).
Qed.

(** X21.  A configuration file without a key line - only lines that have
    no colon before their [//] comment, such as braces, blank lines and
    comments - loads as the defaults, exactly like a file that cannot be
    opened: enabled, COM3 at 115200 baud, speed multiplier 1.5, deadzone
    0.1, smoothing 0.3, every controller, mode Smart, the four default
    patterns and debug logging on.  No number is parsed for such a file, so
    loading it cannot fail. *)
Theorem config_defaults
    (stoi : cstring -> option Z) (stof : cstring -> option R)
    (lines : list cstring) (Hlines : Forall keyless_line lines) :
  Load stoi stof (Some lines) = Some default_ConfigFile /\
  Load stoi stof None = Some default_ConfigFile /\
  default_ConfigFile
  = mkConfigFile
      (mkConfig true (15 / 10) (1 / 10) (3 / 10) (-1) Smart
                [str "*move*"; str "*locomotion*"; str "*walk*";
                 str "*thumbstick*"])
      (str "COM3") 115200 true.
Proof.
  split; [| split; reflexivity].
  unfold Load. generalize default_ConfigFile as config.
  induction Hlines as [| l lines Hl _ IH]; intros config; [reflexivity |].
  cbn [fold_left]. rewrite (load_line_keyless stoi stof config l Hl).
  apply IH.
Qed.

Lemma config_defaults_witness :
  Load (fun _ => None) (fun _ => None)
       (Some [str "{"; str "  // deadzone: 0.5"; str "}"])
  = Some default_ConfigFile.
Proof.
  refine (proj1 (config_defaults (fun _ => None) (fun _ => None)
                   [str "{"; str "  // deadzone: 0.5"; str "}"] _)).
  repeat constructor.
  - exists (str "{"), []. split; [| left; reflexivity].
    repeat (constructor; [discriminate |]); constructor.
  - exists (str "  "), (str " deadzone: 0.5").
    split; [| right; reflexivity].
    repeat (constructor; [discriminate |]); constructor.
  - exists (str "}"), []. split; [| left; reflexivity].
    repeat (constructor; [discriminate |]); constructor.
Defined.

(** ** The module directory *)

Lemma wfind_last_of_none (s set : wstring) :
  Forall (fun c => wchar_in c set = false) s -> wfind_last_of s set = None.
Proof.
  induction 1 as [| c s Hc _ IH]; simpl; [reflexivity |].
  now rewrite IH, Hc.
Qed.

Lemma wfind_last_of_last (dir file set : wstring) (sep : N) :
  wchar_in sep set = true ->
  Forall (fun c => wchar_in c set = false) file ->
  wfind_last_of (dir ++ sep :: file) set = Some (List.length dir).
Proof.
  intros Hsep Hfile. induction dir as [| a dir IH]; simpl.
  - now rewrite (wfind_last_of_none file set Hfile), Hsep.
  - now rewrite IH.
Qed.

(** X22.  [GetModuleDirectory] splits the path of the module at its last
    separator, backslash or slash: for a path [dir], separator, [file], where
    [file] contains no separator, it returns [dir] - whatever [dir] contains,
    separators included - and for a path without any separator it returns
    [.]. *)
Theorem GetModuleDirectory_split (dir file : wstring) (sep : N)
    (Hsep : is_separator sep = true)
    (Hfile : Forall (fun c => is_separator c = false) file) :
  GetModuleDirectory (dir ++ sep :: file) = dir /\
  GetModuleDirectory file = wstr ".".
Proof.
  unfold GetModuleDirectory. split.
  - rewrite (wfind_last_of_last dir file (wstr "\/") sep Hsep Hfile).
    apply firstn_exact.
  - now rewrite (wfind_last_of_none file (wstr "\/") Hfile).
Qed.

Lemma GetModuleDirectory_split_witness :
  GetModuleDirectory (wstr "C:\games/bin" ++ 92%N :: wstr "openvr_api.dll")
  = wstr "C:\games/bin".
Proof.
  refine (proj1 (GetModuleDirectory_split (wstr "C:\games/bin")
                   (wstr "openvr_api.dll") 92%N _ _)).
  - reflexivity.
  - repeat (constructor; [reflexivity |]); constructor.
Defined.

(** ** The default patterns *)

Lemma star_pattern (w text : cstring) :
  to_lower w = w ->
  (matches_spec text ("*"%char :: w ++ ["*"%char])
   <-> is_substring w (to_lower text)).
Proof.
  intros Hw. unfold matches_spec. cbv zeta.
  assert (E : to_lower ("*"%char :: w ++ ["*"%char])
              = "*"%char :: w ++ ["*"%char]).
  { unfold to_lower in *. cbn [map]. rewrite map_app, Hw. reflexivity. }
  rewrite E.
  assert (L : leads ("*"%char :: w ++ ["*"%char])) by (now eexists).
  assert (T : trails ("*"%char :: w ++ ["*"%char]))
    by (exists ("*"%char :: w); reflexivity).
  assert (C : core ("*"%char :: w ++ ["*"%char]) = w).
  { unfold core. cbn [strip_leading].
    change (is_star "*") with true. cbv iota.
    unfold strip_trailing.
    destruct (w ++ ["*"%char]) as [| a l] eqn:Ew;
      [destruct w; discriminate |].
    rewrite <- Ew, last_last. change (is_star "*") with true. cbv iota.
    apply removelast_last. }
  rewrite C. split.
  - intros [(_ & _ & H) | [(_ & N & _) | [(N & _) | (N & _)]]];
      [exact H | contradiction ..].
  - intros H. left. auto.
Qed.

(** X23.  With the default patterns an action is a movement action exactly
    if its name, in lower case, contains [move], [locomotion], [walk] or
    [thumbstick] - in the OpenVR wrapper and in the OpenXR layer alike. *)
Theorem default_movement_actions :
  forall name : cstring,
    let named w := is_substring (str w) (to_lower name) in
    (isMovementAction default_actionPatterns name = true
     <-> named "move"%string \/ named "locomotion"%string \/
         named "walk"%string \/ named "thumbstick"%string) /\
    TreadmillLayer.isMovementAction default_actionPatterns name
    = isMovementAction default_actionPatterns name.
Proof.
  intros name named. split; [| reflexivity].
  assert (P : forall w : string,
             to_lower (str w) = str w ->
             (MatchesPattern name ("*"%char :: str w ++ ["*"%char]) = true
              <-> named w)).
  { intros w Hw. rewrite MatchesPattern_grammar by discriminate.
    apply star_pattern. exact Hw. }
  pose proof (P "move"%string eq_refl) as P1.
  pose proof (P "locomotion"%string eq_refl) as P2.
  pose proof (P "walk"%string eq_refl) as P3.
  pose proof (P "thumbstick"%string eq_refl) as P4.
  rewrite isMovementAction_exists. unfold default_actionPatterns.
  split.
  - intros (pattern & Hin & Hm). cbn [In] in Hin.
    destruct Hin as [<- | [<- | [<- | [<- | []]]]];
      [left; apply P1 | right; left; apply P2
       | right; right; left; apply P3 | right; right; right; apply P4];
      exact Hm.
  - intros [H | [H | [H | H]]];
      [exists (str "*move*") | exists (str "*locomotion*")
       | exists (str "*walk*") | exists (str "*thumbstick*")];
      (split; [cbn [In]; tauto |]);
      [apply P1 | apply P2 | apply P3 | apply P4]; exact H.
Qed.
